(** * The OpenAI router of big-agi: a shallow embedding and its properties

    Source: [src/modules/llms/openai/openai.router.ts].

    The router is a translation layer between validated tRPC inputs and the
    provider's HTTP API.  Three kinds of data flow through it:

    - inputs that the zod schemas have validated ([accessSchema],
      [modelSchema], [historySchema], [functionsSchema]): records;
    - what the provider sends back ([response.json()], typed [any] at run
      time and only cast by the TypeScript types): JavaScript values, read
      with the language's own property access, truthiness and string
      conversion;
    - the services of the JavaScript platform the router calls
      ([JSON.parse], [String.prototype.localeCompare], the arithmetic of
      numbers): operations of a [Platform], kept abstract.

    Embedded: [openAIAccess], [openAIChatCompletionPayload], [openaiPOST],
    [parseChatGenerateFCOutput], [parseChatGenerateOutput], the handler of
    [chatGenerateWithFunctions] (the function given to [.mutation], lines
    79-99) and the filter and sort of [listModels].  [openaiGET] and the
    [moderation] procedure follow them, and then the procedure
    [chatGenerateWithFunctions] as a caller sees it: the handler followed
    by the validation of its result against the output schema of lines
    56-66.  The cast of what [openaiGET] returns to the typed catalog of
    [listModels] is not embedded. *)

From Stdlib Require Import String Ascii List ZArith Bool Arith Lia.
From Stdlib Require Import DecimalString Permutation Sorted.
Import ListNotations.
Open Scope string_scope.

Set Implicit Arguments.
Set Warnings "-register-all".

(** ** What a call can throw *)

Inductive TRPC_ERROR_CODE : Type :=
| BAD_REQUEST
| INTERNAL_SERVER_ERROR
| CLIENT_CLOSED_REQUEST.

(** [TRPCError] is [new TRPCError({ code, message })], [Error] is
    [new Error(message)], [TypeError] is the error the engine raises on a
    property read of [null]/[undefined], on a call of a non-function and on a
    failed conversion to a primitive, and [FetchRejected] is a rejection of
    the promise [fetch] returns. *)
Inductive Thrown : Type :=
| TRPCError (code : TRPC_ERROR_CODE) (message : string)
| Error (message : string)
| TypeError
| FetchRejected (reason : string).

Definition Result (A : Type) : Type := (Thrown + A)%type.

(** The code of a thrown value, when it is a [TRPCError]. *)
Definition code_of (t : Thrown) : option TRPC_ERROR_CODE :=
  match t with
  | TRPCError c _ => Some c
  | _ => None
  end.

(** ** Strings

    A JavaScript string is a sequence of code units; the embedding uses the
    Standard Library's strings, one character per code unit. *)
Module Str.

(** [s.startsWith(p)] *)
Definition startsWith (s p : string) : bool := String.prefix p s.

(** [s.endsWith(p)] *)
Definition endsWith (s p : string) : bool :=
  (String.length p <=? String.length s)%nat
  && String.eqb (substring (String.length s - String.length p) (String.length p) s) p.

(** [s.slice(0, n)] for a non-negative [n]. *)
Definition slice_to (s : string) (n : nat) : string := substring 0 n s.

(** [s.slice(0, -1)]: all but the last code unit. *)
Definition slice_but_last (s : string) : string :=
  substring 0 (String.length s - 1) s.

(** [s.includes(p)] *)
Fixpoint includes (s p : string) : bool :=
  String.prefix p s
  || match s with
     | EmptyString => false
     | String _ s' => includes s' p
     end.

(** [s.split(sep)] for a separator of one code unit: the pieces between
    the occurrences of [sep], so one piece more than there are
    occurrences. *)
Fixpoint split (sep : ascii) (s : string) : list string :=
  match s with
  | EmptyString => [EmptyString]
  | String c s' =>
      if Ascii.eqb c sep then EmptyString :: split sep s'
      else match split sep s' with
           | piece :: pieces => String c piece :: pieces
           | [] => [String c EmptyString]
           end
  end.

(** [!!s]: a string is truthy when it is not empty. *)
Definition truthy (s : string) : bool := negb (String.eqb s "").

(** [a || b] on strings. *)
Definition or (a b : string) : string := if truthy a then a else b.

(** [a || b] where [b] may be [undefined] (a variable of [process.env]):
    the result may be [undefined] too. *)
Definition or_env (a : string) (b : option string) : option string :=
  if truthy a then Some a else b.

(** [a || b] where [a] may be [undefined] and [b] is a string. *)
Definition or_default (a : option string) (b : string) : string :=
  match a with
  | Some s => or s b
  | None => b
  end.

End Str.

(** ** JavaScript values

    The values [JSON.parse] produces, and [undefined], which a read of a
    missing property gives.  An object is the list of its own properties in
    insertion order, each key once. *)
Section Values.

Variable Number : Type.

Inductive value : Type :=
| VUndefined
| VNull
| VBool (b : bool)
| VNumber (n : Number)
| VString (s : string)
| VArray (elems : list value)
| VObject (props : list (string * value)).

(** The own property [key] of a property list. *)
Fixpoint own (props : list (string * value)) (key : string) : option value :=
  match props with
  | [] => None
  | (k, v) :: rest => if String.eqb k key then Some v else own rest key
  end.

(** Induction on values, through the elements of arrays and the
    properties of objects. *)
Section Induction.

Variable P : value -> Prop.
Hypothesis Hundefined : P VUndefined.
Hypothesis Hnull : P VNull.
Hypothesis Hbool : forall b, P (VBool b).
Hypothesis Hnumber : forall n, P (VNumber n).
Hypothesis Hstring : forall s, P (VString s).
Hypothesis Harray : forall elems, Forall P elems -> P (VArray elems).
Hypothesis Hobject :
  forall props, Forall (fun kv => P (snd kv)) props -> P (VObject props).

Fixpoint value_induction (v : value) : P v :=
  match v with
  | VUndefined => Hundefined
  | VNull => Hnull
  | VBool b => Hbool b
  | VNumber n => Hnumber n
  | VString s => Hstring s
  | VArray elems =>
      Harray
        ((fix all (es : list value) : Forall P es :=
            match es with
            | [] => Forall_nil P
            | x :: rest => Forall_cons x (value_induction x) (all rest)
            end) elems)
  | VObject props =>
      Hobject
        ((fix all (ps : list (string * value)) : Forall (fun kv => P (snd kv)) ps :=
            match ps with
            | [] => Forall_nil _
            | kv :: rest =>
                Forall_cons (P := fun kv => P (snd kv)) kv
                  (value_induction (snd kv)) (all rest)
            end) props)
  end.

End Induction.

End Values.

Arguments VUndefined {Number}.
Arguments VNull {Number}.
Arguments VBool {Number} b.
Arguments VString {Number} s.
Arguments VArray {Number} elems.
Arguments VObject {Number} props.

(** ** The platform

    [Number] is the type of JavaScript numbers (IEEE 754 binary64), with the
    operations the router needs of it; [JSON_parse] is [JSON.parse] on a
    string, [inl message] standing for the [SyntaxError] it throws;
    [localeCompare] is [String.prototype.localeCompare] in the server's
    locale. *)
Class Platform : Type := {
  Number : Type;
  Number_of_nat : nat -> Number;
  Number_eqb : Number -> Number -> bool;
  Number_truthy : Number -> bool;
  Number_toString : Number -> string;
  JSON_parse : string -> string + value Number;
  localeCompare : string -> string -> Z
}.

(** ** The semantics of the JavaScript operations the router uses *)
Section JavaScript.

Context `{Platform}.

Definition JSValue : Type := value Number.

(** [!!v] (ToBoolean). *)
Definition truthy (v : JSValue) : bool :=
  match v with
  | VUndefined | VNull => false
  | VBool b => b
  | VNumber n => Number_truthy n
  | VString s => Str.truthy s
  | VArray _ | VObject _ => true
  end.

(** [v === lit] where [lit] is a primitive literal of the source ([null],
    [1], ['function_call']); an array or an object is identical to no
    literal. *)
Definition IsStrictlyEqual (v lit : JSValue) : bool :=
  match v, lit with
  | VUndefined, VUndefined => true
  | VNull, VNull => true
  | VBool a, VBool b => Bool.eqb a b
  | VNumber a, VNumber b => Number_eqb a b
  | VString a, VString b => String.eqb a b
  | _, _ => false
  end.

(** The property key of an array index: its decimal numeral. *)
Definition index_key (i : nat) : string :=
  DecimalString.NilEmpty.string_of_uint (Nat.to_uint i).

(** [v.key] for a property name [key] that is no array index and that the
    built-in prototypes do not define (the router reads [choices],
    [message], [finish_reason], [content], [role], [function_call],
    [name], [arguments], [error]) or for [length], which strings and
    arrays define. *)
Definition Get (v : JSValue) (key : string) : Result JSValue :=
  match v with
  | VUndefined | VNull => inl TypeError
  | VBool _ | VNumber _ => inr VUndefined
  | VString s =>
      if String.eqb key "length"
      then inr (VNumber (Number_of_nat (String.length s)))
      else inr VUndefined
  | VArray elems =>
      if String.eqb key "length"
      then inr (VNumber (Number_of_nat (List.length elems)))
      else inr VUndefined
  | VObject props =>
      match own props key with
      | Some x => inr x
      | None => inr VUndefined
      end
  end.

(** [v[i]] for an array index [i]. *)
Definition GetIndex (v : JSValue) (i : nat) : Result JSValue :=
  match v with
  | VUndefined | VNull => inl TypeError
  | VBool _ | VNumber _ => inr VUndefined
  | VString s =>
      match String.get i s with
      | Some c => inr (VString (String c EmptyString))
      | None => inr VUndefined
      end
  | VArray elems => inr (nth i elems VUndefined)
  | VObject props =>
      match own props (index_key i) with
      | Some x => inr x
      | None => inr VUndefined
      end
  end.

(** [v?.key]: [undefined] when [v] is [null] or [undefined]. *)
Definition OptGet (v : JSValue) (key : string) : JSValue :=
  match Get v key with
  | inl _ => VUndefined
  | inr x => x
  end.

(** ToString, the conversion a template literal applies.  An array is
    joined with commas, [null] and [undefined] elements printing as
    nothing.  A plain object prints through [Object.prototype.toString]
    unless it has an own property [toString]: a parsed value is never
    callable, so the conversion to a primitive then fails. *)
Fixpoint ToString (v : JSValue) : Result string :=
  match v with
  | VUndefined => inr "undefined"
  | VNull => inr "null"
  | VBool true => inr "true"
  | VBool false => inr "false"
  | VNumber n => inr (Number_toString n)
  | VString s => inr s
  | VArray elems =>
      (fix join (es : list JSValue) : Result string :=
         match es with
         | [] => inr ""
         | e :: rest =>
             match (match e with
                    | VUndefined | VNull => inr ""
                    | _ => ToString e
                    end) with
             | inl t => inl t
             | inr s =>
                 match rest with
                 | [] => inr s
                 | _ :: _ =>
                     match join rest with
                     | inl t => inl t
                     | inr tail => inr (s ++ "," ++ tail)
                     end
                 end
             end
         end) elems
  | VObject props =>
      match own props "toString" with
      | Some _ => inl TypeError
      | None => inr "[object Object]"
      end
  end.

(** [v?.toString()]: [undefined] on [null] and [undefined]; otherwise the
    method the prototype of [v] provides, which converts like ToString (an
    own [toString] of a parsed object is not a function). *)
Definition OptCall_toString (v : JSValue) : Result JSValue :=
  match v with
  | VUndefined | VNull => inr VUndefined
  | _ =>
      match ToString v with
      | inl t => inl t
      | inr s => inr (VString s)
      end
  end.

End JavaScript.

(** ** Input schemas (lines 15-48): what zod hands to the procedures *)

Record AccessSchema : Type := {
  oaiKey : string;
  oaiOrg : string;
  oaiHost : string;
  heliKey : string;
  moderationCheck : bool
}.

Record ModelSchema (Number : Type) : Type := {
  id : string;
  temperature : option Number;
  maxTokens : option Number
}.

Inductive Role : Type := assistant | system | user.

Record HistoryMessage : Type := {
  role : Role;
  content : string
}.

Definition HistorySchema : Type := list HistoryMessage.

Inductive PropertyType : Type := t_string | t_number | t_integer | t_boolean.

Record PropertySchema : Type := {
  property_type : PropertyType;
  property_description : option string;
  property_enum : option (list string)
}.

(** [parameters]: its [type] is the literal ['object']. *)
Record ParametersSchema : Type := {
  properties : list (string * PropertySchema);
  required : option (list string)
}.

Record FunctionSchema : Type := {
  name : string;
  description : option string;
  parameters : option ParametersSchema
}.

Definition FunctionsSchema : Type := list FunctionSchema.

(** [chatGenerateSchema]; [functions] is optional: [None] is [undefined]. *)
Record ChatGenerateSchema (Number : Type) : Type := {
  access : AccessSchema;
  model : ModelSchema Number;
  history : HistorySchema;
  functions : option FunctionsSchema
}.

(** The variables of [process.env] the router reads; [None] is an unset
    variable. *)
Record ProcessEnv : Type := {
  OPENAI_API_KEY : option string;
  OPENAI_API_ORG_ID : option string;
  OPENAI_API_HOST : option string;
  HELICONE_API_KEY : option string
}.

(** ** Wire types the router builds *)

(** What [openAIAccess] returns. *)
Record Access : Type := {
  headers : list (string * string);
  url : string
}.

(** [OpenAI.Wire.ChatCompletion.Request] as [openAIChatCompletionPayload]
    builds it: an optional field is [None] when the object literal leaves
    the key out. *)
Record Request (Number : Type) : Type := {
  wire_model : string;
  wire_messages : HistorySchema;
  wire_functions : option FunctionsSchema;
  wire_function_call : option string;
  wire_temperature : option Number;
  wire_max_tokens : option Number;
  wire_n : Number;
  wire_stream : bool
}.

(** One call of [fetch(url, { headers, method, body })].  [sent_body] is
    the object that [JSON.stringify] serialises. *)
Record HttpRequest (TBody : Type) : Type := {
  sent_url : string;
  sent_headers : list (string * string);
  sent_method : string;
  sent_body : TBody
}.

(** The part of a [Response] the router reads: [ok], [statusText] and the
    body text that [response.json()] parses. *)
Record HttpResponse : Type := {
  ok : bool;
  statusText : string;
  body_text : string
}.

(** The two shapes [chatGenerateWithFunctions] returns
    ([chatGenerateWithFunctionsOutputSchema]). *)
Inductive ChatOutcome (Number : Type) : Type :=
| Message (message_role message_content finish_reason : value Number)
| FunctionCall (function_name function_arguments : value Number).

Arguments Message {Number} message_role message_content finish_reason.
Arguments FunctionCall {Number} function_name function_arguments.

(** ** Effects: a call either returns or throws, and records the requests
    it sent *)
Section Effects.

Variable TBody : Type.

Definition Trace : Type := list (HttpRequest TBody).

Definition M (A : Type) : Type := Trace -> Result A * Trace.

Definition ret {A} (a : A) : M A := fun t => (inr a, t).

Definition throw {A} (e : Thrown) : M A := fun t => (inl e, t).

Definition bind {A B} (m : M A) (k : A -> M B) : M B :=
  fun t =>
    match m t with
    | (inl e, t') => (inl e, t')
    | (inr a, t') => k a t'
    end.

(** A computation without requests. *)
Definition lift {A} (r : Result A) : M A := fun t => (r, t).

(** [await fetch(url, init)] against a network that answers [network]. *)
Definition do_fetch (network : HttpRequest TBody -> Result HttpResponse)
    (request : HttpRequest TBody) : M HttpResponse :=
  fun t => (network request, (t ++ [request])%list).

End Effects.

Arguments ret {TBody A} a.
Arguments throw {TBody A} e.
Arguments bind {TBody A B} m k.
Arguments lift {TBody A} r.

Definition bindR {A B} (r : Result A) (k : A -> Result B) : Result B :=
  match r with
  | inl e => inl e
  | inr a => k a
  end.

Declare Scope js_scope.
Delimit Scope js_scope with js.
Notation "x <- m ;; k" := (bind m (fun x => k))
  (at level 61, m at next level, right associativity) : js_scope.
Notation "x <~ r ;; k" := (bindR r (fun x => k))
  (at level 61, r at next level, right associativity) : js_scope.
Open Scope js_scope.

(** ** The router *)
Section Router.

Context `{Platform}.

(** [openAIAccess] (lines 197-224). *)
Definition openAIAccess (env : ProcessEnv) (access : AccessSchema) (apiPath : string)
  : Result Access :=
  (* API key *)
  let oaiKey := Str.or_default (Str.or_env (oaiKey access) (OPENAI_API_KEY env)) "" in
  if negb (Str.truthy oaiKey)
  then inl (Error "Missing OpenAI API Key. Add it on the UI (Models Setup) or server side (your deployment).")
  else
    (* Organization ID *)
    let oaiOrg := Str.or_default (Str.or_env (oaiOrg access) (OPENAI_API_ORG_ID env)) "" in
    (* API host *)
    let oaiHost :=
      Str.or_default (Str.or_env (oaiHost access) (OPENAI_API_HOST env)) "https://api.openai.com" in
    let oaiHost :=
      if negb (Str.startsWith oaiHost "http") then "https://" ++ oaiHost else oaiHost in
    let oaiHost :=
      if Str.endsWith oaiHost "/" && Str.startsWith apiPath "/"
      then Str.slice_but_last oaiHost
      else oaiHost in
    (* Helicone key *)
    let heliKey := Str.or_default (Str.or_env (heliKey access) (HELICONE_API_KEY env)) "" in
    inr {| headers :=
             ([("Authorization", ("Bearer " ++ oaiKey)%string);
               ("Content-Type", "application/json")]
              ++ (if Str.truthy oaiOrg then [("OpenAI-Organization", oaiOrg)] else [])
              ++ (if Str.truthy heliKey then [("Helicone-Auth", ("Bearer " ++ heliKey)%string)] else []))%list;
           url := oaiHost ++ apiPath |}.

(** [openAIChatCompletionPayload] (lines 226-236).  A spread
    [...(x && { ... })] adds its keys when [x] is truthy: an array is
    truthy whatever its length, a number unless it is zero or NaN. *)
Definition openAIChatCompletionPayload (model : ModelSchema Number)
    (history : HistorySchema) (functions : option FunctionsSchema) (n : Number)
    (stream : bool) : Request Number :=
  {| wire_model := id model;
     wire_messages := history;
     wire_functions :=
       match functions with
       | Some fs => Some fs
       | None => None
       end;
     wire_function_call :=
       match functions with
       | Some _ => Some "auto"
       | None => None
       end;
     wire_temperature :=
       match temperature model with
       | Some t => if Number_truthy t then Some t else None
       | None => None
       end;
     wire_max_tokens :=
       match maxTokens model with
       | Some t => if Number_truthy t then Some t else None
       | None => None
       end;
     wire_n := n;
     wire_stream := stream |}.

(** The message of the [BAD_REQUEST] error of [openaiPOST] (lines 185-187),
    [error] being the parsed body, or [null] when parsing it threw. *)
Definition openaiPOST_message (error : JSValue) (statusText : string) : Result string :=
  if truthy error then
    let e := OptGet error "error" in
    let m := OptGet e "message" in
    chosen <~ (if truthy m then inr m
               else if truthy e then inr e
               else s <~ OptCall_toString error ;;
                    if truthy s then inr s else inr (VString "Unknown error")) ;;
    text <~ ToString chosen ;;
    inr ("[OpenAI Issue] " ++ text)
  else inr ("[Issue] " ++ statusText).

(** [openaiPOST] (lines 173-195). *)
Definition openaiPOST {TBody : Type} (env : ProcessEnv)
    (network : HttpRequest TBody -> Result HttpResponse)
    (access : AccessSchema) (body : TBody) (apiPath : string) : M TBody JSValue :=
  a <- lift (openAIAccess env access apiPath) ;;
  response <- do_fetch network
                {| sent_url := url a; sent_headers := headers a;
                   sent_method := "POST"; sent_body := body |} ;;
  if negb (ok response) then
    let error :=
      match JSON_parse (body_text response) with
      | inr v => v
      | inl _ => VNull
      end in
    message <- lift (openaiPOST_message error (statusText response)) ;;
    throw (TRPCError BAD_REQUEST message)
  else
    match JSON_parse (body_text response) with
    | inr v => ret v
    | inl message =>
        throw (TRPCError INTERNAL_SERVER_ERROR
                 ("[OpenAI Issue] " ++ Str.or message "SyntaxError"))
    end.

(** [parseChatGenerateFCOutput] (lines 238-278). *)
Definition parseChatGenerateFCOutput (isFunctionsCall : bool) (message : JSValue)
  : Result (ChatOutcome Number) :=
  if negb isFunctionsCall
  then inl (TRPCError INTERNAL_SERVER_ERROR
              "[OpenAI Issue] Received a function call without a function call request")
  else
    (* parse the function call *)
    let fcMessage := message in
    content <~ Get fcMessage "content" ;;
    if negb (IsStrictlyEqual content VNull)
    then inl (TRPCError INTERNAL_SERVER_ERROR
                "[OpenAI Issue] Expected a function call, got a message")
    else
      (* got a function call, so parse it *)
      fc <~ Get fcMessage "function_call" ;;
      missing <~ (if negb (truthy fc) then inr true
                  else fc_name <~ Get fc "name" ;;
                       if negb (truthy fc_name) then inr true
                       else fc_arguments <~ Get fc "arguments" ;;
                            inr (negb (truthy fc_arguments))) ;;
      if (missing : bool)
      then inl (TRPCError INTERNAL_SERVER_ERROR
                  "[OpenAI Issue] Issue with the function call, missing name or arguments")
      else
        (* decode the function call *)
        fcName <~ Get fc "name" ;;
        fc_arguments <~ Get fc "arguments" ;;
        let invalid : Result (ChatOutcome Number) :=
          inl (TRPCError INTERNAL_SERVER_ERROR
                 "[OpenAI Issue] Issue with the function call, arguments are not valid JSON") in
        (* try { fcArgs = JSON.parse(fc.arguments) } catch (error) { throw ... } *)
        match ToString fc_arguments with
        | inl _ => invalid
        | inr text =>
            match JSON_parse text with
            | inl _ => invalid
            | inr fcArgs => inr (FunctionCall fcName fcArgs)
            end
        end.

(** [parseChatGenerateOutput] (lines 280-293). *)
Definition parseChatGenerateOutput (message finish_reason : JSValue)
  : Result (ChatOutcome Number) :=
  (* validate the message *)
  content <~ Get message "content" ;;
  if IsStrictlyEqual content VNull
  then inl (TRPCError INTERNAL_SERVER_ERROR
              "[OpenAI Issue] Expected a message, got a null message")
  else
    role <~ Get message "role" ;;
    inr (Message role content finish_reason).

(** [!!functions && functions.length > 0] (line 82). *)
Definition isFunctionsCall (functions : option FunctionsSchema) : bool :=
  match functions with
  | Some fs => (0 <? List.length fs)%nat
  | None => false
  end.

(** The handler of [chatGenerateWithFunctions] (lines 79-99): the function
    given to [.mutation].  What it returns has yet to pass the output
    schema; [Procedure.chatGenerateWithFunctions] is the procedure with
    that check. *)
Definition chatGenerateWithFunctions (env : ProcessEnv)
    (network : HttpRequest (Request Number) -> Result HttpResponse)
    (input : ChatGenerateSchema Number) : M (Request Number) (ChatOutcome Number) :=
  let isFunctionsCall := isFunctionsCall (functions input) in
  wireCompletions <-
    openaiPOST env network (access input)
      (openAIChatCompletionPayload (model input) (history input)
         (if isFunctionsCall then functions input else None)
         (Number_of_nat 1) false)
      "/v1/chat/completions" ;;
  (* expect a single output *)
  let got := OptGet (OptGet wireCompletions "choices") "length" in
  if negb (IsStrictlyEqual got (VNumber (Number_of_nat 1)))
  then
    text <- lift (ToString got) ;;
    throw (TRPCError INTERNAL_SERVER_ERROR
             ("[OpenAI Issue] Expected 1 completion, got " ++ text))
  else
    choices <- lift (Get wireCompletions "choices") ;;
    choice <- lift (GetIndex choices 0) ;;
    message <- lift (Get choice "message") ;;
    finish_reason <- lift (Get choice "finish_reason") ;;
    (* check for a function output *)
    if IsStrictlyEqual finish_reason (VString "function_call")
    then lift (parseChatGenerateFCOutput isFunctionsCall message)
    else lift (parseChatGenerateOutput message finish_reason).

End Router.

(** ** The model list (lines 131-156) *)

(** [Array.prototype.sort(compare)].  With a consistent comparator the
    language fixes the result: the arrangement in which [compare] is never
    positive from an element to a later one, elements that compare equal
    keeping their order.  Inserting from the right computes it. *)
Fixpoint Array_sort_insert {A : Type} (compare : A -> A -> Z) (x : A) (sorted : list A) : list A :=
  match sorted with
  | [] => [x]
  | y :: rest =>
      if (compare x y <=? 0)%Z then x :: y :: rest
      else y :: Array_sort_insert compare x rest
  end.

Definition Array_sort {A : Type} (compare : A -> A -> Z) (l : list A) : list A :=
  fold_right (Array_sort_insert compare) [] l.

(** [x] may stand before [y] in an array sorted with [compare]. *)
Definition before {A : Type} (compare : A -> A -> Z) (x y : A) : Prop :=
  (compare x y <= 0)%Z.

Module Models.

(** Modelled from the spec: [OpenAI.Wire.Models.ModelDescription], declared
    in [openai.types.ts]: a catalog entry of the provider, "minimally
    {id: string}"; [rest] stands for what else the provider sends along,
    which the router passes through. *)
Record ModelDescription (Rest : Type) : Type := {
  id : string;
  rest : Rest
}.

(** [OpenAI.Wire.Models.Response]: [data] may be missing. *)
Record Response (Rest : Type) : Type := {
  data : option (list (ModelDescription Rest))
}.

Section ListModels.

Context `{Platform} {Rest : Type}.

(** The comparator of [llms.sort] (lines 138-154). *)
Definition compare (a b : ModelDescription Rest) : Z :=
  (* sort by the first 5 chars of id, decreasing, then by the number of '-' in the name *)
  let aId := Str.slice_to (id a) 5 in
  let bId := Str.slice_to (id b) 5 in
  if String.eqb aId bId then
    let aCount := Z.of_nat (List.length (Str.split "-" (id a))) in
    let bCount := Z.of_nat (List.length (Str.split "-" (id b))) in
    if (aCount =? bCount)%Z
    then localeCompare (id a) (id b)
    else (aCount - bCount)%Z
  else localeCompare bId aId.

(** The query of [listModels] once [openaiGET] has resolved to
    [wireModels]. *)
Definition listModels (wireModels : Response Rest) : list (ModelDescription Rest) :=
  (* filter out the non-gpt models *)
  let llms :=
    match data wireModels with
    | Some models => filter (fun model => Str.includes (id model) "gpt") models
    | None => []
    end in
  Array_sort compare llms.

End ListModels.

End Models.

(** ** [openaiGET] (lines 167-171) *)

(** What [openaiGET] throws: what [openAIAccess] and [fetch] threw, or the
    [SyntaxError] of [response.json()], which nothing catches there. *)
Inductive Raised : Type :=
| Rethrown (e : Thrown)
| SyntaxError (message : string).

Section Get.

Context `{Platform}.

(** [fetch(url, { headers })] names no method and no body: the request is a
    GET without body.  The status of the response is not looked at. *)
Definition openaiGET (env : ProcessEnv)
    (network : HttpRequest unit -> Result HttpResponse)
    (access : AccessSchema) (apiPath : string)
  : Trace unit -> (Raised + JSValue) * Trace unit :=
  fun t =>
    match openAIAccess env access apiPath with
    | inl e => (inl (Rethrown e), t)
    | inr a =>
        let request :=
          {| sent_url := url a; sent_headers := headers a;
             sent_method := "GET"; sent_body := tt |} in
        match network request with
        | inl e => (inl (Rethrown e), (t ++ [request])%list)
        | inr response =>
            (match JSON_parse (body_text response) with
             | inl message => inl (SyntaxError message)
             | inr v => inr v
             end,
             (t ++ [request])%list)
        end
    end.

End Get.

(** ** The [moderation] procedure (lines 104-122) *)
Module Moderation.

(** [chatModerationSchema] *)
Record Schema : Type := {
  access : AccessSchema;
  text : string
}.

(** [OpenAI.Wire.Moderation.Request] as the procedure builds it. *)
Record Request : Type := {
  input : string;
  model : string
}.

(** What the catch block reads of the error it caught: [error.code] when
    it is a string, [error?.message] and [error?.toString()], the empty
    string standing for a falsy one. *)
Record Caught : Type := {
  code : option string;
  message : string;
  toString : string
}.

(** [Error.prototype.toString] for an error of this name and message. *)
Definition Error_toString (name message : string) : string :=
  if negb (Str.truthy name) then message
  else if negb (Str.truthy message) then name
  else name ++ ": " ++ message.

(** The [code] of a [TRPCError] is the name of its code. *)
Definition code_name (c : TRPC_ERROR_CODE) : string :=
  match c with
  | BAD_REQUEST => "BAD_REQUEST"
  | INTERNAL_SERVER_ERROR => "INTERNAL_SERVER_ERROR"
  | CLIENT_CLOSED_REQUEST => "CLIENT_CLOSED_REQUEST"
  end.

(** How a thrown value shows to the catch block.  The errors the router
    constructs show as the language says; what the engine and [fetch] throw
    (a TypeError, a rejection) shows as [engine] says. *)
Definition caught (engine : Thrown -> Caught) (error : Thrown) : Caught :=
  match error with
  | TRPCError c m =>
      {| code := Some (code_name c); message := m;
         toString := Error_toString "TRPCError" m |}
  | Error m =>
      {| code := None; message := m; toString := Error_toString "Error" m |}
  | TypeError | FetchRejected _ => engine error
  end.

Section Procedure.

Context `{Platform}.

(** [try { return await body } catch (error) { handler }] *)
Definition try_catch {TBody A : Type} (body : M TBody A) (handler : Thrown -> M TBody A)
  : M TBody A :=
  fun t =>
    match body t with
    | (inl error, t') => handler error t'
    | (inr a, t') => (inr a, t')
    end.

(** The handler of [moderation].  The [console.error] of line 119 writes to
    the log of the server and is left out. *)
Definition moderation (engine : Thrown -> Caught) (env : ProcessEnv)
    (network : HttpRequest Request -> Result HttpResponse)
    (input : Schema) : M Request JSValue :=
  try_catch
    (openaiPOST env network (access input)
       {| input := text input; model := "text-moderation-latest" |}
       "/v1/moderations")
    (fun error =>
       if match code (caught engine error) with
          | Some c => String.eqb c "ECONNRESET"
          | None => false
          end
       then throw (TRPCError CLIENT_CLOSED_REQUEST "Connection reset by the client.")
       else throw (TRPCError BAD_REQUEST
                     ("Error: " ++ Str.or (message (caught engine error))
                                     (Str.or (toString (caught engine error))
                                        "Unknown error")))).

End Procedure.

End Moderation.

(** ** Output validation (lines 56-66 and 78)

    The parsers of zod that the output schema is made of.  A parser gives
    the parsed value, or nothing when it refuses the value. *)
Module z.

Section Parsers.

Variable Number : Type.

Definition Schema : Type := value Number -> option (value Number).

(** [z.string()] *)
Definition string (v : value Number) : option (value Number) :=
  match v with
  | VString _ => Some v
  | _ => None
  end.

(** [z.enum([...])] *)
Definition enum (values : list String.string) (v : value Number)
  : option (value Number) :=
  match v with
  | VString s => if existsb (String.eqb s) values then Some v else None
  | _ => None
  end.

(** [z.null()] *)
Definition null (v : value Number) : option (value Number) :=
  match v with
  | VNull => Some v
  | _ => None
  end.

(** [z.any()] *)
Definition any (v : value Number) : option (value Number) := Some v.

(** [z.union([...])]: the first of the options that accepts the value
    parses it. *)
Fixpoint union (options : list Schema) (v : value Number) : option (value Number) :=
  match options with
  | [] => None
  | first :: others =>
      match first v with
      | Some parsed => Some parsed
      | None => union others v
      end
  end.

(** The properties of a parsed record: those of the value, parsed, but
    for the key ["__proto__"], which the assignment that builds the parsed
    object does not make a property. *)
Fixpoint record_entries (values : Schema) (props : list (String.string * value Number))
  : option (list (String.string * value Number)) :=
  match props with
  | [] => Some []
  | (key, v) :: rest =>
      match values v, record_entries values rest with
      | Some parsed, Some entries =>
          Some (if String.eqb key "__proto__" then entries else (key, parsed) :: entries)
      | _, _ => None
      end
  end.

(** [z.record(values)]: a plain object (no array, no null) all of whose
    values [values] accepts. *)
Definition record (values : Schema) (v : value Number) : option (value Number) :=
  match v with
  | VObject props =>
      match record_entries values props with
      | Some entries => Some (VObject entries)
      | None => None
      end
  | _ => None
  end.

End Parsers.

End z.

(** What a call of a procedure fails with.  tRPC throws a TRPCError in
    every case: the TRPCError that the handler threw or one of its own
    ([Failed]), or, when the handler threw anything else, an
    INTERNAL_SERVER_ERROR that has what was thrown as its cause
    ([Internal]). *)
Inductive Failure : Type :=
| Failed (code : TRPC_ERROR_CODE) (message : string)
| Internal (cause : Thrown).

Definition getTRPCErrorFromUnknown (cause : Thrown) : Failure :=
  match cause with
  | TRPCError code message => Failed code message
  | _ => Internal cause
  end.

Module Procedure.

Section Procedures.

Context `{Platform}.

(** [chatGenerateWithFunctionsOutputSchema] (lines 56-66) on what the
    handler returns.  Each [z.object] of the union parses the properties
    it names; an object of the other shape has none of them, and is
    refused. *)
Definition chatGenerateWithFunctionsOutputSchema (data : ChatOutcome Number)
  : option (ChatOutcome Number) :=
  match data with
  | Message role content finish_reason =>
      match z.enum ["assistant"; "system"; "user"] role,
            z.string content,
            z.union [z.enum ["stop"; "length"]; @z.null Number] finish_reason with
      | Some role, Some content, Some finish_reason =>
          Some (Message role content finish_reason)
      | _, _, _ => None
      end
  | FunctionCall function_name function_arguments =>
      match z.string function_name,
            z.record (@z.any Number) function_arguments with
      | Some function_name, Some function_arguments =>
          Some (FunctionCall function_name function_arguments)
      | _, _ => None
      end
  end.

(** The procedure [chatGenerateWithFunctions] (lines 76-99):
    [publicProcedure.input(chatGenerateSchema)
    .output(chatGenerateWithFunctionsOutputSchema).mutation(handler)].
    The input is a validated input.  tRPC runs the handler and parses
    what it returned with the output schema: the call returns the parsed
    value, or fails with the INTERNAL_SERVER_ERROR "Output validation
    failed" when the schema refuses the value. *)
Definition chatGenerateWithFunctions (env : ProcessEnv)
    (network : HttpRequest (Request Number) -> Result HttpResponse)
    (input : ChatGenerateSchema Number)
  : Trace (Request Number) -> (Failure + ChatOutcome Number) * Trace (Request Number) :=
  fun t =>
    match chatGenerateWithFunctions env network input t with
    | (inl cause, t') => (inl (getTRPCErrorFromUnknown cause), t')
    | (inr data, t') =>
        match chatGenerateWithFunctionsOutputSchema data with
        | Some parsed => (inr parsed, t')
        | None => (inl (Failed INTERNAL_SERVER_ERROR "Output validation failed"), t')
        end
    end.

End Procedures.

End Procedure.

(** ** A reference platform

    An executable [Platform], to run the router on concrete inputs.  It
    stands in for the engine on the inputs of the examples and is not the
    engine.  Its numbers are exact decimals [mantissa * 10 ^ exponent]
    (where binary64 rounds, this platform does not); its [JSON.parse]
    follows the JSON grammar (ECMA-404) over strings of 8-bit code units,
    rejects an escaped code unit above 255, keeps the keys of an object in
    the order of the text and has its own messages for what it rejects;
    its [localeCompare] is the order of the code units, where the engine
    has the collation of a locale.  The general theorems do not depend on
    it: they hold for every [Platform]. *)
Module Reference.

Record Decimal : Type := {
  mantissa : Z;
  exponent : Z
}.

Definition Decimal_of_nat (n : nat) : Decimal :=
  {| mantissa := Z.of_nat n; exponent := 0 |}.

Definition Decimal_eqb (a b : Decimal) : bool :=
  let e := Z.min (exponent a) (exponent b) in
  (mantissa a * 10 ^ (exponent a - e) =? mantissa b * 10 ^ (exponent b - e))%Z.

Definition Decimal_truthy (a : Decimal) : bool := negb (mantissa a =? 0)%Z.

(** Drop the trailing zeros of a mantissa with a negative exponent. *)
Fixpoint normalise (fuel : nat) (m e : Z) : Z * Z :=
  match fuel with
  | O => (m, e)
  | S fuel' =>
      if (e <? 0)%Z && (m mod 10 =? 0)%Z && negb (m =? 0)%Z
      then normalise fuel' (m / 10)%Z (e + 1)%Z
      else (m, e)
  end.

Definition print_nat (n : nat) : string := NilEmpty.string_of_uint (Nat.to_uint n).

Fixpoint zeros (n : nat) : string :=
  match n with
  | O => EmptyString
  | S n' => String "0" (zeros n')
  end.

Definition Decimal_toString (a : Decimal) : string :=
  let (m, e) := normalise (Z.to_nat (- exponent a)) (mantissa a) (exponent a) in
  let sign := if (m <? 0)%Z then "-" else "" in
  if (m =? 0)%Z then "0"
  else if (0 <=? e)%Z
  then sign ++ print_nat (Z.to_nat (Z.abs m * 10 ^ e))
  else
    let d := Z.to_nat (- e) in
    let ds := print_nat (Z.to_nat (Z.abs m)) in
    let ds := zeros (S d - String.length ds) ++ ds in
    let k := (String.length ds - d)%nat in
    sign ++ substring 0 k ds ++ "." ++ substring k d ds.

Definition Json : Type := value Decimal.

(** *** The JSON grammar *)

Definition quote : ascii := ascii_of_nat 34.
Definition backslash : ascii := ascii_of_nat 92.

Definition is_ws (c : ascii) : bool :=
  let n := nat_of_ascii c in
  (n =? 32)%nat || (n =? 9)%nat || (n =? 10)%nat || (n =? 13)%nat.

Fixpoint skip_ws (s : list ascii) : list ascii :=
  match s with
  | c :: rest => if is_ws c then skip_ws rest else s
  | [] => []
  end.

Definition digit (c : ascii) : option Z :=
  let n := nat_of_ascii c in
  if (48 <=? n)%nat && (n <=? 57)%nat then Some (Z.of_nat (n - 48)) else None.

Definition hex_digit (c : ascii) : option nat :=
  let n := nat_of_ascii c in
  if (48 <=? n)%nat && (n <=? 57)%nat then Some (n - 48)%nat
  else if (65 <=? n)%nat && (n <=? 70)%nat then Some (n - 55)%nat
  else if (97 <=? n)%nat && (n <=? 102)%nat then Some (n - 87)%nat
  else None.

(** A run of digits: the number they denote after [acc], how many they
    are, and the rest. *)
Fixpoint digits (s : list ascii) (acc : Z) (count : nat) : Z * nat * list ascii :=
  match s with
  | c :: rest =>
      match digit c with
      | Some d => digits rest (acc * 10 + d)%Z (S count)
      | None => (acc, count, s)
      end
  | [] => (acc, count, [])
  end.

(** [number = [ minus ] int [ frac ] [ exp ]] *)
Definition parse_number (s : list ascii) : option (Decimal * list ascii) :=
  let (negative, s) :=
    match s with
    | "-"%char :: rest => (true, rest)
    | _ => (false, s)
    end in
  let int_part :=
    match s with
    | "0"%char :: rest => Some (0%Z, rest)
    | _ => match digits s 0 0 with
           | (_, O, _) => None
           | (m, S _, rest) => Some (m, rest)
           end
    end in
  match int_part with
  | None => None
  | Some (m, s) =>
      let frac :=
        match s with
        | "."%char :: rest =>
            match digits rest m 0 with
            | (_, O, _) => None
            | (m', S k, rest') => Some (m', (- Z.of_nat (S k))%Z, rest')
            end
        | _ => Some (m, 0%Z, s)
        end in
      match frac with
      | None => None
      | Some (m, e, s) =>
          let exp :=
            match s with
            | c :: rest =>
                if Ascii.eqb c "e" || Ascii.eqb c "E" then
                  let (minus, rest) :=
                    match rest with
                    | "-"%char :: r => (true, r)
                    | "+"%char :: r => (false, r)
                    | _ => (false, rest)
                    end in
                  match digits rest 0 0 with
                  | (_, O, _) => None
                  | (x, S _, rest') => Some ((if minus then - x else x)%Z, rest')
                  end
                else Some (0%Z, s)
            | [] => Some (0%Z, s)
            end in
          match exp with
          | None => None
          | Some (x, s) =>
              Some ({| mantissa := if negative then (- m)%Z else m;
                       exponent := (e + x)%Z |}, s)
          end
      end
  end.

Definition prepend (c : ascii) (r : option (string * list ascii))
  : option (string * list ascii) :=
  match r with
  | Some (str, rest) => Some (String c str, rest)
  | None => None
  end.

(** The characters of a string after its opening quote, up to the closing
    one: a control character is refused, an escape is decoded. *)
Fixpoint parse_chars (s : list ascii) : option (string * list ascii) :=
  match s with
  | [] => None
  | c :: rest =>
      if Ascii.eqb c quote then Some (EmptyString, rest)
      else if Ascii.eqb c backslash then
        match rest with
        | e :: rest' =>
            if Ascii.eqb e quote then prepend quote (parse_chars rest')
            else if Ascii.eqb e backslash then prepend backslash (parse_chars rest')
            else if Ascii.eqb e "/" then prepend "/"%char (parse_chars rest')
            else if Ascii.eqb e "b" then prepend (ascii_of_nat 8) (parse_chars rest')
            else if Ascii.eqb e "f" then prepend (ascii_of_nat 12) (parse_chars rest')
            else if Ascii.eqb e "n" then prepend (ascii_of_nat 10) (parse_chars rest')
            else if Ascii.eqb e "r" then prepend (ascii_of_nat 13) (parse_chars rest')
            else if Ascii.eqb e "t" then prepend (ascii_of_nat 9) (parse_chars rest')
            else if Ascii.eqb e "u" then
              match rest' with
              | h1 :: h2 :: h3 :: h4 :: tail =>
                  match hex_digit h1, hex_digit h2, hex_digit h3, hex_digit h4 with
                  | Some a, Some b, Some c', Some d =>
                      let code := (((a * 16 + b) * 16 + c') * 16 + d)%nat in
                      if (code <? 256)%nat
                      then prepend (ascii_of_nat code) (parse_chars tail)
                      else None
                  | _, _, _, _ => None
                  end
              | _ => None
              end
            else None
        | [] => None
        end
      else if (nat_of_ascii c <? 32)%nat then None
      else prepend c (parse_chars rest)
  end.

(** [obj[key] = v] while an object literal is read: a repeated key keeps
    its place and takes the later value. *)
Fixpoint set_own (props : list (string * Json)) (key : string) (v : Json)
  : list (string * Json) :=
  match props with
  | [] => [(key, v)]
  | (k, x) :: rest =>
      if String.eqb k key then (k, v) :: rest else (k, x) :: set_own rest key v
  end.

(** A value, the elements of an array after its bracket, the members of an
    object after its brace.  Every call uses up one unit of [fuel]; a text
    needs no more than its length plus two. *)
Fixpoint parse_value (fuel : nat) (s : list ascii) : option (Json * list ascii) :=
  match fuel with
  | O => None
  | S fuel' =>
      match skip_ws s with
      | [] => None
      | c :: rest =>
          if Ascii.eqb c "{" then
            match skip_ws rest with
            | "}"%char :: r => Some (VObject [], r)
            | _ => parse_members fuel' rest []
            end
          else if Ascii.eqb c "[" then
            match skip_ws rest with
            | "]"%char :: r => Some (VArray [], r)
            | _ => parse_elements fuel' rest []
            end
          else if Ascii.eqb c quote then
            match parse_chars rest with
            | Some (str, r) => Some (VString str, r)
            | None => None
            end
          else if Ascii.eqb c "t" then
            match rest with
            | "r"%char :: "u"%char :: "e"%char :: r => Some (VBool true, r)
            | _ => None
            end
          else if Ascii.eqb c "f" then
            match rest with
            | "a"%char :: "l"%char :: "s"%char :: "e"%char :: r => Some (VBool false, r)
            | _ => None
            end
          else if Ascii.eqb c "n" then
            match rest with
            | "u"%char :: "l"%char :: "l"%char :: r => Some (VNull, r)
            | _ => None
            end
          else
            match parse_number (c :: rest) with
            | Some (d, r) => Some (VNumber d, r)
            | None => None
            end
      end
  end
with parse_elements (fuel : nat) (s : list ascii) (acc : list Json)
  : option (Json * list ascii) :=
  match fuel with
  | O => None
  | S fuel' =>
      match parse_value fuel' s with
      | Some (v, r) =>
          match skip_ws r with
          | ","%char :: r' => parse_elements fuel' r' (v :: acc)
          | "]"%char :: r' => Some (VArray (rev (v :: acc)), r')
          | _ => None
          end
      | None => None
      end
  end
with parse_members (fuel : nat) (s : list ascii) (acc : list (string * Json))
  : option (Json * list ascii) :=
  match fuel with
  | O => None
  | S fuel' =>
      match skip_ws s with
      | q :: r =>
          if Ascii.eqb q quote then
            match parse_chars r with
            | Some (key, r1) =>
                match skip_ws r1 with
                | ":"%char :: r2 =>
                    match parse_value fuel' r2 with
                    | Some (v, r3) =>
                        match skip_ws r3 with
                        | ","%char :: r4 => parse_members fuel' r4 (set_own acc key v)
                        | "}"%char :: r4 => Some (VObject (set_own acc key v), r4)
                        | _ => None
                        end
                    | None => None
                    end
                | _ => None
                end
            | None => None
            end
          else None
      | [] => None
      end
  end.

Definition parse (text : string) : string + Json :=
  let s := list_ascii_of_string text in
  match parse_value (2 + List.length s) s with
  | Some (v, r) =>
      match skip_ws r with
      | [] => inr v
      | _ :: _ => inl "Unexpected non-whitespace character after JSON"
      end
  | None => inl "Unexpected token in JSON"
  end.

Definition compare_code_units (a b : string) : Z :=
  match String.compare a b with
  | Lt => (-1)%Z
  | Eq => 0%Z
  | Gt => 1%Z
  end.

Definition platform : Platform :=
  {| Number := Decimal;
     Number_of_nat := Decimal_of_nat;
     Number_eqb := Decimal_eqb;
     Number_truthy := Decimal_truthy;
     Number_toString := Decimal_toString;
     JSON_parse := parse;
     localeCompare := compare_code_units |}.

(** The double quote, as a string, to write JSON texts with. *)
Definition dq : string := String quote EmptyString.

End Reference.

(** ** A platform with a collation

    [localeCompare] orders strings by the collation of a locale, not by
    their code units, and a collation ignores some code units altogether:
    U+0001 is one, in the Unicode collation algorithm that the engines
    implement.  This platform is the reference platform with a
    [localeCompare] that drops U+0001 and orders what remains by code
    units: two strings that differ in that code unit only compare as
    equal. *)
Module Collating.

Definition ignorable : ascii := ascii_of_nat 1.

Fixpoint collation_key (s : string) : string :=
  match s with
  | EmptyString => EmptyString
  | String c s' =>
      if Ascii.eqb c ignorable then collation_key s' else String c (collation_key s')
  end.

Definition compare (a b : string) : Z :=
  Reference.compare_code_units (collation_key a) (collation_key b).

Definition platform : Platform :=
  {| Number := Reference.Decimal;
     Number_of_nat := Reference.Decimal_of_nat;
     Number_eqb := Reference.Decimal_eqb;
     Number_truthy := Reference.Decimal_truthy;
     Number_toString := Reference.Decimal_toString;
     JSON_parse := Reference.parse;
     localeCompare := compare |}.

End Collating.


(** ** Concrete inputs, on the reference platform *)
Module Examples.

Import Reference.

Local Existing Instance platform.

Definition one : Decimal := Decimal_of_nat 1.

(** [q s] is [s] between double quotes, [escaped s] is [s] between
    escaped double quotes. *)
Definition q (s : string) : string := dq ++ s ++ dq.
Definition bs : string := String backslash EmptyString.
Definition escaped (s : string) : string := bs ++ dq ++ s ++ bs ++ dq.

Definition env : ProcessEnv :=
  {| OPENAI_API_KEY := None; OPENAI_API_ORG_ID := None;
     OPENAI_API_HOST := None; HELICONE_API_KEY := None |}.

Definition access_with_host (host : string) : AccessSchema :=
  {| oaiKey := "sk-test"; oaiOrg := ""; oaiHost := host; heliKey := "";
     moderationCheck := false |}.

Definition gpt4 : ModelSchema Decimal :=
  {| id := "gpt-4"; temperature := None; maxTokens := None |}.

Definition hello : HistorySchema := [{| role := user; content := "Hello" |}].

Definition f : FunctionSchema :=
  {| name := "f"; description := None; parameters := None |}.

Definition input (functions : option FunctionsSchema) : ChatGenerateSchema Decimal :=
  {| access := access_with_host ""; model := gpt4; history := hello;
     functions := functions |}.

(** A network that answers every request with the same response. *)
Definition answering (ok : bool) (statusText body : string)
  : HttpRequest (Request Decimal) -> Result HttpResponse :=
  fun _ => inr {| ok := ok; statusText := statusText; body_text := body |}.

(** What [openAIAccess] returns for [access_with_host ""] and the path of
    the chat completions. *)
Definition default_access : Access :=
  {| headers := [("Authorization", "Bearer sk-test");
                 ("Content-Type", "application/json")];
     url := "https://api.openai.com/v1/chat/completions" |}.

(** The text [{"a":1}]. *)
Definition arguments_a1 : string := "{" ++ q "a" ++ ":1}".

(** A function-call message with the given name and arguments. *)
Definition function_call_message (content : Json) (fname fargs : string) : Json :=
  VObject [("role", VString "assistant"); ("content", content);
           ("function_call",
             VObject [("name", VString fname); ("arguments", VString fargs)])].

(** [{"choices":[{"message":{"role":"assistant","content":null,
    "function_call":{"name":"f","arguments":"{\"a\":1}"}},
    "finish_reason":"function_call"}]}] *)
Definition body_function_call : string :=
  "{" ++ q "choices" ++ ":[{" ++ q "message" ++ ":{"
    ++ q "role" ++ ":" ++ q "assistant" ++ ","
    ++ q "content" ++ ":null,"
    ++ q "function_call" ++ ":{" ++ q "name" ++ ":" ++ q "f" ++ ","
    ++ q "arguments" ++ ":" ++ dq ++ "{" ++ escaped "a" ++ ":1}" ++ dq ++ "}},"
    ++ q "finish_reason" ++ ":" ++ q "function_call" ++ "}]}".

(** [{"message":{"role":"assistant","content":"Hello!"},"finish_reason":"stop"}] *)
Definition choice_stop : string :=
  "{" ++ q "message" ++ ":{" ++ q "role" ++ ":" ++ q "assistant" ++ ","
    ++ q "content" ++ ":" ++ q "Hello!" ++ "},"
    ++ q "finish_reason" ++ ":" ++ q "stop" ++ "}".

Definition body_one_choice : string :=
  "{" ++ q "choices" ++ ":[" ++ choice_stop ++ "]}".

Definition body_two_choices : string :=
  "{" ++ q "choices" ++ ":[" ++ choice_stop ++ "," ++ choice_stop ++ "]}".

(** [{"error":{"message":"Incorrect API key provided","type":"invalid_request_error"}}] *)
Definition body_error : string :=
  "{" ++ q "error" ++ ":{" ++ q "message" ++ ":" ++ q "Incorrect API key provided" ++ ","
    ++ q "type" ++ ":" ++ q "invalid_request_error" ++ "}}".

(** [{"error":{"toString":1}}]: an error that has no string conversion. *)
Definition body_unprintable : string :=
  "{" ++ q "error" ++ ":{" ++ q "toString" ++ ":1}}".

(** What [JSON.parse] makes of a body. *)
Definition parsed (body : string) : Json :=
  match parse body with
  | inr v => v
  | inl _ => VUndefined
  end.

Definition response_function_call : Json :=
  Eval vm_compute in parsed body_function_call.

Definition stop_choice : Json := Eval vm_compute in parsed choice_stop.

Definition response_two_choices : Json :=
  Eval vm_compute in parsed body_two_choices.

(** The request [chatGenerateWithFunctions] sends for [input functions]. *)
Definition sent (functions : option FunctionsSchema) : HttpRequest (Request Decimal) :=
  {| sent_url := "https://api.openai.com/v1/chat/completions";
     sent_headers := [("Authorization", "Bearer sk-test");
                      ("Content-Type", "application/json")];
     sent_method := "POST";
     sent_body :=
       {| wire_model := "gpt-4"; wire_messages := hello;
          wire_functions := functions;
          wire_function_call := match functions with
                                | Some _ => Some "auto"
                                | None => None
                                end;
          wire_temperature := None; wire_max_tokens := None;
          wire_n := one; wire_stream := false |} |}.

(** The catalog of the specification's example. *)
Definition catalog_ids : list string :=
  ["gpt-4-0314"; "gpt-4"; "text-davinci-003"; "gpt-3.5-turbo"].

Definition wireModels : Models.Response unit :=
  {| Models.data :=
       Some (map (fun i => {| Models.id := i; Models.rest := tt |}) catalog_ids) |}.

End Examples.

(** ** Vocabulary of the statements *)
Section Vocabulary.

Context `{Platform}.

(** The provider answers the completion request of [input] with a body
    that decodes to [w]: the [openaiPOST] of [chatGenerateWithFunctions]
    returns [w], the trace going from [t] to [t']. *)
Definition provider_answers (env : ProcessEnv)
    (network : HttpRequest (Request Number) -> Result HttpResponse)
    (input : ChatGenerateSchema Number) (t : Trace (Request Number)) (w : JSValue)
    (t' : Trace (Request Number)) : Prop :=
  openaiPOST env network (access input)
    (openAIChatCompletionPayload (model input) (history input)
       (if isFunctionsCall (functions input) then functions input else None)
       (Number_of_nat 1) false)
    "/v1/chat/completions" t = (inr w, t').

(** The response [w] carries exactly one completion choice, with this
    [message] and this [finish_reason]. *)
Definition single_choice (w message finish_reason : JSValue) : Prop :=
  exists choice,
    Get w "choices" = inr (VArray [choice])
    /\ Get choice "message" = inr message
    /\ Get choice "finish_reason" = inr finish_reason.

(** The messages of the four failures of [parseChatGenerateFCOutput]. *)
Definition msg_not_requested : string :=
  "[OpenAI Issue] Received a function call without a function call request".
Definition msg_got_message : string :=
  "[OpenAI Issue] Expected a function call, got a message".
Definition msg_missing : string :=
  "[OpenAI Issue] Issue with the function call, missing name or arguments".
Definition msg_not_json : string :=
  "[OpenAI Issue] Issue with the function call, arguments are not valid JSON".

(** The message of the failure of [parseChatGenerateOutput]. *)
Definition msg_null_message : string :=
  "[OpenAI Issue] Expected a message, got a null message".

(** The message of the failure of the choice count (line 92), [got] being
    the text of the length found. *)
Definition msg_choice_count (got : string) : string :=
  "[OpenAI Issue] Expected 1 completion, got " ++ got.

(** The functions that reach the provider: the caller's, unless they are
    absent or empty. *)
Definition offered (functions : option FunctionsSchema) : option FunctionsSchema :=
  match functions with
  | Some (f :: fs) => Some (f :: fs)
  | Some [] | None => None
  end.

(** The host [openAIAccess] starts from: the caller's, else the
    environment's, else the default. *)
Definition resolved_host (env : ProcessEnv) (access : AccessSchema) : string :=
  Str.or_default (Str.or_env (oaiHost access) (OPENAI_API_HOST env)) "https://api.openai.com".

(** The key [openAIAccess] starts from. *)
Definition resolved_key (env : ProcessEnv) (access : AccessSchema) : string :=
  Str.or_default (Str.or_env (oaiKey access) (OPENAI_API_KEY env)) "".

(** A host after the prefixing of line 207-208. *)
Definition with_scheme (host : string) : string :=
  if negb (Str.startsWith host "http") then "https://" ++ host else host.

(** A string has a URL scheme when ["://"] occurs in it. *)
Definition has_scheme (host : string) : bool := Str.includes host "://".

End Vocabulary.

(** The order the specification gives the model list, on ids: the first
    five characters, greater first; then the number of segments between
    dashes, fewer first; then the whole id, smaller first.  Strings are
    ordered by [localeCompare]. *)
Section ModelOrder.

Context `{Platform}.

Definition segments (model_id : string) : nat := List.length (Str.split "-" model_id).

Definition key_precedes (a b : string) : Prop :=
  (localeCompare (Str.slice_to b 5) (Str.slice_to a 5) < 0)%Z
  \/ (Str.slice_to a 5 = Str.slice_to b 5
      /\ ((segments a < segments b)%nat
          \/ (segments a = segments b /\ (localeCompare a b <= 0)%Z))).

(** The entries of a catalog; none when [data] is missing. *)
Definition catalog {Rest : Type} (wireModels : Models.Response Rest)
  : list (Models.ModelDescription Rest) :=
  match Models.data wireModels with
  | Some models => models
  | None => []
  end.

End ModelOrder.

(** ** Vocabulary of the statements on access, requests and procedures *)
Section MoreVocabulary.

Context `{Platform}.

(** The message of the error of [openAIAccess]. *)
Definition msg_missing_key : string :=
  "Missing OpenAI API Key. Add it on the UI (Models Setup) or server side (your deployment).".

(** The caller's value when it is not empty, else the variable of the
    environment when it is set and not empty, else the default. *)
Definition preferred (own : string) (env : option string) (default : string) : string :=
  if Str.truthy own then own
  else match env with
       | Some s => if Str.truthy s then s else default
       | None => default
       end.

(** The value of the header [name], if it is among [hs]. *)
Fixpoint header (name : string) (hs : list (string * string)) : option string :=
  match hs with
  | [] => None
  | (n, v) :: rest => if String.eqb n name then Some v else header name rest
  end.

(** The request a POST of [body] to [a] sends. *)
Definition post_request {TBody : Type} (a : Access) (body : TBody) : HttpRequest TBody :=
  {| sent_url := url a; sent_headers := headers a;
     sent_method := "POST"; sent_body := body |}.

(** The request a GET to [a] sends. *)
Definition get_request (a : Access) : HttpRequest unit :=
  {| sent_url := url a; sent_headers := headers a;
     sent_method := "GET"; sent_body := tt |}.

(** The body of the completion request of [input]. *)
Definition chat_body (input : ChatGenerateSchema Number) : Request Number :=
  openAIChatCompletionPayload (model input) (history input)
    (offered (functions input)) (Number_of_nat 1) false.

(** [v] is [null] or [undefined]. *)
Definition nullish (v : JSValue) : Prop := v = VUndefined \/ v = VNull.

(** The body of the moderation request of [input]. *)
Definition moderation_body (input : Moderation.Schema) : Moderation.Request :=
  {| Moderation.input := Moderation.text input;
     Moderation.model := "text-moderation-latest" |}.

(** The message of the CLIENT_CLOSED_REQUEST error of [moderation]. *)
Definition msg_connection_reset : string := "Connection reset by the client.".

(** The url [openAIAccess] makes of a host and a path. *)
Definition endpoint (host apiPath : string) : string :=
  (if Str.endsWith (with_scheme host) "/" && Str.startsWith apiPath "/"
   then Str.slice_but_last (with_scheme host)
   else with_scheme host) ++ apiPath.

(** The entries [listModels] keeps, and the entries with a given id. *)
Definition is_gpt {Rest : Type} (model : Models.ModelDescription Rest) : bool :=
  Str.includes (Models.id model) "gpt".

Definition with_id {Rest : Type} (i : string) (model : Models.ModelDescription Rest) : bool :=
  String.eqb (Models.id model) i.

(** The message of the failure of the output validation. *)
Definition msg_output_validation : string := "Output validation failed".

(** The messages the output schema accepts: the role is one of the three
    roles, the content is a string, the finish_reason is "stop", "length"
    or null. *)
Definition accepted_message (role content finish_reason : JSValue) : Prop :=
  In role [VString "assistant"; VString "system"; VString "user"]
  /\ (exists text, content = VString text)
  /\ In finish_reason [VString "stop"; VString "length"; VNull].

(** The ids of a list of entries, and their first five characters. *)
Definition ids {Rest : Type} (models : list (Models.ModelDescription Rest)) : list string :=
  map (@Models.id Rest) models.

Definition families {Rest : Type} (models : list (Models.ModelDescription Rest))
  : list string :=
  map (fun model => Str.slice_to (Models.id model) 5) models.

(** [localeCompare] tells the strings of a list apart: it is 0 on none
    but equal ones. *)
Definition told_apart (strings : list string) : Prop :=
  forall a b, In a strings -> In b strings -> localeCompare a b = 0%Z -> a = b.

End MoreVocabulary.

(** ** More concrete inputs, on the reference platform *)
Module MoreExamples.

Import Reference.

Local Existing Instance platform.

(** An access with an organization and a Helicone key. *)
Definition access_with_org : AccessSchema :=
  {| oaiKey := "sk-test"; oaiOrg := "org-1"; oaiHost := ""; heliKey := "hk";
     moderationCheck := false |}.

Definition org_access : Access :=
  {| headers := [("Authorization", "Bearer sk-test");
                 ("Content-Type", "application/json");
                 ("OpenAI-Organization", "org-1");
                 ("Helicone-Auth", "Bearer hk")];
     url := "https://api.openai.com/v1/models" |}.

Definition access_without_key : AccessSchema :=
  {| oaiKey := ""; oaiOrg := ""; oaiHost := ""; heliKey := "";
     moderationCheck := false |}.

(** What [openAIAccess] returns for [Examples.access_with_host ""] and a
    path. *)
Definition access_to (apiPath : string) : Access :=
  {| headers := [("Authorization", "Bearer sk-test");
                 ("Content-Type", "application/json")];
     url := "https://api.openai.com" ++ apiPath |}.

(** Networks that answer every request with the same response, and a
    network that is down. *)
Definition answering_to (TBody : Type) (ok : bool) (statusText body : string)
  : HttpRequest TBody -> Result HttpResponse :=
  fun _ => inr {| ok := ok; statusText := statusText; body_text := body |}.

Definition rejecting (TBody : Type) (reason : string)
  : HttpRequest TBody -> Result HttpResponse :=
  fun _ => inl (FetchRejected reason).

(** An engine whose [fetch] rejects with an error that has the reason as
    its [code], and whose TypeErrors have none. *)
Definition engine (error : Thrown) : Moderation.Caught :=
  match error with
  | FetchRejected reason =>
      {| Moderation.code := Some reason; Moderation.message := "fetch failed";
         Moderation.toString := "FetchError: fetch failed" |}
  | _ =>
      {| Moderation.code := None; Moderation.message := "not a function";
         Moderation.toString := "TypeError: not a function" |}
  end.

Definition moderation_input : Moderation.Schema :=
  {| Moderation.access := Examples.access_with_host "";
     Moderation.text := "some text" |}.

Definition moderation_sent : HttpRequest Moderation.Request :=
  {| sent_url := "https://api.openai.com/v1/moderations";
     sent_headers := [("Authorization", "Bearer sk-test");
                      ("Content-Type", "application/json")];
     sent_method := "POST";
     sent_body := {| Moderation.input := "some text";
                     Moderation.model := "text-moderation-latest" |} |}.

(** A model with a temperature of 0. *)
Definition cold : ModelSchema Decimal :=
  {| id := "gpt-4"; temperature := Some (Decimal_of_nat 0); maxTokens := None |}.

Definition cold_input : ChatGenerateSchema Decimal :=
  {| access := Examples.access_with_host ""; model := cold;
     history := Examples.hello; functions := None |}.

Definition response_one_choice : Json := Eval vm_compute in Examples.parsed Examples.body_one_choice.

Definition response_error : Json := Eval vm_compute in Examples.parsed Examples.body_error.

(** [{"choices":[{"message":{"role":"assistant","content":"Hello!"},
    "finish_reason":"content_filter"}]}] *)
Definition body_content_filter : string :=
  "{" ++ Examples.q "choices" ++ ":[{" ++ Examples.q "message" ++ ":{"
    ++ Examples.q "role" ++ ":" ++ Examples.q "assistant" ++ ","
    ++ Examples.q "content" ++ ":" ++ Examples.q "Hello!" ++ "},"
    ++ Examples.q "finish_reason" ++ ":" ++ Examples.q "content_filter" ++ "}]}".

Definition response_content_filter : Json :=
  Eval vm_compute in Examples.parsed body_content_filter.

(** [{"toString":1}]: a body whose [toString] is no function. *)
Definition body_own_toString : string := "{" ++ Examples.q "toString" ++ ":1}".

(** [{"error":[{"toString":1}]}]: an error that holds such an object. *)
Definition body_error_list : string :=
  "{" ++ Examples.q "error" ++ ":[{" ++ Examples.q "toString" ++ ":1}]}".

(** [{"choices":[{"finish_reason":"stop"}]}]: a choice without message. *)
Definition body_no_message : string :=
  "{" ++ Examples.q "choices" ++ ":[{" ++ Examples.q "finish_reason" ++ ":"
    ++ Examples.q "stop" ++ "}]}".

Definition response_no_message : Json := Eval vm_compute in Examples.parsed body_no_message.

(** Two ids that differ in the code unit U+0001 only, and the two
    arrangements of a catalog that has both. *)
Definition gpt4_marked : string := "gpt-4" ++ String Collating.ignorable EmptyString.

Definition marked_last : Models.Response unit :=
  {| Models.data :=
       Some [ {| Models.id := "gpt-4"; Models.rest := tt |};
              {| Models.id := gpt4_marked; Models.rest := tt |} ] |}.

Definition marked_first : Models.Response unit :=
  {| Models.data :=
       Some [ {| Models.id := gpt4_marked; Models.rest := tt |};
              {| Models.id := "gpt-4"; Models.rest := tt |} ] |}.

(** A catalog in which an id comes twice. *)
Definition twins : Models.Response nat :=
  {| Models.data :=
       Some [ {| Models.id := "gpt-4"; Models.rest := 1 |};
              {| Models.id := "gpt-3.5-turbo"; Models.rest := 2 |};
              {| Models.id := "whisper-1"; Models.rest := 3 |};
              {| Models.id := "gpt-4"; Models.rest := 4 |} ] |}.

End MoreExamples.

(** * Properties *)

(** ** The response disambiguator *)
Section Disambiguation.

Context `{Platform}.

(** A property other than [length] that reads as a truthy value belongs
    to an object. *)
Lemma truthy_property_receiver (o v : JSValue) (key : string) :
  String.eqb key "length" = false ->
  Get o key = inr v -> truthy v = true -> exists props, o = VObject props.
Proof.
  intros Hkey Hget Hv.
  destruct o as [| | b | n | s | elems | props]; simpl in Hget;
    try rewrite Hkey in Hget; try discriminate;
    try (injection Hget as <-; discriminate).
  now exists props.
Qed.

Lemma OptGet_inr (v : JSValue) (key : string) (x : JSValue) :
  Get v key = inr x -> OptGet v key = x.
Proof. unfold OptGet. now intros ->. Qed.

(** With one choice in the response, the handler is the dispatch of lines
    96-98 on that choice. *)
Lemma chatGenerateWithFunctions_dispatch env network input t w t' message finish_reason :
  Number_eqb (Number_of_nat 1) (Number_of_nat 1) = true ->
  provider_answers env network input t w t' ->
  single_choice w message finish_reason ->
  chatGenerateWithFunctions env network input t =
    (if IsStrictlyEqual finish_reason (VString "function_call")
     then parseChatGenerateFCOutput (isFunctionsCall (functions input)) message
     else parseChatGenerateOutput message finish_reason, t').
Proof.
  intros Hone Hpost (choice & Hchoices & Hmessage & Hreason).
  unfold chatGenerateWithFunctions, provider_answers in *.
  unfold bind at 1. rewrite Hpost.
  rewrite (OptGet_inr _ _ Hchoices).
  change (OptGet (VArray [choice]) "length") with (VNumber (Number_of_nat 1)).
  cbn [IsStrictlyEqual]. rewrite Hone. cbn [negb].
  unfold bind, lift. rewrite Hchoices. cbn [GetIndex nth].
  rewrite Hmessage, Hreason.
  destruct (IsStrictlyEqual finish_reason (VString "function_call")); reflexivity.
Qed.

Lemma IsStrictlyEqual_string (v : JSValue) (s : string) :
  IsStrictlyEqual v (VString s) = true <-> v = VString s.
Proof.
  destruct v; simpl; split; try discriminate; intros E.
  - apply String.eqb_eq in E. now subst.
  - injection E as ->. apply String.eqb_refl.
Qed.

Lemma IsStrictlyEqual_null (v : JSValue) :
  IsStrictlyEqual v VNull = true <-> v = VNull.
Proof. destruct v; simpl; split; congruence. Qed.

Lemma not_null (v : JSValue) : v <> VNull -> IsStrictlyEqual v VNull = false.
Proof.
  intros Hv. destruct (IsStrictlyEqual v VNull) eqn:E; [|reflexivity].
  now apply IsStrictlyEqual_null in E.
Qed.

(** Past the three guards, [parseChatGenerateFCOutput] is the decoding of
    the arguments. *)
Lemma parseChatGenerateFCOutput_decodes (message fc fc_name fc_arguments : JSValue) :
  Get message "content" = inr VNull ->
  Get message "function_call" = inr fc ->
  Get fc "name" = inr fc_name -> truthy fc_name = true ->
  Get fc "arguments" = inr fc_arguments -> truthy fc_arguments = true ->
  parseChatGenerateFCOutput true message =
    match ToString fc_arguments with
    | inl _ => inl (TRPCError INTERNAL_SERVER_ERROR msg_not_json)
    | inr text =>
        match JSON_parse text with
        | inl _ => inl (TRPCError INTERNAL_SERVER_ERROR msg_not_json)
        | inr fcArgs => inr (FunctionCall fc_name fcArgs)
        end
    end.
Proof.
  intros Hcontent Hfc Hname Tname Hargs Targs.
  destruct (truthy_property_receiver fc "name" eq_refl Hname Tname) as [props ->].
  unfold parseChatGenerateFCOutput, bindR. cbn [negb].
  rewrite Hcontent. cbn [IsStrictlyEqual negb].
  rewrite Hfc. cbn [truthy negb].
  rewrite Hname, Tname. cbn [negb]. rewrite Hargs, Targs. cbn [negb].
  reflexivity.
Qed.

(** The guard of lines 254-260. *)
Lemma parseChatGenerateFCOutput_missing (message fc : JSValue) :
  Get message "content" = inr VNull ->
  Get message "function_call" = inr fc ->
  truthy fc = false
  \/ (exists v, Get fc "name" = inr v /\ truthy v = false)
  \/ (exists v, Get fc "arguments" = inr v /\ truthy v = false) ->
  parseChatGenerateFCOutput true message = inl (TRPCError INTERNAL_SERVER_ERROR msg_missing).
Proof.
  intros Hcontent Hfc Hmissing.
  unfold parseChatGenerateFCOutput, bindR. cbn [negb].
  rewrite Hcontent. cbn [IsStrictlyEqual negb]. rewrite Hfc.
  destruct (truthy fc) eqn:Tfc; cbn [negb]; [|reflexivity].
  destruct Hmissing as [Hf | [(v & Hv & Tv) | (v & Hv & Tv)]].
  - discriminate.
  - rewrite Hv, Tv. reflexivity.
  - destruct (Get fc "name") as [e | nm] eqn:Hname.
    + destruct fc; simpl in Hname, Tfc; try discriminate;
        destruct (own props "name"); discriminate.
    + destruct (truthy nm); cbn [negb]; [|reflexivity].
      rewrite Hv, Tv. reflexivity.
Qed.

Lemma truthy_string (s : string) : s <> "" -> truthy (VString s) = true.
Proof.
  intros Hs. simpl. unfold Str.truthy.
  destruct (String.eqb s "") eqn:E; [|reflexivity].
  now apply String.eqb_eq in E.
Qed.

(** C1.  A completion choice with finish_reason "function_call", content
    null and a function_call payload with a non-empty name and an
    arguments string that decodes as JSON to an object, functions having
    been offered: [parseChatGenerateFCOutput] returns the FunctionCall
    variant with that name and the decoded object, and so does
    [chatGenerateWithFunctions] when the provider answers with exactly that
    choice.  ([JSON.parse] throws on the empty string, and [1 === 1].) *)
Theorem function_call_decoded (message fc : JSValue) (fname args : string)
    (props : list (string * JSValue)) :
  (forall v, JSON_parse "" <> inr v) ->
  Get message "content" = inr VNull ->
  Get message "function_call" = inr fc ->
  Get fc "name" = inr (VString fname) -> fname <> "" ->
  Get fc "arguments" = inr (VString args) ->
  JSON_parse args = inr (VObject props) ->
  parseChatGenerateFCOutput true message
    = inr (FunctionCall (VString fname) (VObject props))
  /\ forall env network input t w t' f fs,
       Number_eqb (Number_of_nat 1) (Number_of_nat 1) = true ->
       functions input = Some (f :: fs) ->
       provider_answers env network input t w t' ->
       single_choice w message (VString "function_call") ->
       chatGenerateWithFunctions env network input t
         = (inr (FunctionCall (VString fname) (VObject props)), t').
Proof.
  intros Hempty Hcontent Hfc Hname Hfname Hargs Hparse.
  assert (Hdecoded : parseChatGenerateFCOutput true message
                     = inr (FunctionCall (VString fname) (VObject props))).
  { rewrite (parseChatGenerateFCOutput_decodes message Hcontent Hfc Hname
               (truthy_string Hfname) Hargs).
    - cbn [ToString]. now rewrite Hparse.
    - apply truthy_string. intros ->. exact (Hempty _ Hparse). }
  split; [exact Hdecoded|].
  intros env network input t w t' f fs Hone Hoffered Hpost Hchoice.
  rewrite (chatGenerateWithFunctions_dispatch Hone Hpost Hchoice).
  rewrite Hoffered. cbn [isFunctionsCall List.length Nat.ltb Nat.leb].
  cbn [IsStrictlyEqual]. rewrite String.eqb_refl. now rewrite Hdecoded.
Qed.

(** C6.  A function call that nobody asked for is refused, whatever the
    message: [parseChatGenerateFCOutput false] throws the
    INTERNAL_SERVER_ERROR "Received a function call without a function
    call request", and [chatGenerateWithFunctions] throws it when the
    single choice of the response has finish_reason "function_call" and
    the caller's functions are absent or empty. *)
Theorem function_call_not_requested :
  (forall message,
      parseChatGenerateFCOutput false message
        = inl (TRPCError INTERNAL_SERVER_ERROR msg_not_requested))
  /\ forall env network input t w t' message,
       Number_eqb (Number_of_nat 1) (Number_of_nat 1) = true ->
       functions input = None \/ functions input = Some [] ->
       provider_answers env network input t w t' ->
       single_choice w message (VString "function_call") ->
       chatGenerateWithFunctions env network input t
         = (inl (TRPCError INTERNAL_SERVER_ERROR msg_not_requested), t').
Proof.
  split; [reflexivity|].
  intros env network input t w t' message Hone Hnone Hpost Hchoice.
  rewrite (chatGenerateWithFunctions_dispatch Hone Hpost Hchoice).
  cbn [IsStrictlyEqual]. rewrite String.eqb_refl.
  destruct Hnone as [-> | ->]; reflexivity.
Qed.

(** C10.  In a function-call message that reaches the check of lines
    254-260 (functions were offered, content is null), a payload that is
    falsy, or whose name or whose arguments are falsy - the empty string
    as well as a missing property - makes [parseChatGenerateFCOutput]
    throw "missing name or arguments"; and with an empty name or empty
    arguments the result is never the "not valid JSON" failure, whatever
    the other fields and whether or not functions were offered. *)
Theorem empty_name_or_arguments_is_missing (message fc : JSValue) :
  Get message "function_call" = inr fc ->
  Get fc "name" = inr (VString "") \/ Get fc "name" = inr VUndefined
  \/ Get fc "arguments" = inr (VString "") \/ Get fc "arguments" = inr VUndefined ->
  (Get message "content" = inr VNull ->
   parseChatGenerateFCOutput true message
     = inl (TRPCError INTERNAL_SERVER_ERROR msg_missing))
  /\ forall isFunctionsCall,
       exists e, parseChatGenerateFCOutput isFunctionsCall message = inl e
                 /\ e <> TRPCError INTERNAL_SERVER_ERROR msg_not_json.
Proof.
  intros Hfc Hempty.
  assert (Hmissing : Get message "content" = inr VNull ->
                     parseChatGenerateFCOutput true message
                       = inl (TRPCError INTERNAL_SERVER_ERROR msg_missing)).
  { intros Hcontent. apply (parseChatGenerateFCOutput_missing message Hcontent Hfc).
    right. destruct Hempty as [E | [E | [E | E]]]; [left | left | right | right];
      eexists; (split; [exact E | reflexivity]). }
  split; [exact Hmissing|].
  intros [|].
  - destruct (Get message "content") as [e | content] eqn:Hcontent.
    + exists e. split.
      * unfold parseChatGenerateFCOutput, bindR. cbn [negb]. now rewrite Hcontent.
      * destruct message; simpl in Hcontent; try discriminate;
          try (injection Hcontent as <-; discriminate);
          destruct (own props "content"); discriminate.
    + destruct (IsStrictlyEqual content VNull) eqn:Hnull.
      * apply IsStrictlyEqual_null in Hnull. subst content.
        eexists. split; [exact (Hmissing eq_refl) | discriminate].
      * eexists. split.
        -- unfold parseChatGenerateFCOutput, bindR. cbn [negb].
           rewrite Hcontent, Hnull. reflexivity.
        -- discriminate.
  - eexists. split; [reflexivity | discriminate].
Qed.

(** What [parseChatGenerateFCOutput] throws: a TypeError of the engine
    (the message is [null] or [undefined]) or an INTERNAL_SERVER_ERROR
    with one of the four messages. *)
Lemma parseChatGenerateFCOutput_throws (isRequested : bool) (message : JSValue) (e : Thrown) :
  parseChatGenerateFCOutput isRequested message = inl e ->
  e = TypeError
  \/ exists text, e = TRPCError INTERNAL_SERVER_ERROR text
                  /\ In text [msg_not_requested; msg_got_message; msg_missing; msg_not_json].
Proof.
  unfold parseChatGenerateFCOutput, bindR.
  destruct isRequested; cbn [negb].
  2:{ intros [= <-]. right. eexists. split; [reflexivity | simpl; auto]. }
  destruct (Get message "content") as [e0 | content] eqn:Hcontent.
  { intros [= <-]. left.
    destruct message; simpl in Hcontent; try discriminate; try congruence.
    destruct (own props "content"); discriminate. }
  destruct (IsStrictlyEqual content VNull); cbn [negb].
  2:{ intros [= <-]. right. eexists. split; [reflexivity | simpl; auto]. }
  destruct (Get message "function_call") as [e0 | fc] eqn:Hfc.
  { intros [= <-]. left.
    destruct message; simpl in Hfc; try discriminate; try congruence.
    destruct (own props "function_call"); discriminate. }
  assert (Hget : forall key, truthy fc = true -> exists v, Get fc key = inr v).
  { intros key Tfc. destruct fc; simpl in Tfc |- *; try discriminate;
      try destruct (String.eqb key "length"); try destruct (own props key); eauto. }
  destruct (truthy fc) eqn:Tfc; cbn [negb].
  2:{ intros [= <-]. right. eexists. split; [reflexivity | simpl; auto]. }
  destruct (Hget "name" eq_refl) as [nm ->].
  destruct (truthy nm); cbn [negb].
  2:{ intros [= <-]. right. eexists. split; [reflexivity | simpl; auto]. }
  destruct (Hget "arguments" eq_refl) as [a ->].
  destruct (truthy a); cbn [negb].
  2:{ intros [= <-]. right. eexists. split; [reflexivity | simpl; auto]. }
  destruct (ToString a) as [e0 | text].
  { intros [= <-]. right. eexists. split; [reflexivity | simpl; auto]. }
  destruct (JSON_parse text).
  { intros [= <-]. right. eexists. split; [reflexivity | simpl; auto]. }
  discriminate.
Qed.

(** C3 (amended).  A function-call message that passes the three guards
    (functions offered, content null, truthy name, non-empty arguments
    string) and whose arguments are not valid JSON makes
    [parseChatGenerateFCOutput] throw INTERNAL_SERVER_ERROR with the
    message "arguments are not valid JSON".  The message sets it apart from
    the other failures; the code does not: every TRPCError of the
    disambiguation has the code INTERNAL_SERVER_ERROR, none BAD_REQUEST. *)
Theorem invalid_arguments_error (message fc fc_name : JSValue) (args reason : string) :
  Get message "content" = inr VNull ->
  Get message "function_call" = inr fc ->
  Get fc "name" = inr fc_name -> truthy fc_name = true ->
  Get fc "arguments" = inr (VString args) -> args <> "" ->
  JSON_parse args = inl reason ->
  parseChatGenerateFCOutput true message
    = inl (TRPCError INTERNAL_SERVER_ERROR msg_not_json)
  /\ ~ In msg_not_json [msg_not_requested; msg_got_message; msg_missing]
  /\ forall isRequested m e,
       parseChatGenerateFCOutput isRequested m = inl e ->
       e = TypeError \/ code_of e = Some INTERNAL_SERVER_ERROR.
Proof.
  intros Hcontent Hfc Hname Tname Hargs Hne Hparse.
  split; [|split].
  - rewrite (parseChatGenerateFCOutput_decodes message Hcontent Hfc Hname Tname Hargs
               (truthy_string Hne)).
    cbn [ToString]. now rewrite Hparse.
  - simpl. intros [E | [E | [E | []]]]; discriminate.
  - intros b m e He.
    destruct (parseChatGenerateFCOutput_throws _ _ He) as [-> | (text & -> & _)]; auto.
Qed.

(** C7.  A message with non-null content is refused as a function call:
    [parseChatGenerateFCOutput] throws an INTERNAL_SERVER_ERROR whose
    message starts with "[OpenAI Issue]" (which of the first two guards
    fires depends on whether functions were offered).  And a call of
    [chatGenerateWithFunctions] that succeeds returns one variant, fixed by
    the choice it read: FunctionCall when the finish_reason is
    "function_call", the content then being null, and Message otherwise,
    with content that is not null. *)
Theorem function_call_with_content_refused :
  (forall isRequested message content,
      Get message "content" = inr content -> content <> VNull ->
      parseChatGenerateFCOutput isRequested message
        = inl (TRPCError INTERNAL_SERVER_ERROR
                 (if isRequested then msg_got_message else msg_not_requested)))
  /\ forall env network input t outcome t',
       chatGenerateWithFunctions env network input t = (inr outcome, t') ->
       exists w choices choice message finish_reason content,
         provider_answers env network input t w t'
         /\ Get w "choices" = inr choices
         /\ GetIndex choices 0 = inr choice
         /\ Get choice "message" = inr message
         /\ Get choice "finish_reason" = inr finish_reason
         /\ Get message "content" = inr content
         /\ ((finish_reason = VString "function_call" /\ content = VNull
              /\ exists fname fargs, outcome = FunctionCall fname fargs)
             \/ (finish_reason <> VString "function_call" /\ content <> VNull
                 /\ exists r, outcome = Message r content finish_reason)).
Proof.
  split.
  - intros isRequested message content Hcontent Hnn.
    unfold parseChatGenerateFCOutput, bindR.
    destruct isRequested; cbn [negb]; [|reflexivity].
    rewrite Hcontent, (not_null Hnn). reflexivity.
  - intros env network input t outcome t' Hcall.
    unfold chatGenerateWithFunctions in Hcall. unfold bind at 1 in Hcall.
    match type of Hcall with
    | context [openaiPOST ?e ?n ?a ?b ?p t] =>
        destruct (openaiPOST e n a b p t) as [[e0 | w] t1] eqn:Hpost
    end; [discriminate|].
    assert (Hanswers : provider_answers env network input t w t1) by exact Hpost.
    clear Hpost.
    match type of Hcall with
    | (if ?c then _ else _) _ = _ => destruct c
    end.
    { unfold bind, lift, throw in Hcall.
      destruct (ToString _); discriminate. }
    unfold bind, lift in Hcall.
    destruct (Get w "choices") as [e0 | choices] eqn:Hchoices; [discriminate|].
    destruct (GetIndex choices 0) as [e0 | choice] eqn:Hchoice; [discriminate|].
    destruct (Get choice "message") as [e0 | message] eqn:Hmessage; [discriminate|].
    destruct (Get choice "finish_reason") as [e0 | finish_reason] eqn:Hreason;
      [discriminate|].
    destruct (IsStrictlyEqual finish_reason (VString "function_call")) eqn:Hfc.
    + apply IsStrictlyEqual_string in Hfc.
      injection Hcall as Hparse <-.
      unfold parseChatGenerateFCOutput, bindR in Hparse.
      destruct (isFunctionsCall (functions input)); cbn [negb] in Hparse;
        [|discriminate].
      destruct (Get message "content") as [e0 | content] eqn:Hcontent; [discriminate|].
      destruct (IsStrictlyEqual content VNull) eqn:Hnull; cbn [negb] in Hparse;
        [|discriminate].
      apply IsStrictlyEqual_null in Hnull.
      exists w, choices, choice, message, finish_reason, content.
      split; [exact Hanswers|]. repeat (split; [assumption|]). left. repeat (split; [assumption|]).
      repeat match type of Hparse with
             | context [match ?x with _ => _ end] => destruct x; try discriminate
             end.
      injection Hparse as <-. eauto.
    + injection Hcall as Hparse <-.
      unfold parseChatGenerateOutput, bindR in Hparse.
      destruct (Get message "content") as [e0 | content] eqn:Hcontent; [discriminate|].
      destruct (IsStrictlyEqual content VNull) eqn:Hnull; [discriminate|].
      destruct (Get message "role") as [e0 | r]; [discriminate|].
      injection Hparse as <-.
      exists w, choices, choice, message, finish_reason, content.
      split; [exact Hanswers|]. repeat (split; [assumption|]). right. split; [|split].
      * intros E. apply IsStrictlyEqual_string in E. congruence.
      * intros ->. discriminate.
      * eauto.
Qed.

Lemma parseChatGenerateOutput_throws (message finish_reason : JSValue) (e : Thrown) :
  parseChatGenerateOutput message finish_reason = inl e ->
  e = TypeError \/ e = TRPCError INTERNAL_SERVER_ERROR msg_null_message.
Proof.
  unfold parseChatGenerateOutput, bindR.
  destruct (Get message "content") as [e0 | content] eqn:Hcontent.
  { intros [= <-]. left.
    destruct message; simpl in Hcontent; try discriminate; try congruence.
    destruct (own props "content"); discriminate. }
  destruct (IsStrictlyEqual content VNull).
  { intros [= <-]. now right. }
  destruct (Get message "role") as [e0 | r] eqn:Hrole; [|discriminate].
  intros [= <-]. left.
  destruct message; simpl in Hrole; try discriminate; try congruence.
  destruct (own props "role"); discriminate.
Qed.

(** C2.  When the provider's response carries a choices array whose
    length is not 1, [chatGenerateWithFunctions] throws the
    INTERNAL_SERVER_ERROR "[OpenAI Issue] Expected 1 completion, got n",
    whatever the choices hold; neither [parseChatGenerateFCOutput] nor
    [parseChatGenerateOutput] can throw that error.  (A length [n] is
    [=== 1] exactly when [n] is 1.) *)
Theorem wrong_choice_count_refused env network input t w t' (choices : list JSValue) :
  (forall n, Number_eqb (Number_of_nat n) (Number_of_nat 1) = Nat.eqb n 1) ->
  provider_answers env network input t w t' ->
  Get w "choices" = inr (VArray choices) ->
  List.length choices <> 1%nat ->
  chatGenerateWithFunctions env network input t
    = (inl (TRPCError INTERNAL_SERVER_ERROR
              (msg_choice_count (Number_toString (Number_of_nat (List.length choices))))),
       t')
  /\ forall got isRequested message finish_reason,
       parseChatGenerateFCOutput isRequested message
         <> inl (TRPCError INTERNAL_SERVER_ERROR (msg_choice_count got))
       /\ parseChatGenerateOutput message finish_reason
            <> inl (TRPCError INTERNAL_SERVER_ERROR (msg_choice_count got)).
Proof.
  intros Hlen Hpost Hchoices Hn. split.
  - unfold chatGenerateWithFunctions, provider_answers in *.
    unfold bind at 1. rewrite Hpost.
    rewrite (OptGet_inr _ _ Hchoices).
    change (OptGet (VArray choices) "length")
      with (VNumber (Number_of_nat (List.length choices))).
    cbn [IsStrictlyEqual]. rewrite Hlen.
    apply Nat.eqb_neq in Hn. rewrite Hn. reflexivity.
  - intros got isRequested message finish_reason. split; intros E.
    + destruct (parseChatGenerateFCOutput_throws _ _ E) as [E' | (text & E' & Hin)];
        [discriminate|].
      injection E' as <-. simpl in Hin.
      destruct Hin as [E' | [E' | [E' | [E' | []]]]]; discriminate.
    + destruct (parseChatGenerateOutput_throws _ _ E) as [E' | E']; discriminate.
Qed.

(** The handler sends what its [openaiPOST] sends. *)
Lemma chatGenerateWithFunctions_trace env network input t :
  snd (chatGenerateWithFunctions env network input t)
  = snd (openaiPOST env network (access input)
           (openAIChatCompletionPayload (model input) (history input)
              (if isFunctionsCall (functions input) then functions input else None)
              (Number_of_nat 1) false)
           "/v1/chat/completions" t).
Proof.
  unfold chatGenerateWithFunctions. unfold bind at 1.
  destruct (openaiPOST _ _ _ _ _ t) as [[e | w] t1]; [reflexivity|].
  cbn [snd]. unfold bind, lift, throw.
  repeat match goal with
         | |- context [match ?x with _ => _ end] => destruct x; try reflexivity
         end.
Qed.

(** [openaiPOST] sends one request, if it has a key to send it with. *)
Lemma openaiPOST_trace {TBody : Type} env (network : HttpRequest TBody -> Result HttpResponse)
    access (body : TBody) apiPath t :
  snd (openaiPOST env network access body apiPath t)
  = (t ++ match openAIAccess env access apiPath with
          | inl _ => []
          | inr a => [{| sent_url := url a; sent_headers := headers a;
                         sent_method := "POST"; sent_body := body |}]
          end)%list.
Proof.
  unfold openaiPOST. unfold bind at 1. unfold lift at 1.
  destruct (openAIAccess env access apiPath) as [e | a].
  - cbn [snd]. now rewrite app_nil_r.
  - unfold bind at 1. unfold do_fetch.
    destruct (network _) as [e | response]; [reflexivity|].
    unfold bind, lift, throw, ret.
    repeat match goal with
           | |- context [match ?x with _ => _ end] => destruct x; try reflexivity
           end.
Qed.

Lemma offered_spec (fs : option FunctionsSchema) :
  (if isFunctionsCall fs then fs else None) = offered fs.
Proof. destruct fs as [[|f fs]|]; reflexivity. Qed.

(** C4 (amended).  [openAIChatCompletionPayload] includes [functions]
    together with [function_call: 'auto'] exactly when the array it is
    given is not null: an empty array is sent as it is.  The request of
    [chatGenerateWithFunctions] includes both exactly when the caller's
    array is present and not empty, because the handler hands null to the
    builder otherwise; the trace shows the one request it sends. *)
Theorem functions_in_request :
  (forall model history functions n stream,
      wire_functions (openAIChatCompletionPayload model history functions n stream)
        = functions
      /\ wire_function_call (openAIChatCompletionPayload model history functions n stream)
         = match functions with
           | Some _ => Some "auto"
           | None => None
           end)
  /\ forall env network input t,
       exists payload : Request Number,
         wire_functions payload = offered (functions input)
         /\ wire_function_call payload
            = match offered (functions input) with
              | Some _ => Some "auto"
              | None => None
              end
         /\ (wire_functions payload <> None
             <-> exists f fs, functions input = Some (f :: fs))
         /\ snd (chatGenerateWithFunctions env network input t)
            = (t ++ match openAIAccess env (access input) "/v1/chat/completions" with
                    | inl _ => []
                    | inr a => [{| sent_url := url a; sent_headers := headers a;
                                   sent_method := "POST"; sent_body := payload |}]
                    end)%list.
Proof.
  split.
  - intros model history functions n stream. cbn [openAIChatCompletionPayload wire_functions wire_function_call].
    destruct functions; split; reflexivity.
  - intros env network input t.
    exists (openAIChatCompletionPayload (model input) (history input)
              (offered (functions input)) (Number_of_nat 1) false).
    split; [|split; [|split]].
    + cbn. now destruct (offered (functions input)).
    + cbn. reflexivity.
    + cbn. destruct (functions input) as [[|f fs]|]; cbn; split.
      * congruence.
      * intros (f & fs & E). discriminate.
      * intros _. eauto.
      * congruence.
      * congruence.
      * intros (f & fs & E). discriminate.
    + rewrite chatGenerateWithFunctions_trace, offered_spec. apply openaiPOST_trace.
Qed.

End Disambiguation.

(** ** Strings *)
Section StringFacts.

Lemma substring_all (s : string) : substring 0 (String.length s) s = s.
Proof. induction s as [|c s IH]; simpl; [reflexivity | now rewrite IH]. Qed.

Lemma substring_split (n : nat) (s : string) :
  (n <= String.length s)%nat ->
  substring 0 n s ++ substring n (String.length s - n) s = s.
Proof.
  revert s. induction n as [|n IH]; intros s Hn.
  - rewrite Nat.sub_0_r, substring_all. now destruct s.
  - destruct s as [|c s]; simpl in Hn; [lia|].
    simpl. rewrite IH by lia. reflexivity.
Qed.

(** A string that ends with a slash is what [slice(0, -1)] keeps of it,
    and the slash. *)
Lemma endsWith_slash (s : string) :
  Str.endsWith s "/" = true -> s = Str.slice_but_last s ++ "/".
Proof.
  unfold Str.endsWith, Str.slice_but_last. simpl String.length.
  intros H. apply andb_prop in H as [Hlen Hlast].
  apply Nat.leb_le in Hlen. apply String.eqb_eq in Hlast.
  rewrite <- (substring_split (n := String.length s - 1) s) at 1 by lia.
  replace (String.length s - (String.length s - 1))%nat with 1%nat by lia.
  now rewrite Hlast.
Qed.

Lemma append_assoc (a b c : string) : (a ++ b) ++ c = a ++ (b ++ c).
Proof. induction a as [|x a IH]; simpl; [reflexivity | now rewrite IH]. Qed.

Lemma startsWith_append (p s : string) : Str.startsWith (p ++ s) p = true.
Proof.
  unfold Str.startsWith. induction p as [|c p IH]; simpl.
  - now destruct s.
  - destruct (ascii_dec c c) as [_|N]; [exact IH | now elim N].
Qed.

Lemma startsWith_inv (s p : string) :
  Str.startsWith s p = true -> exists r, s = p ++ r.
Proof.
  unfold Str.startsWith. revert s. induction p as [|c p IH]; intros s H.
  - now exists s.
  - destruct s as [|d s]; simpl in H; [discriminate|].
    destruct (ascii_dec c d) as [->|]; [|discriminate].
    destruct (IH s H) as [r ->]. now exists r.
Qed.

End StringFacts.

(** ** The access resolver *)
Section AccessResolver.

Lemma substring_append_left (h s : string) : substring 0 (String.length h) (h ++ s) = h.
Proof.
  induction h as [|c h IH]; simpl.
  - now destruct s.
  - now rewrite IH.
Qed.

Lemma substring_append_right (h s : string) :
  substring (String.length h) (String.length s) (h ++ s) = s.
Proof.
  induction h as [|c h IH]; simpl; [apply substring_all | exact IH].
Qed.

Lemma length_append (a b : string) :
  String.length (a ++ b) = (String.length a + String.length b)%nat.
Proof. induction a as [|c a IH]; simpl; [reflexivity | now rewrite IH]. Qed.

Lemma endsWith_append (h s : string) : Str.endsWith (h ++ s) s = true.
Proof.
  unfold Str.endsWith. rewrite length_append.
  apply andb_true_intro. split.
  - apply Nat.leb_le. lia.
  - replace (String.length h + String.length s - String.length s)%nat
      with (String.length h) by lia.
    rewrite substring_append_right. apply String.eqb_refl.
Qed.

Lemma slice_but_last_append (h : string) : Str.slice_but_last (h ++ "/") = h.
Proof.
  unfold Str.slice_but_last. rewrite length_append. simpl String.length.
  replace (String.length h + 1 - 1)%nat with (String.length h) by lia.
  apply substring_append_left.
Qed.

Lemma or_default_not_empty (a : option string) (b : string) :
  b <> "" -> Str.or_default a b <> "".
Proof.
  intros Hb. destruct a as [s|]; simpl; [|exact Hb].
  unfold Str.or, Str.truthy. destruct (String.eqb s "") eqn:E; simpl; [exact Hb|].
  now apply String.eqb_neq in E.
Qed.

(** With a key, [openAIAccess] returns, and its url is the host with its
    scheme, without its last slash when the path brings one, followed by
    the path. *)
Lemma openAIAccess_url env access apiPath :
  resolved_key env access <> "" ->
  exists a,
    openAIAccess env access apiPath = inr a
    /\ url a = (if Str.endsWith (with_scheme (resolved_host env access)) "/"
                   && Str.startsWith apiPath "/"
                then Str.slice_but_last (with_scheme (resolved_host env access))
                else with_scheme (resolved_host env access)) ++ apiPath.
Proof.
  intros Hkey. unfold openAIAccess.
  fold (resolved_key env access). fold (resolved_host env access).
  fold (with_scheme (resolved_host env access)).
  unfold Str.truthy at 1. apply String.eqb_neq in Hkey. rewrite Hkey. cbn [negb].
  eexists. split; reflexivity.
Qed.

(** C5 (amended).  With a key, [openAIAccess] returns a url; the host it
    starts from is never empty.  When that host does not start with
    "http", the url begins with "https://" (a host that starts with
    "http" is taken as it is, scheme or not).  When the host ends with a
    slash and the path starts with one, exactly one of the two is kept;
    otherwise host and path are joined as they are.  For the host
    "https://x.com/" and the path "/v1/models" the url is
    "https://x.com/v1/models". *)
Theorem url_normalisation env access apiPath :
  resolved_key env access <> "" ->
  exists a,
    openAIAccess env access apiPath = inr a
    /\ resolved_host env access <> ""
    /\ (Str.startsWith (resolved_host env access) "http" = false ->
        Str.startsWith (url a) "https://" = true)
    /\ (Str.startsWith (resolved_host env access) "http" = true ->
        Str.startsWith (url a) "http" = true)
    /\ (forall h p,
           with_scheme (resolved_host env access) = h ++ "/" ->
           apiPath = "/" ++ p ->
           url a = h ++ "/" ++ p)
    /\ (Str.endsWith (with_scheme (resolved_host env access)) "/"
          && Str.startsWith apiPath "/" = false ->
        url a = with_scheme (resolved_host env access) ++ apiPath)
    /\ (oaiHost access = "https://x.com/" -> apiPath = "/v1/models" ->
        url a = "https://x.com/v1/models").
Proof.
  intros Hkey. destruct (openAIAccess_url env access apiPath Hkey) as (a & Ha & Hurl).
  exists a. split; [exact Ha|].
  assert (Hprefix : exists r, url a = with_scheme (resolved_host env access) ++ r).
  { rewrite Hurl.
    destruct (Str.endsWith _ "/" && Str.startsWith apiPath "/") eqn:E; [|eauto].
    apply andb_prop in E as [E1 E2].
    apply startsWith_inv in E2 as [p ->]. exists p.
    rewrite (endsWith_slash _ E1) at 2. now rewrite append_assoc. }
  split; [|split; [|split; [|split; [|split]]]].
  - apply or_default_not_empty. discriminate.
  - intros Hhttp. destruct Hprefix as [r ->].
    unfold with_scheme. rewrite Hhttp. cbn [negb].
    rewrite append_assoc. apply startsWith_append.
  - intros Hhttp. destruct Hprefix as [r ->].
    unfold with_scheme. rewrite Hhttp. cbn [negb].
    destruct (startsWith_inv _ _ Hhttp) as [q ->].
    rewrite append_assoc. apply startsWith_append.
  - intros h p Hh ->. rewrite Hurl, Hh.
    rewrite endsWith_append, (startsWith_append "/" p). cbn [andb].
    now rewrite slice_but_last_append.
  - intros E. rewrite Hurl, E. reflexivity.
  - intros Hhost ->. rewrite Hurl.
    unfold resolved_host. rewrite Hhost. reflexivity.
Qed.

End AccessResolver.

(** ** The HTTP transport wrapper *)
Section Transport.

Context `{Platform} {TBody : Type}.

(** A string conversion that fails fails with a TypeError. *)
Lemma ToString_throws (v : JSValue) : forall e, ToString v = inl e -> e = TypeError.
Proof.
  induction v as [| | b | n | s | elems IH | props _] using value_induction;
    intros e; cbn [ToString]; try discriminate.
  - destruct b; discriminate.
  - induction IH as [| x rest Hx _ IHrest]; [discriminate|].
    match goal with
    | |- match ?head with _ => _ end = _ -> _ => destruct head as [ex | sx] eqn:Ex
    end.
    + intros [= <-]. destruct x; try discriminate; now apply Hx.
    + destruct rest as [| y rest']; [discriminate|].
      match goal with
      | |- match ?tail with _ => _ end = _ -> _ => destruct tail as [et | st] eqn:Et
      end; [|discriminate].
      intros [= <-]. now apply IHrest.
  - destruct (own props "toString"); [|discriminate]. now intros [= <-].
Qed.

(** Once [fetch] has answered, [openaiPOST] is the classification of the
    response. *)
Lemma openaiPOST_run env (network : HttpRequest TBody -> Result HttpResponse)
    access (body : TBody) apiPath t a response :
  openAIAccess env access apiPath = inr a ->
  network {| sent_url := url a; sent_headers := headers a;
             sent_method := "POST"; sent_body := body |} = inr response ->
  openaiPOST env network access body apiPath t
  = (if negb (ok response) then
       match openaiPOST_message
               (match JSON_parse (body_text response) with
                | inr v => v
                | inl _ => VNull
                end) (statusText response) with
       | inl e => inl e
       | inr message => inl (TRPCError BAD_REQUEST message)
       end
     else
       match JSON_parse (body_text response) with
       | inr v => inr v
       | inl message =>
           inl (TRPCError INTERNAL_SERVER_ERROR
                  ("[OpenAI Issue] " ++ Str.or message "SyntaxError"))
       end,
     (t ++ [{| sent_url := url a; sent_headers := headers a;
               sent_method := "POST"; sent_body := body |}])%list).
Proof.
  intros Ha Hnet. unfold openaiPOST.
  unfold bind at 1. unfold lift at 1. rewrite Ha.
  unfold bind at 1. unfold do_fetch. rewrite Hnet.
  destruct (ok response); cbn [negb].
  - destruct (JSON_parse (body_text response)); reflexivity.
  - unfold bind, lift, throw.
    destruct (openaiPOST_message _ _); reflexivity.
Qed.

(** The message of a rejected request, case by case. *)
Lemma openaiPOST_message_cases (error : JSValue) (statusText : string) :
  (truthy error = false ->
   openaiPOST_message error statusText = inr ("[Issue] " ++ statusText))
  /\ (truthy error = true ->
      (truthy (OptGet (OptGet error "error") "message") = true ->
       openaiPOST_message error statusText
         = match ToString (OptGet (OptGet error "error") "message") with
           | inl e => inl e
           | inr text => inr ("[OpenAI Issue] " ++ text)
           end)
      /\ (truthy (OptGet (OptGet error "error") "message") = false ->
          truthy (OptGet error "error") = true ->
          openaiPOST_message error statusText
            = match ToString (OptGet error "error") with
              | inl e => inl e
              | inr text => inr ("[OpenAI Issue] " ++ text)
              end)
      /\ (truthy (OptGet (OptGet error "error") "message") = false ->
          truthy (OptGet error "error") = false ->
          openaiPOST_message error statusText
            = match ToString error with
              | inl e => inl e
              | inr text => inr ("[OpenAI Issue] " ++ Str.or text "Unknown error")
              end)).
Proof.
  unfold openaiPOST_message, bindR. split; [intros -> ; reflexivity|].
  intros Terror. rewrite Terror. split; [|split].
  - intros ->. reflexivity.
  - intros -> ->. reflexivity.
  - intros -> ->.
    assert (Hcall : OptCall_toString error
                    = match ToString error with
                      | inl e => inl e
                      | inr s => inr (VString s)
                      end)
      by (destruct error; try discriminate; reflexivity).
    rewrite Hcall. destruct (ToString error) as [e | text]; [reflexivity|].
    cbn [truthy]. unfold Str.or. destruct (Str.truthy text); reflexivity.
Qed.

Lemma openaiPOST_message_throws (error : JSValue) (statusText : string) (e : Thrown) :
  openaiPOST_message error statusText = inl e -> e = TypeError.
Proof.
  destruct (openaiPOST_message_cases error statusText) as [Hfalsy Htruthy].
  destruct (truthy error) eqn:Terror.
  - destruct (Htruthy eq_refl) as (H1 & H2 & H3).
    destruct (truthy (OptGet (OptGet error "error") "message")) eqn:T1.
    + rewrite (H1 eq_refl). clear H1 H2 H3.
      destruct (ToString (OptGet (OptGet error "error") "message")) eqn:E;
        [|discriminate].
      intros [= <-]. exact (ToString_throws _ E).
    + destruct (truthy (OptGet error "error")) eqn:T2.
      * rewrite (H2 eq_refl eq_refl). clear H1 H2 H3.
        destruct (ToString (OptGet error "error")) eqn:E; [|discriminate].
        intros [= <-]. exact (ToString_throws _ E).
      * rewrite (H3 eq_refl eq_refl). clear H1 H2 H3.
        destruct (ToString error) eqn:E; [|discriminate].
        intros [= <-]. exact (ToString_throws _ E).
  - rewrite (Hfalsy eq_refl). discriminate.
Qed.


End Transport.

(** ** Sorting with a comparator *)
Section ArraySort.

Variable A : Type.
Variable compare : A -> A -> Z.

Lemma Array_sort_insert_permutation (x : A) (l : list A) :
  Permutation (Array_sort_insert compare x l) (x :: l).
Proof.
  induction l as [|y l IH]; simpl; [reflexivity|].
  destruct (compare x y <=? 0)%Z; [reflexivity|].
  rewrite IH. apply perm_swap.
Qed.

Lemma Array_sort_permutation (l : list A) : Permutation (Array_sort compare l) l.
Proof.
  induction l as [|x l IH]; simpl; [reflexivity|].
  rewrite Array_sort_insert_permutation. now constructor.
Qed.

Hypothesis before_total : forall x y, before compare x y \/ before compare y x.
Hypothesis before_trans : forall x y z, before compare x y -> before compare y z -> before compare x z.

Lemma Array_sort_insert_sorted (x : A) (l : list A) :
  StronglySorted (before compare) l -> StronglySorted (before compare) (Array_sort_insert compare x l).
Proof.
  induction 1 as [|y l Hl IH Hy]; simpl.
  - repeat constructor.
  - destruct (compare x y <=? 0)%Z eqn:E.
    + apply Z.leb_le in E. constructor; [now constructor|].
      constructor; [exact E|].
      eapply Forall_impl; [|exact Hy]. intros z Hz. now apply before_trans with y.
    + apply Z.leb_gt in E. constructor; [exact IH|].
      apply (Permutation_Forall (Permutation_sym (Array_sort_insert_permutation x l))).
      constructor; [|exact Hy].
      destruct (before_total x y) as [Hxy | Hyx]; [unfold before in Hxy; lia | exact Hyx].
Qed.

Lemma Array_sort_sorted (l : list A) : StronglySorted (before compare) (Array_sort compare l).
Proof.
  induction l as [|x l IH]; simpl; [constructor | now apply Array_sort_insert_sorted].
Qed.

End ArraySort.

(** Two sorted arrangements of the same keys are the same, when the order
    is antisymmetric. *)
Section SortedUnique.

Variable K : Type.
Variable R : K -> K -> Prop.
Hypothesis R_antisym : forall x y, R x y -> R y x -> x = y.

Lemma sorted_permutation_unique (l1 l2 : list K) :
  StronglySorted R l1 -> StronglySorted R l2 -> Permutation l1 l2 -> l1 = l2.
Proof.
  intros S1. revert l2. induction S1 as [|x l1 S1 IH Hx]; intros l2 S2 P.
  - now apply Permutation_nil in P.
  - destruct S2 as [|y l2 S2 Hy].
    + apply Permutation_sym, Permutation_nil in P. discriminate.
    + assert (Exy : x = y).
      { assert (Ix : In x (y :: l2)) by (apply (Permutation_in _ P); now left).
        assert (Iy : In y (x :: l1))
          by (apply (Permutation_in _ (Permutation_sym P)); now left).
        destruct Ix as [E | Ix]; [now symmetry|].
        destruct Iy as [E | Iy]; [exact E|].
        rewrite Forall_forall in Hx, Hy. apply R_antisym; auto. }
      subst y. f_equal. apply IH; [exact S2|].
      now apply Permutation_cons_inv with x.
Qed.

End SortedUnique.

(** ** The model list *)
Section ModelList.

Context `{Platform} {Rest : Type}.

(** What the router assumes of [localeCompare]: it is the three-way
    comparison of a total order on strings. *)
Hypothesis localeCompare_eq : forall a b, localeCompare a b = 0%Z <-> a = b.
Hypothesis localeCompare_antisym :
  forall a b, (localeCompare a b < 0)%Z <-> (0 < localeCompare b a)%Z.
Hypothesis localeCompare_trans :
  forall a b c,
    (localeCompare a b < 0)%Z -> (localeCompare b c < 0)%Z -> (localeCompare a c < 0)%Z.

Lemma localeCompare_refl (a : string) : localeCompare a a = 0%Z.
Proof. now apply localeCompare_eq. Qed.

Lemma localeCompare_le_trans (a b c : string) :
  (localeCompare a b <= 0)%Z -> (localeCompare b c <= 0)%Z -> (localeCompare a c <= 0)%Z.
Proof.
  intros Hab Hbc.
  destruct (Z.eq_dec (localeCompare a b) 0) as [E | N].
  { apply localeCompare_eq in E. now subst. }
  destruct (Z.eq_dec (localeCompare b c) 0) as [E | N'].
  { apply localeCompare_eq in E. now subst. }
  apply Z.lt_le_incl, localeCompare_trans with b; lia.
Qed.

(** The comparator of the source decides the order of the specification. *)
Lemma compare_key_precedes (a b : Models.ModelDescription Rest) :
  before Models.compare a b <-> key_precedes (Models.id a) (Models.id b).
Proof.
  unfold before, Models.compare, key_precedes, segments.
  destruct (String.eqb _ _) eqn:Eprefix.
  - apply String.eqb_eq in Eprefix. rewrite Eprefix, localeCompare_refl.
    destruct (Z.eqb _ _) eqn:Ecount.
    + apply Z.eqb_eq in Ecount. apply Nat2Z.inj in Ecount. rewrite Ecount.
      split; [intros Hle; right; split; [reflexivity | right; now split]|].
      intros [Hlt | [_ [Hlt | [_ Hle]]]]; [lia | lia | exact Hle].
    + apply Z.eqb_neq in Ecount.
      split; [intros Hle; right; split; [reflexivity | left; lia]|].
      intros [Hlt | [_ [Hlt | [Heq _]]]]; [lia | lia | now rewrite Heq in Ecount].
  - apply String.eqb_neq in Eprefix.
    assert (Hne : localeCompare (Str.slice_to (Models.id b) 5)
                                (Str.slice_to (Models.id a) 5) <> 0%Z).
    { intros E. apply localeCompare_eq in E. now symmetry in E. }
    split; [intros Hle; left; lia|].
    intros [Hlt | [Heq _]]; [lia | contradiction].
Qed.

Lemma key_precedes_total (a b : string) : key_precedes a b \/ key_precedes b a.
Proof.
  unfold key_precedes.
  destruct (Z.lt_trichotomy (localeCompare (Str.slice_to b 5) (Str.slice_to a 5)) 0)
    as [Hlt | [Heq | Hgt]].
  - left. now left.
  - apply localeCompare_eq in Heq.
    destruct (Nat.lt_trichotomy (segments a) (segments b)) as [Hlt | [Hseg | Hgt]].
    + left. right. split; [now symmetry | now left].
    + destruct (Z.le_gt_cases (localeCompare a b) 0) as [Hle | Hgt].
      * left. right. split; [now symmetry | right; now split].
      * right. right. split; [exact Heq | right; split; [now symmetry|]].
        apply Z.lt_le_incl, localeCompare_antisym. lia.
    + right. right. split; [exact Heq | now left].
  - right. left. now apply localeCompare_antisym.
Qed.

Lemma key_precedes_antisym (a b : string) :
  key_precedes a b -> key_precedes b a -> a = b.
Proof.
  unfold key_precedes.
  intros [Hab | [Eab Hab]] [Hba | [Eba Hba]].
  - apply localeCompare_antisym in Hab. lia.
  - rewrite Eba, localeCompare_refl in Hab. lia.
  - rewrite Eab, localeCompare_refl in Hba. lia.
  - destruct Hab as [Hab | [Sab Hab]], Hba as [Hba | [Sba Hba]]; try lia.
    destruct (Z.eq_dec (localeCompare a b) 0) as [E | N];
      [now apply localeCompare_eq in E|].
    assert (Hlt : (localeCompare a b < 0)%Z) by lia.
    apply localeCompare_antisym in Hlt. lia.
Qed.

Lemma key_precedes_trans (a b c : string) :
  key_precedes a b -> key_precedes b c -> key_precedes a c.
Proof.
  unfold key_precedes.
  intros [Hab | [Eab Hab]] [Hbc | [Ebc Hbc]].
  - left. now apply localeCompare_trans with (Str.slice_to b 5).
  - left. now rewrite <- Ebc.
  - left. now rewrite Eab.
  - right. split; [congruence|].
    destruct Hab as [Hab | [Sab Hab]], Hbc as [Hbc | [Sbc Hbc]].
    + left. lia.
    + left. lia.
    + left. lia.
    + right. split; [congruence|]. now apply localeCompare_le_trans with b.
Qed.

Lemma Permutation_filter (A : Type) (f : A -> bool) (l l' : list A) :
  Permutation l l' -> Permutation (filter f l) (filter f l').
Proof.
  induction 1 as [| x l l' _ IH | x y l | l l' l'' _ IH1 _ IH2]; simpl.
  - constructor.
  - destruct (f x); [now constructor | exact IH].
  - destruct (f x), (f y); try reflexivity. apply perm_swap.
  - now transitivity (filter f l').
Qed.

Lemma StronglySorted_map_id (l : list (Models.ModelDescription Rest)) :
  StronglySorted (fun a b => key_precedes (Models.id a) (Models.id b)) l ->
  StronglySorted key_precedes (map (@Models.id Rest) l).
Proof.
  induction 1 as [| x l _ IH Hx]; simpl; constructor; [exact IH|].
  rewrite Forall_forall in *. intros k Hk.
  apply in_map_iff in Hk as (y & <- & Hy). now apply Hx.
Qed.

Lemma StronglySorted_equiv (A : Type) (R R' : A -> A -> Prop) (l : list A) :
  (forall a b, R a b -> R' a b) -> StronglySorted R l -> StronglySorted R' l.
Proof.
  intros HR. induction 1 as [| x l _ IH Hx]; constructor; [exact IH|].
  eapply Forall_impl; [|exact Hx]. intros y. apply HR.
Qed.

Lemma listModels_sorted (wireModels : Models.Response Rest) :
  StronglySorted (fun a b => key_precedes (Models.id a) (Models.id b))
    (Models.listModels wireModels).
Proof.
  unfold Models.listModels.
  eapply StronglySorted_equiv; [|apply Array_sort_sorted].
  - intros a b. apply compare_key_precedes.
  - intros a b.
    destruct (key_precedes_total (Models.id a) (Models.id b)) as [Hab | Hba];
      [left | right]; now apply compare_key_precedes.
  - intros a b c Hab Hbc. apply compare_key_precedes.
    apply key_precedes_trans with (Models.id b); now apply compare_key_precedes.
Qed.

Lemma listModels_permutation (wireModels : Models.Response Rest) :
  Permutation (Models.listModels wireModels)
    (filter (fun model => Str.includes (Models.id model) "gpt") (catalog wireModels)).
Proof.
  unfold Models.listModels, catalog.
  rewrite Array_sort_permutation. now destruct (Models.data wireModels).
Qed.

End ModelList.

(** ** The access resolver: key and headers *)
Section AccessHeaders.

Lemma or_default_or_env (own : string) (env : option string) (default : string) :
  Str.or_default (Str.or_env own env) default = preferred own env default.
Proof.
  unfold Str.or_default, Str.or_env, preferred, Str.or.
  destruct (Str.truthy own) eqn:Town; [now rewrite Town|].
  now destruct env.
Qed.

Lemma preferred_empty (own : string) (env : option string) :
  preferred own env "" = ""
  <-> own = "" /\ (env = None \/ env = Some "").
Proof.
  unfold preferred, Str.truthy.
  destruct (String.eqb_spec own "") as [-> | Hown]; cbn [negb].
  - destruct env as [s|]; [|tauto].
    destruct (String.eqb_spec s "") as [-> | Hs]; cbn [negb]; [tauto|].
    split; [contradiction|]. intros [_ [E | E]]; congruence.
  - split; [contradiction | tauto].
Qed.

(** X1.  [openAIAccess] throws the Error "Missing OpenAI API Key..."
    exactly when the caller's key is empty and the environment's is unset
    or empty, and it throws nothing else: with a key from either side it
    returns. *)
Theorem openAIAccess_key_required (env : ProcessEnv) (access : AccessSchema)
    (apiPath : string) :
  (openAIAccess env access apiPath = inl (Error msg_missing_key)
   <-> oaiKey access = ""
       /\ (OPENAI_API_KEY env = None \/ OPENAI_API_KEY env = Some ""))
  /\ (forall e, openAIAccess env access apiPath = inl e -> e = Error msg_missing_key)
  /\ ((exists a, openAIAccess env access apiPath = inr a)
      <-> oaiKey access <> "" \/ exists k, OPENAI_API_KEY env = Some k /\ k <> "").
Proof.
  pose proof (preferred_empty (oaiKey access) (OPENAI_API_KEY env)) as Hempty.
  rewrite <- or_default_or_env in Hempty. fold (resolved_key env access) in Hempty.
  destruct (String.eqb_spec (resolved_key env access) "") as [E | N].
  - assert (Hfail : openAIAccess env access apiPath = inl (Error msg_missing_key)).
    { unfold openAIAccess. fold (resolved_key env access). now rewrite E. }
    rewrite Hfail. apply Hempty in E as Hparts. destruct Hparts as [Hown Henv].
    split; [tauto|]. split; [now intros e [= <-]|].
    split; [intros [a Ha]; discriminate|].
    intros [Hk | (k & Hk & Hne)]; [contradiction|].
    destruct Henv as [Henv | Henv]; congruence.
  - destruct (openAIAccess_url env access apiPath N) as (a & Ha & _). rewrite Ha.
    split; [split; [discriminate | intros Hparts; now apply Hempty in Hparts]|].
    split; [discriminate|].
    split; [|eauto].
    intros _.
    destruct (String.eqb_spec (oaiKey access) "") as [Hown | Hown]; [|now left].
    right. destruct (OPENAI_API_KEY env) as [k|] eqn:Henv.
    + exists k. split; [reflexivity|]. intros ->. apply N, Hempty. auto.
    + exfalso. apply N, Hempty. auto.
Qed.

Lemma header_app (name : string) (hs hs' : list (string * string)) :
  header name (hs ++ hs')%list
  = match header name hs with
    | Some v => Some v
    | None => header name hs'
    end.
Proof.
  induction hs as [|[n v] hs IH]; simpl; [reflexivity|].
  destruct (String.eqb n name); [reflexivity | exact IH].
Qed.

(** X2.  The headers [openAIAccess] returns: Authorization is "Bearer "
    and the key, Content-Type is application/json; OpenAI-Organization and
    Helicone-Auth are there exactly when the organization and the Helicone
    key are not empty; no header comes twice and there is no other.  Key,
    organization and Helicone key are the caller's when not empty, else the
    environment's. *)
Theorem openAIAccess_headers (env : ProcessEnv) (access : AccessSchema)
    (apiPath : string) (a : Access) :
  openAIAccess env access apiPath = inr a ->
  header "Authorization" (headers a)
    = Some ("Bearer " ++ preferred (oaiKey access) (OPENAI_API_KEY env) "")
  /\ header "Content-Type" (headers a) = Some "application/json"
  /\ header "OpenAI-Organization" (headers a)
     = (if Str.truthy (preferred (oaiOrg access) (OPENAI_API_ORG_ID env) "")
        then Some (preferred (oaiOrg access) (OPENAI_API_ORG_ID env) "")
        else None)
  /\ header "Helicone-Auth" (headers a)
     = (if Str.truthy (preferred (heliKey access) (HELICONE_API_KEY env) "")
        then Some ("Bearer " ++ preferred (heliKey access) (HELICONE_API_KEY env) "")
        else None)
  /\ NoDup (map fst (headers a))
  /\ (forall name, In name (map fst (headers a)) ->
      In name ["Authorization"; "Content-Type"; "OpenAI-Organization"; "Helicone-Auth"]).
Proof.
  unfold openAIAccess. rewrite !or_default_or_env.
  destruct (negb (Str.truthy (preferred (oaiKey access) (OPENAI_API_KEY env) "")));
    [discriminate|].
  intros [= <-]. cbn [headers].
  destruct (Str.truthy (preferred (oaiOrg access) (OPENAI_API_ORG_ID env) ""));
    destruct (Str.truthy (preferred (heliKey access) (HELICONE_API_KEY env) ""));
    cbn [app header String.eqb Ascii.eqb Bool.eqb map fst];
    (repeat split;
     [ repeat constructor; simpl; intuition discriminate
     | intros name Hin; simpl in Hin |- *; tauto ]).
Qed.

End AccessHeaders.

(** ** Requests: what is sent, what comes back, what is thrown *)
Section Requests.

Context `{Platform}.

Lemma openAIAccess_throws (env : ProcessEnv) (access : AccessSchema) (apiPath : string)
    (e : Thrown) :
  openAIAccess env access apiPath = inl e ->
  e = Error msg_missing_key /\ resolved_key env access = "".
Proof.
  destruct (String.eqb_spec (resolved_key env access) "") as [E | N].
  - unfold openAIAccess. fold (resolved_key env access). rewrite E.
    intros [= <-]. now split.
  - destruct (openAIAccess_url env access apiPath N) as (a & Ha & _).
    rewrite Ha. discriminate.
Qed.

Lemma openaiPOST_without_access {TBody : Type} env
    (network : HttpRequest TBody -> Result HttpResponse) access (body : TBody)
    apiPath t e :
  openAIAccess env access apiPath = inl e ->
  openaiPOST env network access body apiPath t = (inl e, t).
Proof.
  intros Ha. unfold openaiPOST. unfold bind at 1. unfold lift at 1. now rewrite Ha.
Qed.

Lemma openaiPOST_rejected {TBody : Type} env
    (network : HttpRequest TBody -> Result HttpResponse) access (body : TBody)
    apiPath t a e :
  openAIAccess env access apiPath = inr a ->
  network (post_request a body) = inl e ->
  openaiPOST env network access body apiPath t
  = (inl e, (t ++ [post_request a body])%list).
Proof.
  intros Ha Hnet. unfold openaiPOST. unfold bind at 1. unfold lift at 1. rewrite Ha.
  unfold bind at 1. unfold do_fetch. fold (post_request a body). now rewrite Hnet.
Qed.

(** The returns of [openaiPOST]. *)
Lemma openaiPOST_returns {TBody : Type} env
    (network : HttpRequest TBody -> Result HttpResponse) access (body : TBody)
    apiPath t v t' :
  openaiPOST env network access body apiPath t = (inr v, t')
  <-> exists a response,
        openAIAccess env access apiPath = inr a
        /\ network (post_request a body) = inr response
        /\ ok response = true
        /\ JSON_parse (body_text response) = inr v
        /\ t' = (t ++ [post_request a body])%list.
Proof.
  split.
  - intros Hcall.
    destruct (openAIAccess env access apiPath) as [e | a] eqn:Ha.
    { erewrite openaiPOST_without_access in Hcall by exact Ha. discriminate. }
    destruct (network (post_request a body)) as [e | response] eqn:Hnet.
    { erewrite openaiPOST_rejected in Hcall by eassumption. discriminate. }
    rewrite (openaiPOST_run env network access body apiPath t Ha Hnet) in Hcall.
    exists a, response.
    destruct (ok response); cbn [negb] in Hcall.
    + destruct (JSON_parse (body_text response)) as [reason | w]; [discriminate|].
      injection Hcall as <- <-. repeat split; solve [assumption | reflexivity].
    + destruct (openaiPOST_message _ _); discriminate.
  - intros (a & response & Ha & Hnet & Hok & Hparse & ->).
    rewrite (openaiPOST_run env network access body apiPath t Ha Hnet).
    now rewrite Hok, Hparse.
Qed.

(** X3.  [openaiPOST] returns a value exactly when there is a key, [fetch]
    resolved, the status is a success and the body parses; the value is the
    parsed body, and the one request of the call is in the trace.  A
    rejection of [fetch] is thrown as it is. *)
Theorem openaiPOST_returns_iff {TBody : Type} env
    (network : HttpRequest TBody -> Result HttpResponse) access (body : TBody)
    apiPath t :
  (forall v t',
      openaiPOST env network access body apiPath t = (inr v, t')
      <-> exists a response,
            openAIAccess env access apiPath = inr a
            /\ network (post_request a body) = inr response
            /\ ok response = true
            /\ JSON_parse (body_text response) = inr v
            /\ t' = (t ++ [post_request a body])%list)
  /\ (forall a e,
         openAIAccess env access apiPath = inr a ->
         network (post_request a body) = inl e ->
         openaiPOST env network access body apiPath t
         = (inl e, (t ++ [post_request a body])%list)).
Proof.
  split; [intros v t'; apply openaiPOST_returns | intros a e; apply openaiPOST_rejected].
Qed.

Lemma Get_throws (v : JSValue) (key : string) (e : Thrown) :
  Get v key = inl e -> e = TypeError /\ nullish v.
Proof.
  unfold nullish.
  destruct v; simpl; try discriminate;
    try (intros [= <-]; auto);
    try (destruct (String.eqb key "length"); discriminate).
  destruct (own props key); discriminate.
Qed.

Lemma GetIndex_throws (v : JSValue) (i : nat) (e : Thrown) :
  GetIndex v i = inl e -> e = TypeError.
Proof.
  destruct v; simpl; try discriminate; try (now intros [= <-]).
  - destruct (String.get i s); discriminate.
  - destruct (own props (index_key i)); discriminate.
Qed.

Lemma openaiPOST_message_prefix (error : JSValue) (statusText message : string) :
  openaiPOST_message error statusText = inr message ->
  Str.startsWith message "[OpenAI Issue] " = true
  \/ message = "[Issue] " ++ statusText.
Proof.
  unfold openaiPOST_message, bindR.
  destruct (truthy error); [|intros [= <-]; now right].
  match goal with
  | |- match ?chosen with _ => _ end = _ -> _ => destruct chosen as [e | chosen']
  end; [discriminate|].
  destruct (ToString chosen'); [discriminate|].
  intros [= <-]. left. exact (startsWith_append "[OpenAI Issue] " _).
Qed.

(** What the handler makes of a decoded response: every failure is a
    TypeError or an INTERNAL_SERVER_ERROR whose message starts with
    "[OpenAI Issue] ". *)
Lemma chatGenerateWithFunctions_tail_throws env network input t w t1 e t' :
  provider_answers env network input t w t1 ->
  chatGenerateWithFunctions env network input t = (inl e, t') ->
  t' = t1
  /\ (e = TypeError
      \/ exists message,
           e = TRPCError INTERNAL_SERVER_ERROR message
           /\ Str.startsWith message "[OpenAI Issue] " = true).
Proof.
  intros Hpost Hcall. unfold provider_answers in Hpost.
  unfold chatGenerateWithFunctions in Hcall. unfold bind at 1 in Hcall.
  rewrite Hpost in Hcall. clear Hpost.
  match type of Hcall with
  | (if ?c then _ else _) _ = _ => destruct c
  end.
  { unfold bind, lift, throw in Hcall.
    destruct (ToString _) as [e0 | text] eqn:Hts; injection Hcall as <- <-.
    - split; [reflexivity|]. left. exact (ToString_throws _ Hts).
    - split; [reflexivity|]. right. eexists. split; reflexivity. }
  unfold bind, lift in Hcall.
  destruct (Get w "choices") as [e0 | choices] eqn:Hchoices.
  { injection Hcall as <- <-. split; [reflexivity|]. left.
    exact (proj1 (Get_throws _ _ Hchoices)). }
  destruct (GetIndex choices 0) as [e0 | choice] eqn:Hchoice.
  { injection Hcall as <- <-. split; [reflexivity|]. left.
    exact (GetIndex_throws _ _ Hchoice). }
  destruct (Get choice "message") as [e0 | message] eqn:Hmessage.
  { injection Hcall as <- <-. split; [reflexivity|]. left.
    exact (proj1 (Get_throws _ _ Hmessage)). }
  destruct (Get choice "finish_reason") as [e0 | finish_reason] eqn:Hreason.
  { injection Hcall as <- <-. split; [reflexivity|]. left.
    exact (proj1 (Get_throws _ _ Hreason)). }
  destruct (IsStrictlyEqual finish_reason (VString "function_call"));
    injection Hcall as Hparse <-; (split; [reflexivity|]).
  - destruct (parseChatGenerateFCOutput_throws _ _ Hparse) as [-> | (text & -> & Hin)];
      [now left|].
    right. exists text. split; [reflexivity|].
    simpl in Hin. destruct Hin as [<- | [<- | [<- | [<- | []]]]]; reflexivity.
  - destruct (parseChatGenerateOutput_throws _ _ Hparse) as [-> | ->]; [now left|].
    right. eexists. split; reflexivity.
Qed.

(** What the handler throws: the Error of the missing key, with nothing
    sent; what [fetch] rejected with; for a response whose status is not a
    success, BAD_REQUEST with a message that starts with "[OpenAI Issue] "
    or is "[Issue] " and the status text; for a response with a success
    status, INTERNAL_SERVER_ERROR with a message that starts with
    "[OpenAI Issue] "; or, after either kind of response, a TypeError of
    the engine. *)
Lemma chatGenerateWithFunctions_throws env network input t e t' :
  chatGenerateWithFunctions env network input t = (inl e, t') ->
  (e = Error msg_missing_key /\ t' = t
   /\ openAIAccess env (access input) "/v1/chat/completions" = inl e)
  \/ exists a,
       openAIAccess env (access input) "/v1/chat/completions" = inr a
       /\ t' = (t ++ [post_request a (chat_body input)])%list
       /\ (network (post_request a (chat_body input)) = inl e
           \/ exists response,
                network (post_request a (chat_body input)) = inr response
                /\ (e = TypeError
                    \/ (ok response = false
                        /\ exists message,
                             e = TRPCError BAD_REQUEST message
                             /\ (Str.startsWith message "[OpenAI Issue] " = true
                                 \/ message = "[Issue] " ++ statusText response))
                    \/ (ok response = true
                        /\ exists message,
                             e = TRPCError INTERNAL_SERVER_ERROR message
                             /\ Str.startsWith message "[OpenAI Issue] " = true))).
Proof.
  intros Hcall.
  assert (Hpost_or :
            forall r t1,
              openaiPOST env network (access input) (chat_body input)
                "/v1/chat/completions" t = (r, t1) ->
              match r with
              | inl e1 => (inl e1, t1) = (inl e : Result (ChatOutcome Number), t')
              | inr w => provider_answers env network input t w t1
              end).
  { intros r t1 Hpost. unfold chat_body in Hpost. rewrite <- offered_spec in Hpost.
    destruct r as [e1 | w]; [|exact Hpost].
    unfold chatGenerateWithFunctions in Hcall. unfold bind at 1 in Hcall.
    now rewrite Hpost in Hcall. }
  destruct (openAIAccess env (access input) "/v1/chat/completions") as [e0 | a] eqn:Ha.
  { left.
    pose proof (Hpost_or _ _ ltac:(eapply openaiPOST_without_access; exact Ha)) as E.
    injection E as <- <-.
    destruct (openAIAccess_throws _ _ _ Ha) as [-> _]. auto. }
  right. exists a. split; [reflexivity|].
  destruct (network (post_request a (chat_body input))) as [e0 | response] eqn:Hnet.
  { pose proof (Hpost_or _ _ ltac:(eapply openaiPOST_rejected; eassumption)) as E.
    injection E as <- <-. auto. }
  pose proof (openaiPOST_run env network (access input) (chat_body input)
                "/v1/chat/completions" t Ha Hnet) as Hrun.
  destruct (ok response) eqn:Hok; cbn [negb] in Hrun.
  - destruct (JSON_parse (body_text response)) as [reason | w].
    + pose proof (Hpost_or _ _ Hrun) as E. injection E as <- <-.
      split; [reflexivity|]. right. exists response. split; [reflexivity|].
      right. right. split; [exact Hok|]. eexists. split; [reflexivity|].
      exact (startsWith_append "[OpenAI Issue] " _).
    + pose proof (Hpost_or _ _ Hrun) as Hpost.
      destruct (chatGenerateWithFunctions_tail_throws Hpost Hcall)
        as [-> [-> | (message & -> & Hprefix)]];
        (split; [reflexivity|]); right; exists response; (split; [reflexivity|]).
      * now left.
      * right. right. split; [exact Hok|]. eauto.
  - destruct (openaiPOST_message _ _) as [e1 | message] eqn:Hmessage.
    + pose proof (Hpost_or _ _ Hrun) as E. injection E as <- <-.
      split; [reflexivity|]. right. exists response. split; [reflexivity|].
      left. exact (openaiPOST_message_throws _ _ Hmessage).
    + pose proof (Hpost_or _ _ Hrun) as E. injection E as <- <-.
      split; [reflexivity|]. right. exists response. split; [reflexivity|].
      right. left. split; [exact Hok|]. exists message. split; [reflexivity|].
      exact (openaiPOST_message_prefix _ _ Hmessage).
Qed.

End Requests.

(** ** The disambiguator: what it returns *)
Section Outcomes.

Context `{Platform}.

Lemma Get_nullish (v : JSValue) (key : string) :
  nullish v -> Get v key = inl TypeError.
Proof. now intros [-> | ->]. Qed.

Lemma Get_returns (v : JSValue) (key : string) :
  ~ nullish v -> exists x, Get v key = inr x.
Proof.
  unfold nullish. intros Hv.
  destruct (Get v key) as [e | x] eqn:E; [|eauto].
  destruct (Get_throws _ _ E) as [_ Hn]. contradiction.
Qed.

(** X5.  [parseChatGenerateOutput] has three outcomes.  It returns when
    the message is an object (or any value but null and undefined) whose
    content is not null: the result carries the role and the content as
    they are in the message - a missing one reads as undefined - and the
    finish_reason as given.  It throws "Expected a message, got a null
    message" exactly when the content is null, and a TypeError exactly when
    the message itself is null or undefined. *)
Theorem parseChatGenerateOutput_outcomes (message finish_reason : JSValue) :
  (forall outcome,
      parseChatGenerateOutput message finish_reason = inr outcome
      <-> exists role content,
            Get message "role" = inr role
            /\ Get message "content" = inr content
            /\ content <> VNull
            /\ outcome = Message role content finish_reason)
  /\ (parseChatGenerateOutput message finish_reason
        = inl (TRPCError INTERNAL_SERVER_ERROR msg_null_message)
      <-> Get message "content" = inr VNull)
  /\ (parseChatGenerateOutput message finish_reason = inl TypeError
      <-> nullish message)
  /\ (forall e,
         parseChatGenerateOutput message finish_reason = inl e ->
         e = TypeError \/ e = TRPCError INTERNAL_SERVER_ERROR msg_null_message).
Proof.
  split; [|split; [|split]]; [| | |apply parseChatGenerateOutput_throws].
  - intros outcome. unfold parseChatGenerateOutput, bindR. split.
    + destruct (Get message "content") as [e | content] eqn:Hcontent; [discriminate|].
      destruct (IsStrictlyEqual content VNull) eqn:Hnull; [discriminate|].
      destruct (Get message "role") as [e | role]; [discriminate|].
      intros [= <-]. exists role, content. repeat split.
      intros ->. discriminate.
    + intros (role & content & -> & -> & Hcontent & ->).
      now rewrite (not_null Hcontent).
  - unfold parseChatGenerateOutput, bindR. split.
    + destruct (Get message "content") as [e | content] eqn:Hcontent.
      { intros [= ->]. destruct (Get_throws _ _ Hcontent) as [E _]. discriminate. }
      destruct (IsStrictlyEqual content VNull) eqn:Hnull.
      * apply IsStrictlyEqual_null in Hnull. now subst.
      * destruct (Get message "role") as [e | role] eqn:Hrole; [|discriminate].
        intros [= ->]. destruct (Get_throws _ _ Hrole) as [E _]. discriminate.
    + now intros ->.
  - split.
    + unfold parseChatGenerateOutput, bindR.
      destruct (Get message "content") as [e | content] eqn:Hcontent.
      { intros _. exact (proj2 (Get_throws _ _ Hcontent)). }
      destruct (IsStrictlyEqual content VNull); [discriminate|].
      destruct (Get message "role") as [e | role] eqn:Hrole; [|discriminate].
      intros _. exact (proj2 (Get_throws _ _ Hrole)).
    + intros Hn. unfold parseChatGenerateOutput, bindR.
      now rewrite (Get_nullish "content" Hn).
Qed.

(** What the handler makes of one choice whose finish_reason is not
    "function_call". *)
Lemma chatGenerateWithFunctions_plain env network input t w t' (message finish_reason : JSValue) :
  Number_eqb (Number_of_nat 1) (Number_of_nat 1) = true ->
  provider_answers env network input t w t' ->
  single_choice w message finish_reason ->
  finish_reason <> VString "function_call" ->
  (forall role content,
      Get message "role" = inr role ->
      Get message "content" = inr content -> content <> VNull ->
      chatGenerateWithFunctions env network input t
        = (inr (Message role content finish_reason), t'))
  /\ (Get message "content" = inr VNull ->
      chatGenerateWithFunctions env network input t
        = (inl (TRPCError INTERNAL_SERVER_ERROR msg_null_message), t')).
Proof.
  intros Hone Hpost Hchoice Hreason.
  rewrite (chatGenerateWithFunctions_dispatch Hone Hpost Hchoice).
  assert (Hdispatch : IsStrictlyEqual finish_reason (VString "function_call") = false).
  { destruct (IsStrictlyEqual _ _) eqn:E; [|reflexivity].
    now apply IsStrictlyEqual_string in E. }
  rewrite Hdispatch. unfold parseChatGenerateOutput, bindR. split.
  - intros role content -> -> Hcontent. now rewrite (not_null Hcontent).
  - now intros ->.
Qed.

(** X7.  [parseChatGenerateFCOutput] returns exactly when functions were
    offered, the content is null, the name and the arguments of the payload
    are truthy and the text of the arguments parses as JSON.  The name is
    passed on as it is and the arguments are what [JSON.parse] made of
    them: neither is checked to be a string or an object.  It throws a
    TypeError exactly when functions were offered and the message is null
    or undefined. *)
Theorem parseChatGenerateFCOutput_returns_iff (isRequested : bool) (message : JSValue) :
  (forall outcome,
      parseChatGenerateFCOutput isRequested message = inr outcome
      <-> isRequested = true
          /\ Get message "content" = inr VNull
          /\ exists fc fc_name fc_arguments text fcArgs,
               Get message "function_call" = inr fc
               /\ Get fc "name" = inr fc_name /\ truthy fc_name = true
               /\ Get fc "arguments" = inr fc_arguments /\ truthy fc_arguments = true
               /\ ToString fc_arguments = inr text
               /\ JSON_parse text = inr fcArgs
               /\ outcome = FunctionCall fc_name fcArgs)
  /\ (parseChatGenerateFCOutput isRequested message = inl TypeError
      <-> isRequested = true /\ nullish message).
Proof.
  split.
  - intros outcome. split.
    + unfold parseChatGenerateFCOutput, bindR.
      destruct isRequested; cbn [negb]; [|discriminate].
      destruct (Get message "content") as [e | content] eqn:Hcontent; [discriminate|].
      destruct (IsStrictlyEqual content VNull) eqn:Hnull; cbn [negb]; [|discriminate].
      apply IsStrictlyEqual_null in Hnull. subst content.
      destruct (Get message "function_call") as [e | fc] eqn:Hfc; [discriminate|].
      destruct (truthy fc) eqn:Tfc; cbn [negb]; [|discriminate].
      destruct (Get fc "name") as [e | fc_name] eqn:Hname; [discriminate|].
      destruct (truthy fc_name) eqn:Tname; cbn [negb]; [|discriminate].
      destruct (Get fc "arguments") as [e | fc_arguments] eqn:Hargs; [discriminate|].
      destruct (truthy fc_arguments) eqn:Targs; cbn [negb]; [|discriminate].
      destruct (ToString fc_arguments) as [e | text] eqn:Htext; [discriminate|].
      destruct (JSON_parse text) as [reason | fcArgs] eqn:Hparse; [discriminate|].
      intros [= <-]. split; [reflexivity|]. split; [reflexivity|].
      exists fc, fc_name, fc_arguments, text, fcArgs. repeat split; assumption.
    + intros (-> & Hcontent & fc & fc_name & fc_arguments & text & fcArgs
              & Hfc & Hname & Tname & Hargs & Targs & Htext & Hparse & ->).
      rewrite (parseChatGenerateFCOutput_decodes message Hcontent Hfc Hname Tname Hargs Targs).
      now rewrite Htext, Hparse.
  - split.
    + intros Hthrows. destruct isRequested; [|discriminate].
      split; [reflexivity|].
      unfold parseChatGenerateFCOutput, bindR in Hthrows. cbn [negb] in Hthrows.
      destruct (Get message "content") as [e | content] eqn:Hcontent.
      { exact (proj2 (Get_throws _ _ Hcontent)). }
      destruct (IsStrictlyEqual content VNull); cbn [negb] in Hthrows; [|discriminate].
      destruct (Get message "function_call") as [e | fc] eqn:Hfc.
      { exact (proj2 (Get_throws _ _ Hfc)). }
      exfalso.
      destruct (truthy fc) eqn:Tfc; cbn [negb] in Hthrows; [|discriminate].
      assert (Hfc_object : ~ nullish fc).
      { intros [-> | ->]; discriminate. }
      destruct (Get_returns "name" Hfc_object) as [fc_name Hname].
      destruct (Get_returns "arguments" Hfc_object) as [fc_arguments Hargs].
      rewrite Hname, Hargs in Hthrows.
      destruct (truthy fc_name); cbn [negb] in Hthrows; [|discriminate].
      destruct (truthy fc_arguments); cbn [negb] in Hthrows; [|discriminate].
      destruct (ToString fc_arguments); [discriminate|].
      destruct (JSON_parse _); discriminate.
    + intros [-> Hn]. unfold parseChatGenerateFCOutput, bindR. cbn [negb].
      now rewrite (Get_nullish "content" Hn).
Qed.

Lemma OptGet_nullish (v : JSValue) (key : string) :
  nullish v -> OptGet v key = VUndefined.
Proof. now intros [-> | ->]. Qed.

(** X8.  A response without choices - the body is null, or has no
    [choices], or a null one - is refused with the INTERNAL_SERVER_ERROR
    "[OpenAI Issue] Expected 1 completion, got undefined". *)
Theorem missing_choices_refused env network input t w t' :
  provider_answers env network input t w t' ->
  nullish w \/ nullish (OptGet w "choices") ->
  chatGenerateWithFunctions env network input t
    = (inl (TRPCError INTERNAL_SERVER_ERROR (msg_choice_count "undefined")), t').
Proof.
  intros Hpost Hmissing.
  assert (Hchoices : nullish (OptGet w "choices")).
  { destruct Hmissing as [Hw | Hc]; [|exact Hc].
    left. now apply OptGet_nullish. }
  unfold chatGenerateWithFunctions, provider_answers in *.
  unfold bind at 1. rewrite Hpost.
  rewrite (OptGet_nullish "length" Hchoices). reflexivity.
Qed.

(** X9.  The request of [chatGenerateWithFunctions]: one POST to the url
    and with the headers of the access, whose body names the model of the
    input and carries its history, with [n] 1 and [stream] false.  The
    temperature and the maximum of tokens are sent when they are given and
    truthy: a temperature of 0 is left out of the request. *)
Theorem chat_request_parameters env network input t a :
  openAIAccess env (access input) "/v1/chat/completions" = inr a ->
  snd (chatGenerateWithFunctions env network input t)
    = (t ++ [post_request a (chat_body input)])%list
  /\ wire_model (chat_body input) = id (model input)
  /\ wire_messages (chat_body input) = history input
  /\ wire_n (chat_body input) = Number_of_nat 1
  /\ wire_stream (chat_body input) = false
  /\ (forall x, wire_temperature (chat_body input) = Some x
                <-> temperature (model input) = Some x /\ Number_truthy x = true)
  /\ (forall x, wire_max_tokens (chat_body input) = Some x
                <-> maxTokens (model input) = Some x /\ Number_truthy x = true)
  /\ (Number_truthy (Number_of_nat 0) = false ->
      temperature (model input) = Some (Number_of_nat 0) ->
      wire_temperature (chat_body input) = None).
Proof.
  intros Ha. split.
  { rewrite chatGenerateWithFunctions_trace, offered_spec, openaiPOST_trace.
    now rewrite Ha. }
  unfold chat_body. cbn [openAIChatCompletionPayload wire_model wire_messages wire_n
                           wire_stream wire_temperature wire_max_tokens].
  repeat (split; [reflexivity|]).
  split; [|split].
  - intros x. destruct (temperature (model input)) as [y|]; [|split; [|intros []]; discriminate].
    destruct (Number_truthy y) eqn:Ty.
    + split; [intros [= <-]; now split | now intros [[= <-] _]].
    + split; [discriminate | intros [[= <-] Tx]; congruence].
  - intros x. destruct (maxTokens (model input)) as [y|]; [|split; [|intros []]; discriminate].
    destruct (Number_truthy y) eqn:Ty.
    + split; [intros [= <-]; now split | now intros [[= <-] _]].
    + split; [discriminate | intros [[= <-] Tx]; congruence].
  - intros Hzero ->. now rewrite Hzero.
Qed.

End Outcomes.


(** ** The endpoint *)
Section Endpoint.

Lemma openAIAccess_returns_url env access apiPath a :
  openAIAccess env access apiPath = inr a ->
  url a = endpoint (resolved_host env access) apiPath.
Proof.
  intros Ha.
  destruct (String.eqb_spec (resolved_key env access) "") as [E | N].
  - unfold openAIAccess in Ha. fold (resolved_key env access) in Ha.
    rewrite E in Ha. discriminate.
  - destruct (openAIAccess_url env access apiPath N) as (a' & Ha' & Hurl).
    rewrite Ha in Ha'. injection Ha' as <-. exact Hurl.
Qed.

Lemma preferred_own (own : string) (env : option string) (default : string) :
  own <> "" -> preferred own env default = own.
Proof.
  intros Hown. unfold preferred, Str.truthy.
  apply String.eqb_neq in Hown. now rewrite Hown.
Qed.

(** X10.  The endpoint of a call.  Without a host from the caller or the
    environment the url is "https://api.openai.com" and the path.  A host
    of the caller overrides the environment: whatever the environment
    holds, the url is the same.  A host of the environment is used as that
    same host given by the caller would be. *)
Theorem endpoint_precedence env access apiPath a :
  openAIAccess env access apiPath = inr a ->
  (oaiHost access = "" ->
   OPENAI_API_HOST env = None \/ OPENAI_API_HOST env = Some "" ->
   url a = "https://api.openai.com" ++ apiPath)
  /\ (oaiHost access <> "" ->
      forall env' a', openAIAccess env' access apiPath = inr a' -> url a' = url a)
  /\ (oaiHost access = "" ->
      forall host, OPENAI_API_HOST env = Some host -> host <> "" ->
      forall access' a',
        oaiHost access' = host ->
        openAIAccess env access' apiPath = inr a' -> url a' = url a).
Proof.
  intros Ha. rewrite (openAIAccess_returns_url _ _ _ Ha).
  unfold resolved_host. rewrite or_default_or_env.
  split; [|split].
  - intros Hown Henv. unfold preferred. rewrite Hown.
    destruct Henv as [-> | ->]; reflexivity.
  - intros Hown env' a' Ha'. rewrite (openAIAccess_returns_url _ _ _ Ha').
    unfold resolved_host. rewrite or_default_or_env.
    now rewrite !(preferred_own _ _ Hown).
  - intros Hown host Henv Hhost access' a' Hown' Ha'.
    rewrite (openAIAccess_returns_url _ _ _ Ha').
    unfold resolved_host. rewrite or_default_or_env.
    rewrite (preferred_own _ _ (eq_ind_r (fun h => h <> "") Hhost Hown')).
    rewrite Hown'. unfold preferred at 1. rewrite Hown, Henv.
    unfold Str.truthy. apply String.eqb_neq in Hhost. now rewrite Hhost.
Qed.

End Endpoint.

(** ** [openaiGET] and [moderation] *)
Section Procedures.

Context `{Platform}.

Lemma openAIAccess_missing_key env access apiPath :
  oaiKey access = "" ->
  OPENAI_API_KEY env = None \/ OPENAI_API_KEY env = Some "" ->
  openAIAccess env access apiPath = inl (Error msg_missing_key).
Proof.
  intros Hown Henv. unfold openAIAccess. rewrite or_default_or_env.
  rewrite (proj2 (preferred_empty _ _) (conj Hown Henv)). reflexivity.
Qed.

Lemma openaiGET_run env (network : HttpRequest unit -> Result HttpResponse)
    access apiPath t a response :
  openAIAccess env access apiPath = inr a ->
  network (get_request a) = inr response ->
  openaiGET env network access apiPath t
  = (match JSON_parse (body_text response) with
     | inl reason => inl (SyntaxError reason)
     | inr v => inr v
     end, (t ++ [get_request a])%list).
Proof.
  intros Ha Hnet. unfold openaiGET. rewrite Ha. cbv zeta.
  fold (get_request a). now rewrite Hnet.
Qed.

(** X11.  [openaiGET] does not look at the status of the response: it
    returns the parsed body of an error response as if it were the answer,
    where [openaiPOST] throws for the same response; a body that does not
    parse leaves it as the SyntaxError of [response.json()]. *)
Theorem openaiGET_ignores_status env (network : HttpRequest unit -> Result HttpResponse)
    access apiPath t a response :
  openAIAccess env access apiPath = inr a ->
  network (get_request a) = inr response ->
  openaiGET env network access apiPath t
  = (match JSON_parse (body_text response) with
     | inl reason => inl (SyntaxError reason)
     | inr v => inr v
     end, (t ++ [get_request a])%list)
  /\ forall (TBody : Type) (network' : HttpRequest TBody -> Result HttpResponse)
       (body : TBody) (t0 : Trace TBody) (v : JSValue),
       network' (post_request a body) = inr response ->
       ok response = false ->
       JSON_parse (body_text response) = inr v ->
       fst (openaiGET env network access apiPath t) = inr v
       /\ exists e, fst (openaiPOST env network' access body apiPath t0) = inl e.
Proof.
  intros Ha Hnet. split; [now apply openaiGET_run|].
  intros TBody network' body t0 v Hnet' Hok Hparse.
  rewrite (openaiGET_run env network access apiPath t Ha Hnet), Hparse.
  split; [reflexivity|].
  rewrite (openaiPOST_run env network' access body apiPath t0 Ha Hnet'), Hok.
  cbn [negb fst]. destruct (openaiPOST_message _ _); eauto.
Qed.

(** X12.  The failures of [openaiGET]: the Error of the missing key, with
    nothing sent; what [fetch] rejected with; or the SyntaxError of a body
    that is not JSON.  It makes no TRPCError of its own. *)
Theorem openaiGET_failures env (network : HttpRequest unit -> Result HttpResponse)
    access apiPath t r t' :
  openaiGET env network access apiPath t = (inl r, t') ->
  (r = Rethrown (Error msg_missing_key) /\ t' = t
   /\ openAIAccess env access apiPath = inl (Error msg_missing_key))
  \/ exists a,
       openAIAccess env access apiPath = inr a
       /\ t' = (t ++ [get_request a])%list
       /\ ((exists e, network (get_request a) = inl e /\ r = Rethrown e)
           \/ exists response reason,
                network (get_request a) = inr response
                /\ JSON_parse (body_text response) = inl reason
                /\ r = SyntaxError reason).
Proof.
  intros Hcall.
  destruct (openAIAccess env access apiPath) as [e | a] eqn:Ha.
  - left. unfold openaiGET in Hcall. rewrite Ha in Hcall.
    injection Hcall as <- <-.
    destruct (openAIAccess_throws _ _ _ Ha) as [-> _]. auto.
  - right. exists a. split; [reflexivity|].
    destruct (network (get_request a)) as [e | response] eqn:Hnet.
    + unfold openaiGET in Hcall. rewrite Ha in Hcall. cbv zeta in Hcall.
      fold (get_request a) in Hcall. rewrite Hnet in Hcall.
      injection Hcall as <- <-. split; [reflexivity|]. left. eauto.
    + rewrite (openaiGET_run env network access apiPath t Ha Hnet) in Hcall.
      destruct (JSON_parse (body_text response)) as [reason | v] eqn:Hparse;
        [|discriminate].
      injection Hcall as <- <-. split; [reflexivity|]. right.
      exists response, reason. auto.
Qed.

Lemma or_not_empty (a b : string) : b <> "" -> Str.or a b <> "".
Proof.
  intros Hb. unfold Str.or, Str.truthy.
  destruct (String.eqb_spec a ""); cbn [negb]; assumption.
Qed.

Lemma or_left (a b : string) : a <> "" -> Str.or a b = a.
Proof.
  intros Ha. unfold Str.or, Str.truthy.
  apply String.eqb_neq in Ha. now rewrite Ha.
Qed.

(** What [moderation] makes of a failure of its [openaiPOST]. *)
Lemma moderation_catches engine env network input t e t' :
  openaiPOST env network (Moderation.access input) (moderation_body input)
    "/v1/moderations" t = (inl e, t') ->
  Moderation.moderation engine env network input t
  = (inl (if match Moderation.code (Moderation.caught engine e) with
             | Some c => String.eqb c "ECONNRESET"
             | None => false
             end
          then TRPCError CLIENT_CLOSED_REQUEST msg_connection_reset
          else TRPCError BAD_REQUEST
                 ("Error: " ++ Str.or (Moderation.message (Moderation.caught engine e))
                                 (Str.or (Moderation.toString (Moderation.caught engine e))
                                    "Unknown error"))), t').
Proof.
  intros Hpost. unfold Moderation.moderation, Moderation.try_catch.
  unfold moderation_body in Hpost. rewrite Hpost.
  now destruct (match Moderation.code _ with Some _ => _ | None => _ end).
Qed.

(** X13.  [moderation] fails in two ways only: with CLIENT_CLOSED_REQUEST
    "Connection reset by the client.", or with BAD_REQUEST and a message
    that is "Error: " followed by a text that is not empty.  Either is the
    failure of its [openaiPOST], caught and thrown again. *)
Theorem moderation_failures engine env network input t e t' :
  Moderation.moderation engine env network input t = (inl e, t') ->
  (e = TRPCError CLIENT_CLOSED_REQUEST msg_connection_reset
   \/ exists text, e = TRPCError BAD_REQUEST ("Error: " ++ text) /\ text <> "")
  /\ exists e0,
       openaiPOST env network (Moderation.access input) (moderation_body input)
         "/v1/moderations" t = (inl e0, t').
Proof.
  intros Hcall.
  destruct (openaiPOST env network (Moderation.access input) (moderation_body input)
              "/v1/moderations" t) as [[e0 | v] t1] eqn:Hpost.
  - rewrite (moderation_catches engine _ _ _ _ Hpost) in Hcall.
    injection Hcall as <- <-. split; [|eauto].
    destruct (match Moderation.code _ with Some _ => _ | None => _ end); [now left|].
    right. eexists. split; [reflexivity|].
    apply or_not_empty, or_not_empty. discriminate.
  - unfold Moderation.moderation, Moderation.try_catch in Hcall.
    unfold moderation_body in Hpost. rewrite Hpost in Hcall. discriminate.
Qed.

(** X14.  How [moderation] throws the errors of the router again: a
    TRPCError of [openaiPOST], whatever its code, and the Error of the
    missing key come out as BAD_REQUEST with the message "Error: " and the
    message they had; the engine does not matter for them.  An error of
    the engine or of [fetch] whose code is "ECONNRESET" comes out as
    CLIENT_CLOSED_REQUEST. *)
Theorem moderation_rewraps engine env network input t e t' :
  openaiPOST env network (Moderation.access input) (moderation_body input)
    "/v1/moderations" t = (inl e, t') ->
  (forall c text,
      e = TRPCError c text -> text <> "" ->
      Moderation.moderation engine env network input t
        = (inl (TRPCError BAD_REQUEST ("Error: " ++ text)), t'))
  /\ (forall text,
         e = Error text -> text <> "" ->
         Moderation.moderation engine env network input t
           = (inl (TRPCError BAD_REQUEST ("Error: " ++ text)), t'))
  /\ (e = TypeError \/ (exists reason, e = FetchRejected reason) ->
      Moderation.code (engine e) = Some "ECONNRESET" ->
      Moderation.moderation engine env network input t
        = (inl (TRPCError CLIENT_CLOSED_REQUEST msg_connection_reset), t')).
Proof.
  intros Hpost. rewrite (moderation_catches engine _ _ _ _ Hpost).
  split; [|split].
  - intros c text -> Htext. cbn [Moderation.caught Moderation.code Moderation.message].
    rewrite (or_left _ Htext). now destruct c.
  - intros text -> Htext. cbn [Moderation.caught Moderation.code Moderation.message].
    now rewrite (or_left _ Htext).
  - intros He Hcode.
    assert (Hcaught : Moderation.caught engine e = engine e)
      by (destruct He as [-> | [reason ->]]; reflexivity).
    now rewrite Hcaught, Hcode.
Qed.

(** X15.  [moderation] returns exactly when the provider answers its
    request with a success status and a body that parses, and it returns
    that parsed body as it is.  The request is one POST to the path
    "/v1/moderations" whose body carries the text of the input and the
    model "text-moderation-latest". *)
Theorem moderation_returns_iff engine env network input t v t' :
  Moderation.moderation engine env network input t = (inr v, t')
  <-> exists a response,
        openAIAccess env (Moderation.access input) "/v1/moderations" = inr a
        /\ network (post_request a (moderation_body input)) = inr response
        /\ ok response = true
        /\ JSON_parse (body_text response) = inr v
        /\ t' = (t ++ [post_request a (moderation_body input)])%list.
Proof.
  rewrite <- openaiPOST_returns.
  destruct (openaiPOST env network (Moderation.access input) (moderation_body input)
              "/v1/moderations" t) as [[e0 | w] t1] eqn:Hpost.
  - rewrite (moderation_catches engine _ _ _ _ Hpost). split; discriminate.
  - unfold Moderation.moderation, Moderation.try_catch.
    unfold moderation_body in Hpost. rewrite Hpost. reflexivity.
Qed.

(** X16.  Without a key - none from the caller and none, or an empty one,
    in the environment - no procedure sends a request: [openaiPOST],
    [openaiGET] and [chatGenerateWithFunctions] throw the Error "Missing
    OpenAI API Key...", [moderation] throws it as a BAD_REQUEST, and the
    trace is as it was. *)
Theorem no_request_without_key engine env credentials apiPath :
  oaiKey credentials = "" ->
  OPENAI_API_KEY env = None \/ OPENAI_API_KEY env = Some "" ->
  (forall (TBody : Type) (network : HttpRequest TBody -> Result HttpResponse)
          (body : TBody) t,
      openaiPOST env network credentials body apiPath t
        = (inl (Error msg_missing_key), t))
  /\ (forall network t,
         openaiGET env network credentials apiPath t
           = (inl (Rethrown (Error msg_missing_key)), t))
  /\ (forall network input t,
         access input = credentials ->
         chatGenerateWithFunctions env network input t
           = (inl (Error msg_missing_key), t))
  /\ (forall network input t,
         Moderation.access input = credentials ->
         Moderation.moderation engine env network input t
           = (inl (TRPCError BAD_REQUEST ("Error: " ++ msg_missing_key)), t)).
Proof.
  intros Hown Henv.
  pose proof (fun p => openAIAccess_missing_key env credentials p Hown Henv) as Hmissing.
  split; [|split; [|split]].
  - intros TBody network body t. now apply openaiPOST_without_access.
  - intros network t. unfold openaiGET. now rewrite Hmissing.
  - intros network input t <-. unfold chatGenerateWithFunctions. unfold bind at 1.
    erewrite openaiPOST_without_access by apply Hmissing. reflexivity.
  - intros network input t <-.
    erewrite moderation_catches by (apply openaiPOST_without_access, Hmissing).
    reflexivity.
Qed.

End Procedures.


(** ** The model list: what the sort keeps *)
Section ModelListOrder.

Context `{Platform} {Rest : Type}.

Lemma Array_sort_of_sorted (A : Type) (compare : A -> A -> Z) (l : list A) :
  StronglySorted (before compare) l -> Array_sort compare l = l.
Proof.
  induction 1 as [| x l _ IH Hx]; [reflexivity|].
  simpl. rewrite IH. destruct l as [| y l]; [reflexivity|].
  simpl. inversion Hx as [| ? ? Hxy _]; subst.
  unfold before in Hxy. apply Z.leb_le in Hxy. now rewrite Hxy.
Qed.

Lemma filter_all (A : Type) (f : A -> bool) (l : list A) :
  (forall x, In x l -> f x = true) -> filter f l = l.
Proof.
  induction l as [| x l IH]; intros Hall; [reflexivity|].
  simpl. rewrite (Hall x (or_introl eq_refl)). f_equal.
  apply IH. intros y Hy. apply Hall. now right.
Qed.

(** X17.  What [listModels] returns, whatever [localeCompare] does: the
    entries of the catalog whose id contains "gpt", each as many times as
    the catalog has it and with what the provider sent along; nothing when
    the catalog has no [data]. *)
Theorem listModels_members (wireModels : Models.Response Rest) :
  Permutation (Models.listModels wireModels) (filter is_gpt (catalog wireModels))
  /\ (forall model,
         In model (Models.listModels wireModels)
         <-> In model (catalog wireModels)
             /\ Str.includes (Models.id model) "gpt" = true)
  /\ List.length (Models.listModels wireModels)
     = List.length (filter is_gpt (catalog wireModels))
  /\ (Models.data wireModels = None -> Models.listModels wireModels = []).
Proof.
  assert (Hperm : Permutation (Models.listModels wireModels)
                    (filter is_gpt (catalog wireModels))).
  { unfold Models.listModels, catalog.
    rewrite Array_sort_permutation. now destruct (Models.data wireModels). }
  split; [exact Hperm|]. split; [|split].
  - intros model. rewrite <- (filter_In is_gpt). split.
    + apply Permutation_in. exact Hperm.
    + apply Permutation_in. now symmetry.
  - now apply Permutation_length.
  - intros Hdata. unfold Models.listModels. now rewrite Hdata.
Qed.

Section Stable.

Hypothesis localeCompare_refl : forall a, localeCompare a a = 0%Z.

Lemma compare_same_id (a b : Models.ModelDescription Rest) :
  Models.id a = Models.id b -> Models.compare a b = 0%Z.
Proof.
  intros E. unfold Models.compare. rewrite E.
  now rewrite String.eqb_refl, Z.eqb_refl.
Qed.

Lemma insert_with_id (i : string) (x : Models.ModelDescription Rest)
    (l : list (Models.ModelDescription Rest)) :
  filter (with_id i) (Array_sort_insert Models.compare x l)
  = filter (with_id i) (x :: l).
Proof.
  induction l as [| y l IH]; [reflexivity|].
  cbn [Array_sort_insert].
  destruct (Models.compare x y <=? 0)%Z eqn:Hxy; [reflexivity|].
  cbn [filter] in *. rewrite IH.
  destruct (with_id i x) eqn:Hx; [|reflexivity].
  destruct (with_id i y) eqn:Hy; [|reflexivity].
  unfold with_id in Hx, Hy. apply String.eqb_eq in Hx, Hy.
  rewrite (compare_same_id x y) in Hxy by congruence. discriminate.
Qed.

Lemma sort_with_id (i : string) (l : list (Models.ModelDescription Rest)) :
  filter (with_id i) (Array_sort Models.compare l) = filter (with_id i) l.
Proof.
  induction l as [| x l IH]; [reflexivity|].
  cbn [Array_sort fold_right]. fold (Array_sort Models.compare l).
  rewrite insert_with_id. cbn [filter]. now rewrite IH.
Qed.


End Stable.

Section Idempotent.

Hypothesis localeCompare_eq : forall a b, localeCompare a b = 0%Z <-> a = b.
Hypothesis localeCompare_antisym :
  forall a b, (localeCompare a b < 0)%Z <-> (0 < localeCompare b a)%Z.
Hypothesis localeCompare_trans :
  forall a b c,
    (localeCompare a b < 0)%Z -> (localeCompare b c < 0)%Z -> (localeCompare a c < 0)%Z.


End Idempotent.

End ModelListOrder.


(** ** What the url and the headers depend on *)
Section Independence.

Lemma openAIAccess_returns_headers env access apiPath a :
  openAIAccess env access apiPath = inr a ->
  headers a
  = ([("Authorization",
       ("Bearer " ++ preferred (oaiKey access) (OPENAI_API_KEY env) "")%string);
      ("Content-Type", "application/json")]
     ++ (if Str.truthy (preferred (oaiOrg access) (OPENAI_API_ORG_ID env) "")
         then [("OpenAI-Organization", preferred (oaiOrg access) (OPENAI_API_ORG_ID env) "")]
         else [])
     ++ (if Str.truthy (preferred (heliKey access) (HELICONE_API_KEY env) "")
         then [("Helicone-Auth",
                ("Bearer " ++ preferred (heliKey access) (HELICONE_API_KEY env) "")%string)]
         else []))%list.
Proof.
  unfold openAIAccess. rewrite !or_default_or_env.
  destruct (negb (Str.truthy (preferred (oaiKey access) (OPENAI_API_KEY env) "")));
    [discriminate|].
  now intros [= <-].
Qed.

(** X20.  The key stays in the headers.  The url of [openAIAccess]
    depends on the host and the path only: two accesses with the same host
    get the same url, whatever their keys.  The headers depend on the key,
    the organization and the Helicone key only: neither the host nor the
    path changes them. *)
Theorem url_and_headers_independent env access access' apiPath apiPath' a a' :
  openAIAccess env access apiPath = inr a ->
  openAIAccess env access' apiPath' = inr a' ->
  (oaiHost access = oaiHost access' -> apiPath = apiPath' -> url a = url a')
  /\ (oaiKey access = oaiKey access' -> oaiOrg access = oaiOrg access' ->
      heliKey access = heliKey access' -> headers a = headers a').
Proof.
  intros Ha Ha'. split.
  - intros Hhost <-.
    rewrite (openAIAccess_returns_url _ _ _ Ha), (openAIAccess_returns_url _ _ _ Ha').
    unfold resolved_host. now rewrite Hhost.
  - intros Hkey Horg Hheli.
    rewrite (openAIAccess_returns_headers _ _ _ Ha),
      (openAIAccess_returns_headers _ _ _ Ha').
    now rewrite Hkey, Horg, Hheli.
Qed.

End Independence.

(** ** A choice without message *)
Section Unchecked.

Context `{Platform}.

(** X21.  The handler does not check that the choice has a message.  When
    the one choice of the response has none (or a null one), the call
    fails with the TypeError of the engine, not with a TRPCError - unless
    the finish_reason is "function_call" and no functions were offered:
    that guard comes first.  ([1 === 1] is assumed of numbers.) *)
Theorem choice_without_message env network input t w t' (message finish_reason : JSValue) :
  Number_eqb (Number_of_nat 1) (Number_of_nat 1) = true ->
  provider_answers env network input t w t' ->
  single_choice w message finish_reason ->
  nullish message ->
  chatGenerateWithFunctions env network input t
  = (inl (if IsStrictlyEqual finish_reason (VString "function_call")
             && negb (isFunctionsCall (functions input))
          then TRPCError INTERNAL_SERVER_ERROR msg_not_requested
          else TypeError), t').
Proof.
  intros Hone Hpost Hchoice Hmessage.
  rewrite (chatGenerateWithFunctions_dispatch Hone Hpost Hchoice).
  destruct (IsStrictlyEqual finish_reason (VString "function_call")); cbn [andb].
  - unfold parseChatGenerateFCOutput, bindR.
    destruct (isFunctionsCall (functions input)); cbn [negb]; [|reflexivity].
    now rewrite (Get_nullish "content" Hmessage).
  - unfold parseChatGenerateOutput, bindR.
    now rewrite (Get_nullish "content" Hmessage).
Qed.

End Unchecked.


(** ** Sorting a list on which the comparator is consistent *)
Section ArraySortOn.

Variable A : Type.
Variable compare : A -> A -> Z.
Variable P : A -> Prop.

Hypothesis total_on : forall x y, P x -> P y -> before compare x y \/ before compare y x.
Hypothesis trans_on :
  forall x y z, P x -> P y -> P z ->
    before compare x y -> before compare y z -> before compare x z.

Lemma Array_sort_insert_sorted_on (x : A) (l : list A) :
  P x -> Forall P l ->
  StronglySorted (before compare) l ->
  StronglySorted (before compare) (Array_sort_insert compare x l).
Proof.
  intros Px Pl Hsorted. induction Hsorted as [| y l Hl IH Hy]; simpl.
  - repeat constructor.
  - inversion Pl as [| ? ? Py Pl']; subst.
    destruct (compare x y <=? 0)%Z eqn:E.
    + apply Z.leb_le in E. constructor; [now constructor|].
      constructor; [exact E|].
      rewrite Forall_forall in *. intros z Hz.
      apply trans_on with y; auto.
    + apply Z.leb_gt in E. constructor; [now apply IH|].
      apply (Permutation_Forall (Permutation_sym (Array_sort_insert_permutation compare x l))).
      constructor; [|exact Hy].
      destruct (total_on Px Py) as [Hxy | Hyx]; [unfold before in Hxy; lia | exact Hyx].
Qed.

Lemma Array_sort_sorted_on (l : list A) :
  Forall P l -> StronglySorted (before compare) (Array_sort compare l).
Proof.
  induction l as [| x l IH]; intros Pl; simpl; [constructor|].
  inversion Pl as [| ? ? Px Pl']; subst.
  apply Array_sort_insert_sorted_on; [exact Px | | now apply IH].
  apply (Permutation_Forall (Permutation_sym (Array_sort_permutation compare l))).
  exact Pl'.
Qed.

End ArraySortOn.

Section SortedOn.

Variable K : Type.
Variable R : K -> K -> Prop.

Lemma sorted_permutation_unique_on (l1 l2 : list K) :
  (forall x y, In x l1 -> In y l1 -> R x y -> R y x -> x = y) ->
  StronglySorted R l1 -> StronglySorted R l2 -> Permutation l1 l2 -> l1 = l2.
Proof.
  intros Hanti S1. revert l2 Hanti.
  induction S1 as [| x l1 S1 IH Hx]; intros l2 Hanti S2 Hperm.
  - now apply Permutation_nil in Hperm.
  - destruct S2 as [| y l2 S2 Hy].
    + apply Permutation_sym, Permutation_nil in Hperm. discriminate.
    + assert (Iy : In y (x :: l1))
        by (apply (Permutation_in _ (Permutation_sym Hperm)); now left).
      assert (Exy : x = y).
      { assert (Ix : In x (y :: l2)) by (apply (Permutation_in _ Hperm); now left).
        destruct Ix as [E | Ix]; [now symmetry|].
        destruct Iy as [E | Iy']; [exact E|].
        rewrite Forall_forall in Hx, Hy.
        apply Hanti; [now left | now right | auto | auto]. }
      subst y. f_equal. apply IH; [|exact S2|now apply Permutation_cons_inv with x].
      intros a b Ha Hb. apply Hanti; now right.
Qed.

Lemma StronglySorted_impl_on (R' : K -> K -> Prop) (l : list K) :
  (forall a b, In a l -> In b l -> R a b -> R' a b) ->
  StronglySorted R l -> StronglySorted R' l.
Proof.
  intros HR Hsorted. induction Hsorted as [| x l _ IH Hx]; constructor.
  - apply IH. intros a b Ha Hb. apply HR; now right.
  - rewrite Forall_forall in *. intros y Hy. apply HR; [now left | now right | auto].
Qed.

End SortedOn.

(** ** The model list under a collation *)
Section ModelListCollation.

Context `{Platform} {Rest : Type}.

(** What holds of [localeCompare] in every locale: it is the three-way
    comparison of a total preorder.  Different strings may compare as
    equal. *)
Hypothesis collation_refl : forall a, localeCompare a a = 0%Z.
Hypothesis collation_antisym :
  forall a b, (localeCompare a b < 0)%Z <-> (0 < localeCompare b a)%Z.
Hypothesis collation_le_trans :
  forall a b c,
    (localeCompare a b <= 0)%Z -> (localeCompare b c <= 0)%Z -> (localeCompare a c <= 0)%Z.

Lemma collation_flip (a b : string) :
  (0 <= localeCompare a b)%Z -> (localeCompare b a <= 0)%Z.
Proof.
  intros Hab. destruct (Z.le_gt_cases (localeCompare b a) 0) as [Hle | Hgt]; [exact Hle|].
  assert (Hlt : (localeCompare a b < 0)%Z) by (apply collation_antisym; lia). lia.
Qed.

Lemma collation_lt_trans (a b c : string) :
  (localeCompare a b < 0)%Z -> (localeCompare b c < 0)%Z -> (localeCompare a c < 0)%Z.
Proof.
  intros Hab Hbc.
  assert (Hac : (localeCompare a c <= 0)%Z) by (apply collation_le_trans with b; lia).
  destruct (Z.eq_dec (localeCompare a c) 0) as [E | N]; [|lia].
  assert (Hca : (localeCompare c a <= 0)%Z) by (apply collation_flip; lia).
  assert (Hcb : (localeCompare c b <= 0)%Z)
    by (apply collation_le_trans with a; [exact Hca | lia]).
  apply collation_antisym in Hbc. lia.
Qed.

Lemma key_precedes_transitive (a b c : string) :
  key_precedes a b -> key_precedes b c -> key_precedes a c.
Proof.
  unfold key_precedes.
  intros [Hab | [Eab Hab]] [Hbc | [Ebc Hbc]].
  - left. now apply collation_lt_trans with (Str.slice_to b 5).
  - left. now rewrite <- Ebc.
  - left. now rewrite Eab.
  - right. split; [congruence|].
    destruct Hab as [Hab | [Sab Hab]], Hbc as [Hbc | [Sbc Hbc]].
    + left. lia.
    + left. lia.
    + left. lia.
    + right. split; [congruence|]. now apply collation_le_trans with b.
Qed.

(** The comparator of the source decides the order of the key, for two
    entries whose first five characters [localeCompare] tells apart. *)
Lemma compare_decides_key (a b : Models.ModelDescription Rest) :
  (localeCompare (Str.slice_to (Models.id b) 5) (Str.slice_to (Models.id a) 5) = 0%Z ->
   Str.slice_to (Models.id b) 5 = Str.slice_to (Models.id a) 5) ->
  before Models.compare a b <-> key_precedes (Models.id a) (Models.id b).
Proof.
  intros Hfamily. unfold before, Models.compare, key_precedes, segments.
  destruct (String.eqb _ _) eqn:Eprefix.
  - apply String.eqb_eq in Eprefix. rewrite Eprefix, collation_refl.
    destruct (Z.eqb _ _) eqn:Ecount.
    + apply Z.eqb_eq in Ecount. apply Nat2Z.inj in Ecount. rewrite Ecount.
      split; [intros Hle; right; split; [reflexivity | right; now split]|].
      intros [Hlt | [_ [Hlt | [_ Hle]]]]; [lia | lia | exact Hle].
    + apply Z.eqb_neq in Ecount.
      split; [intros Hle; right; split; [reflexivity | left; lia]|].
      intros [Hlt | [_ [Hlt | [Heq _]]]]; [lia | lia | now rewrite Heq in Ecount].
  - apply String.eqb_neq in Eprefix.
    assert (Hne : localeCompare (Str.slice_to (Models.id b) 5)
                                (Str.slice_to (Models.id a) 5) <> 0%Z).
    { intros E. apply Hfamily in E. now symmetry in E. }
    split; [intros Hle; left; lia|].
    intros [Hlt | [Heq _]]; [lia | contradiction].
Qed.

Lemma key_precedes_total_on (a b : string) :
  (localeCompare (Str.slice_to b 5) (Str.slice_to a 5) = 0%Z ->
   Str.slice_to b 5 = Str.slice_to a 5) ->
  key_precedes a b \/ key_precedes b a.
Proof.
  intros Hfamily. unfold key_precedes.
  destruct (Z.lt_trichotomy (localeCompare (Str.slice_to b 5) (Str.slice_to a 5)) 0)
    as [Hlt | [Heq | Hgt]].
  - left. now left.
  - apply Hfamily in Heq.
    destruct (Nat.lt_trichotomy (segments a) (segments b)) as [Hlt | [Hseg | Hgt]].
    + left. right. split; [now symmetry | now left].
    + destruct (Z.le_gt_cases (localeCompare a b) 0) as [Hle | Hgt].
      * left. right. split; [now symmetry | right; now split].
      * right. right. split; [exact Heq | right; split; [now symmetry|]].
        apply collation_flip. lia.
    + right. right. split; [exact Heq | now left].
  - right. left. now apply collation_antisym.
Qed.

Lemma key_precedes_antisym_on (a b : string) :
  (localeCompare a b = 0%Z -> a = b) ->
  key_precedes a b -> key_precedes b a -> a = b.
Proof.
  intros Hid. unfold key_precedes.
  intros [Hab | [Eab Hab]] [Hba | [Eba Hba]].
  - apply collation_antisym in Hab. lia.
  - rewrite Eba, collation_refl in Hab. lia.
  - rewrite Eab, collation_refl in Hba. lia.
  - destruct Hab as [Hab | [Sab Hab]], Hba as [Hba | [Sba Hba]]; try lia.
    apply Hid.
    destruct (Z.eq_dec (localeCompare a b) 0) as [E | N]; [exact E|].
    assert (Hlt : (localeCompare a b < 0)%Z) by lia.
    apply collation_antisym in Hlt. lia.
Qed.

Lemma told_apart_families (models : list (Models.ModelDescription Rest))
    (a b : Models.ModelDescription Rest) :
  told_apart (families models) -> In a models -> In b models ->
  localeCompare (Str.slice_to (Models.id b) 5) (Str.slice_to (Models.id a) 5) = 0%Z ->
  Str.slice_to (Models.id b) 5 = Str.slice_to (Models.id a) 5.
Proof.
  intros Hfamilies Ha Hb. apply Hfamilies; unfold families.
  - exact (in_map (fun model => Str.slice_to (Models.id model) 5) _ _ Hb).
  - exact (in_map (fun model => Str.slice_to (Models.id model) 5) _ _ Ha).
Qed.

Lemma listModels_of_catalog (wireModels : Models.Response Rest) :
  Permutation (Models.listModels wireModels)
    (filter (fun model => Str.includes (Models.id model) "gpt") (catalog wireModels)).
Proof.
  unfold Models.listModels, catalog.
  rewrite Array_sort_permutation. now destruct (Models.data wireModels).
Qed.

Lemma listModels_in_catalog (wireModels : Models.Response Rest)
    (model : Models.ModelDescription Rest) :
  In model (Models.listModels wireModels) -> In model (catalog wireModels).
Proof.
  intros Hin. apply (Permutation_in _ (listModels_of_catalog wireModels)) in Hin.
  apply filter_In in Hin. exact (proj1 Hin).
Qed.

Lemma listModels_sorted_on (wireModels : Models.Response Rest) :
  told_apart (families (catalog wireModels)) ->
  StronglySorted (fun a b => key_precedes (Models.id a) (Models.id b))
    (Models.listModels wireModels).
Proof.
  intros Hfamilies.
  pose proof (fun a b => @told_apart_families (catalog wireModels) a b Hfamilies)
    as Hfamily.
  apply StronglySorted_impl_on with (R := before Models.compare).
  { intros a b Ha Hb. apply compare_decides_key.
    apply Hfamily; now apply listModels_in_catalog. }
  assert (Hsort : forall l,
             Forall (fun model => In model (catalog wireModels)) l ->
             StronglySorted (before Models.compare) (Array_sort Models.compare l)).
  { apply Array_sort_sorted_on.
    - intros x y Px Py.
      destruct (key_precedes_total_on (Models.id x) (Models.id y) (Hfamily x y Px Py))
        as [Hxy | Hyx]; [left | right]; apply compare_decides_key; auto.
    - intros x y z Px Py Pz Hxy Hyz.
      apply compare_decides_key; [auto|].
      apply key_precedes_transitive with (Models.id y);
        apply compare_decides_key; auto. }
  unfold Models.listModels. apply Hsort.
  apply Forall_forall. intros model Hin. unfold catalog.
  destruct (Models.data wireModels) as [models|]; [|destruct Hin].
  apply filter_In in Hin. exact (proj1 Hin).
Qed.

Lemma told_apart_permutation (l l' : list string) :
  Permutation l l' -> told_apart l -> told_apart l'.
Proof.
  intros Hperm Hl a b Ha Hb. apply Hl; apply (Permutation_in _ (Permutation_sym Hperm));
    assumption.
Qed.


End ModelListCollation.


(** ** The procedure: the handler and the output validation *)
Section Validated.

Context `{Platform}.

Lemma chatGenerateWithFunctions_returns_answered env network input t data t' :
  chatGenerateWithFunctions env network input t = (inr data, t') ->
  exists w, provider_answers env network input t w t'.
Proof.
  intros Hcall. unfold provider_answers.
  pose proof (chatGenerateWithFunctions_trace env network input t) as Htrace.
  rewrite Hcall in Htrace. cbn [snd] in Htrace.
  unfold chatGenerateWithFunctions in Hcall. unfold bind at 1 in Hcall.
  match type of Hcall with
  | context [openaiPOST ?e ?n ?a ?b ?p t] =>
      destruct (openaiPOST e n a b p t) as [[e0 | w] t1] eqn:Hpost
  end; [discriminate|].
  cbn [snd] in Htrace. subst t1. now exists w.
Qed.

Lemma enum_accepts (values : list string) (v parsed : JSValue) :
  z.enum values v = Some parsed -> parsed = v /\ In v (map VString values).
Proof.
  destruct v as [| | b | n | s | elems | props]; simpl; try discriminate.
  destruct (existsb (String.eqb s) values) eqn:E; [|discriminate].
  intros [= <-]. split; [reflexivity|].
  apply existsb_exists in E as (x & Hx & Ex). apply String.eqb_eq in Ex. subst x.
  now apply in_map.
Qed.

Lemma outputSchema_accepted (role content finish_reason : JSValue) :
  accepted_message role content finish_reason ->
  Procedure.chatGenerateWithFunctionsOutputSchema (Message role content finish_reason)
  = Some (Message role content finish_reason).
Proof.
  intros (Hrole & [text ->] & Hreason). simpl in Hrole, Hreason.
  destruct Hrole as [<- | [<- | [<- | []]]];
    destruct Hreason as [<- | [<- | [<- | []]]]; reflexivity.
Qed.

Lemma outputSchema_refused (role content finish_reason : JSValue) :
  ~ accepted_message role content finish_reason ->
  Procedure.chatGenerateWithFunctionsOutputSchema (Message role content finish_reason)
  = None.
Proof.
  intros Hrefused. unfold Procedure.chatGenerateWithFunctionsOutputSchema.
  destruct (z.enum ["assistant"; "system"; "user"] role) as [role'|] eqn:Hrole;
    [|reflexivity].
  destruct (z.string content) as [content'|] eqn:Hcontent; [|reflexivity].
  destruct (z.union [z.enum ["stop"; "length"]; @z.null Number] finish_reason)
    as [reason'|] eqn:Hreason; [|reflexivity].
  exfalso. apply Hrefused. split; [|split].
  - exact (proj2 (enum_accepts _ _ Hrole)).
  - destruct content; try discriminate. eauto.
  - cbn [z.union] in Hreason.
    destruct (z.enum ["stop"; "length"] finish_reason) as [r|] eqn:Henum.
    + destruct (enum_accepts _ _ Henum) as [_ Hin]. simpl in Hin |- *. tauto.
    + destruct finish_reason; try discriminate. simpl. tauto.
Qed.

(** X4.  Every failure of the procedure [chatGenerateWithFunctions] is a
    TRPCError, one of these: an INTERNAL_SERVER_ERROR around the Error of
    the missing key, with nothing sent; what [fetch] rejected with, inside
    an INTERNAL_SERVER_ERROR unless it is a TRPCError; for a response
    whose status is not a success, BAD_REQUEST with a message that starts
    with "[OpenAI Issue] " or is "[Issue] " and the status text; for a
    response with a success status, INTERNAL_SERVER_ERROR with a message
    that starts with "[OpenAI Issue] ", or INTERNAL_SERVER_ERROR "Output
    validation failed" for a value that the handler returned and the
    output schema refuses; or, after either kind of response, an
    INTERNAL_SERVER_ERROR around a TypeError of the engine.  One request
    was sent in all cases but the first. *)
Theorem chatGenerateWithFunctions_failures env network input t failure t' :
  Procedure.chatGenerateWithFunctions env network input t = (inl failure, t') ->
  (failure = Internal (Error msg_missing_key) /\ t' = t
   /\ openAIAccess env (access input) "/v1/chat/completions"
      = inl (Error msg_missing_key))
  \/ exists a,
       openAIAccess env (access input) "/v1/chat/completions" = inr a
       /\ t' = (t ++ [post_request a (chat_body input)])%list
       /\ ((exists cause,
               network (post_request a (chat_body input)) = inl cause
               /\ failure = getTRPCErrorFromUnknown cause)
           \/ exists response,
                network (post_request a (chat_body input)) = inr response
                /\ (failure = Internal TypeError
                    \/ (ok response = false
                        /\ exists message,
                             failure = Failed BAD_REQUEST message
                             /\ (Str.startsWith message "[OpenAI Issue] " = true
                                 \/ message = "[Issue] " ++ statusText response))
                    \/ (ok response = true
                        /\ exists message,
                             failure = Failed INTERNAL_SERVER_ERROR message
                             /\ Str.startsWith message "[OpenAI Issue] " = true)
                    \/ (ok response = true
                        /\ failure = Failed INTERNAL_SERVER_ERROR msg_output_validation
                        /\ exists data,
                             chatGenerateWithFunctions env network input t = (inr data, t')
                             /\ Procedure.chatGenerateWithFunctionsOutputSchema data
                                = None))).
Proof.
  intros Hcall. unfold Procedure.chatGenerateWithFunctions in Hcall.
  destruct (chatGenerateWithFunctions env network input t) as [[cause | data] t1]
    eqn:Hhandler.
  - injection Hcall as <- <-.
    destruct (chatGenerateWithFunctions_throws _ _ _ _ Hhandler)
      as [(-> & -> & Ha) | (a & Ha & -> & Hnet)].
    + left. auto.
    + right. exists a. split; [exact Ha|]. split; [reflexivity|].
      destruct Hnet as [Hnet | (response & Hnet & Hkind)]; [left; eauto|].
      right. exists response. split; [exact Hnet|].
      destruct Hkind as [-> | [(Hok & message & -> & Hmessage)
                              | (Hok & message & -> & Hmessage)]].
      * now left.
      * right. left. split; [exact Hok|]. exists message.
        split; [reflexivity | exact Hmessage].
      * right. right. left. split; [exact Hok|]. exists message.
        split; [reflexivity | exact Hmessage].
  - destruct (Procedure.chatGenerateWithFunctionsOutputSchema data) eqn:Hschema;
      [discriminate|].
    injection Hcall as <- <-.
    destruct (chatGenerateWithFunctions_returns_answered _ _ _ _ Hhandler) as [w Hpost].
    unfold provider_answers in Hpost. rewrite offered_spec in Hpost.
    fold (chat_body input) in Hpost.
    apply openaiPOST_returns in Hpost as (a & response & Ha & Hnet & Hok & _ & ->).
    right. exists a. split; [exact Ha|]. split; [reflexivity|].
    right. exists response. split; [exact Hnet|].
    right. right. right. split; [exact Hok|]. split; [reflexivity|].
    exists data. split; [reflexivity | exact Hschema].
Qed.

(** X6.  A response with one choice whose finish_reason is not
    "function_call", and whose message has content that is not null.  The
    handler returns the Message variant with the role and the content of
    the message and the finish_reason of the choice, whether or not the
    caller offered functions.  The procedure returns it when the output
    schema accepts it - the role is "assistant", "system" or "user", the
    content is a string, the finish_reason is "stop", "length" or null -
    and fails with the INTERNAL_SERVER_ERROR "Output validation failed"
    otherwise: so for the finish_reason "content_filter".  With null
    content the call fails with "Expected a message, got a null message".
    ([1 === 1] is assumed of numbers.) *)
Theorem plain_message_returned env network input t w t' (message finish_reason : JSValue) :
  Number_eqb (Number_of_nat 1) (Number_of_nat 1) = true ->
  provider_answers env network input t w t' ->
  single_choice w message finish_reason ->
  finish_reason <> VString "function_call" ->
  (forall role content,
      Get message "role" = inr role ->
      Get message "content" = inr content -> content <> VNull ->
      chatGenerateWithFunctions env network input t
        = (inr (Message role content finish_reason), t')
      /\ (accepted_message role content finish_reason ->
          Procedure.chatGenerateWithFunctions env network input t
            = (inr (Message role content finish_reason), t'))
      /\ (~ accepted_message role content finish_reason ->
          Procedure.chatGenerateWithFunctions env network input t
            = (inl (Failed INTERNAL_SERVER_ERROR msg_output_validation), t')))
  /\ (Get message "content" = inr VNull ->
      Procedure.chatGenerateWithFunctions env network input t
        = (inl (Failed INTERNAL_SERVER_ERROR msg_null_message), t')).
Proof.
  intros Hone Hpost Hchoice Hreason.
  destruct (chatGenerateWithFunctions_plain Hone Hpost Hchoice Hreason)
    as [Hmessage Hnull].
  split.
  - intros role content Hrole Hcontent Hnot_null.
    pose proof (Hmessage role content Hrole Hcontent Hnot_null) as Hhandler.
    split; [exact Hhandler|].
    unfold Procedure.chatGenerateWithFunctions. rewrite Hhandler. split.
    + intros Haccepted. now rewrite (outputSchema_accepted Haccepted).
    + intros Hrefused. now rewrite (outputSchema_refused Hrefused).
  - intros Hcontent. unfold Procedure.chatGenerateWithFunctions.
    now rewrite (Hnull Hcontent).
Qed.

End Validated.


(** * The properties on concrete inputs *)

#[local] Existing Instance Reference.platform.

(** ** The reference platform is a platform *)
Section ReferenceLaws.

Lemma reference_length_is_one (n : nat) :
  Reference.Decimal_eqb (Reference.Decimal_of_nat n) (Reference.Decimal_of_nat 1)
  = Nat.eqb n 1.
Proof.
  unfold Reference.Decimal_eqb, Reference.Decimal_of_nat. cbn.
  destruct (Nat.eqb_spec n 1) as [-> | Hn]; [reflexivity|].
  apply Z.eqb_neq. lia.
Qed.

Lemma reference_parse_empty (v : Reference.Json) : Reference.parse "" <> inr v.
Proof. discriminate. Qed.

Lemma ascii_compare_lt (a b : ascii) :
  Ascii.compare a b = Lt <-> (N_of_ascii a < N_of_ascii b)%N.
Proof. unfold Ascii.compare. apply N.compare_lt_iff. Qed.

Lemma string_compare_refl (a : string) : String.compare a a = Eq.
Proof.
  induction a as [|x a IH]; simpl; [reflexivity|].
  unfold Ascii.compare. now rewrite N.compare_refl.
Qed.

Lemma string_compare_lt_trans (a b c : string) :
  String.compare a b = Lt -> String.compare b c = Lt -> String.compare a c = Lt.
Proof.
  revert b c. induction a as [|x a IH]; intros [|y b] [|z c]; simpl;
    try discriminate; try reflexivity.
  destruct (Ascii.compare x y) eqn:Exy; try discriminate;
    destruct (Ascii.compare y z) eqn:Eyz; try discriminate; intros Hab Hbc.
  - apply Ascii.compare_eq_iff in Exy, Eyz. subst.
    unfold Ascii.compare. rewrite N.compare_refl. now apply IH with b.
  - apply Ascii.compare_eq_iff in Exy. subst. now rewrite Eyz.
  - apply Ascii.compare_eq_iff in Eyz. subst. now rewrite Exy.
  - apply ascii_compare_lt in Exy. apply ascii_compare_lt in Eyz.
    replace (Ascii.compare x z) with Lt; [reflexivity|].
    symmetry. apply ascii_compare_lt. now apply N.lt_trans with (N_of_ascii y).
Qed.

Lemma code_units_eq (a b : string) : Reference.compare_code_units a b = 0%Z <-> a = b.
Proof.
  unfold Reference.compare_code_units. split.
  - destruct (String.compare a b) eqn:E; try discriminate.
    intros _. now apply String.compare_eq_iff.
  - intros ->. now rewrite string_compare_refl.
Qed.

Lemma code_units_antisym (a b : string) :
  (Reference.compare_code_units a b < 0)%Z <-> (0 < Reference.compare_code_units b a)%Z.
Proof.
  unfold Reference.compare_code_units. rewrite (String.compare_antisym b a).
  destruct (String.compare a b); simpl; lia.
Qed.

Lemma code_units_trans (a b c : string) :
  (Reference.compare_code_units a b < 0)%Z ->
  (Reference.compare_code_units b c < 0)%Z ->
  (Reference.compare_code_units a c < 0)%Z.
Proof.
  unfold Reference.compare_code_units.
  destruct (String.compare a b) eqn:Eab; try lia.
  destruct (String.compare b c) eqn:Ebc; try lia.
  intros _ _. now rewrite (string_compare_lt_trans _ _ _ Eab Ebc).
Qed.

End ReferenceLaws.

(** ** Runs of the disambiguator *)

(** C1 on the example of the specification: the name "f" and the arguments
    [{"a":1}] give the FunctionCall of "f" with the object [{a: 1}], from
    [parseChatGenerateFCOutput] and from the whole call. *)
Lemma function_call_decoded_witness :
  @parseChatGenerateFCOutput Reference.platform true
      (Examples.function_call_message VNull "f" Examples.arguments_a1)
    = inr (FunctionCall (VString "f") (VObject [("a", VNumber Examples.one)]))
  /\ @chatGenerateWithFunctions Reference.platform Examples.env
       (Examples.answering true "OK" Examples.body_function_call)
       (Examples.input (Some [Examples.f])) []
     = (inr (FunctionCall (VString "f") (VObject [("a", VNumber Examples.one)])),
        [Examples.sent (Some [Examples.f])]).
Proof.
  destruct (@function_call_decoded Reference.platform
              (Examples.function_call_message VNull "f" Examples.arguments_a1)
              (VObject [("name", VString "f");
                        ("arguments", VString Examples.arguments_a1)])
              "f" Examples.arguments_a1 [("a", VNumber Examples.one)]
              reference_parse_empty eq_refl eq_refl eq_refl
              ltac:(discriminate) eq_refl ltac:(vm_compute; reflexivity))
    as [Hparse Hcall].
  split; [exact Hparse|].
  apply (Hcall Examples.env
           (Examples.answering true "OK" Examples.body_function_call)
           (Examples.input (Some [Examples.f])) []
           Examples.response_function_call
           [Examples.sent (Some [Examples.f])] Examples.f []).
  - reflexivity.
  - reflexivity.
  - vm_compute. reflexivity.
  - exists (VObject [("message",
                      Examples.function_call_message VNull "f" Examples.arguments_a1);
                     ("finish_reason", VString "function_call")]).
    repeat split; vm_compute; reflexivity.
Defined.

(** C2 on a response with two choices: the call fails with "Expected 1
    completion, got 2". *)
Lemma wrong_choice_count_refused_witness :
  @chatGenerateWithFunctions Reference.platform Examples.env
    (Examples.answering true "OK" Examples.body_two_choices)
    (Examples.input (Some [Examples.f])) []
  = (inl (TRPCError INTERNAL_SERVER_ERROR "[OpenAI Issue] Expected 1 completion, got 2"),
     [Examples.sent (Some [Examples.f])]).
Proof.
  exact (proj1 (@wrong_choice_count_refused Reference.platform Examples.env
                  (Examples.answering true "OK" Examples.body_two_choices)
                  (Examples.input (Some [Examples.f])) []
                  Examples.response_two_choices
                  [Examples.sent (Some [Examples.f])]
                  [Examples.stop_choice; Examples.stop_choice]
                  reference_length_is_one
                  ltac:(vm_compute; reflexivity)
                  ltac:(vm_compute; reflexivity)
                  ltac:(discriminate))).
Defined.

(** C3, the claim as stated fails: with the arguments "not json", which
    [JSON.parse] refuses, the error is an INTERNAL_SERVER_ERROR, not a
    BAD_REQUEST, and it has the code of the failure of a call that offered
    no functions. *)
Lemma invalid_arguments_not_bad_request :
  (exists reason, @JSON_parse Reference.platform "not json" = inl reason)
  /\ @parseChatGenerateFCOutput Reference.platform true
       (Examples.function_call_message VNull "f" "not json")
     = inl (TRPCError INTERNAL_SERVER_ERROR msg_not_json)
  /\ ~ (exists text,
           @parseChatGenerateFCOutput Reference.platform true
             (Examples.function_call_message VNull "f" "not json")
           = inl (TRPCError BAD_REQUEST text))
  /\ @parseChatGenerateFCOutput Reference.platform false
       (Examples.function_call_message VNull "f" "not json")
     = inl (TRPCError INTERNAL_SERVER_ERROR msg_not_requested).
Proof.
  split; [eexists; vm_compute; reflexivity|].
  split; [vm_compute; reflexivity|].
  split; [|reflexivity].
  intros [text E]. vm_compute in E. discriminate.
Qed.

(** C3 (amended) on the arguments "not json". *)
Lemma invalid_arguments_error_witness :
  @parseChatGenerateFCOutput Reference.platform true
    (Examples.function_call_message VNull "f" "not json")
  = inl (TRPCError INTERNAL_SERVER_ERROR msg_not_json).
Proof.
  exact (proj1 (@invalid_arguments_error Reference.platform
                  (Examples.function_call_message VNull "f" "not json")
                  (VObject [("name", VString "f"); ("arguments", VString "not json")])
                  (VString "f") "not json" "Unexpected token in JSON"
                  eq_refl eq_refl eq_refl eq_refl eq_refl
                  ltac:(discriminate) ltac:(vm_compute; reflexivity))).
Defined.

(** C6 on a call without functions that is answered with a function call. *)
Lemma function_call_not_requested_witness :
  @chatGenerateWithFunctions Reference.platform Examples.env
    (Examples.answering true "OK" Examples.body_function_call)
    (Examples.input None) []
  = (inl (TRPCError INTERNAL_SERVER_ERROR msg_not_requested), [Examples.sent None]).
Proof.
  apply (proj2 (@function_call_not_requested Reference.platform) Examples.env
           (Examples.answering true "OK" Examples.body_function_call)
           (Examples.input None) []
           Examples.response_function_call
           [Examples.sent None]
           (Examples.function_call_message VNull "f" Examples.arguments_a1)).
  - reflexivity.
  - now left.
  - vm_compute. reflexivity.
  - exists (VObject [("message",
                      Examples.function_call_message VNull "f" Examples.arguments_a1);
                     ("finish_reason", VString "function_call")]).
    repeat split; vm_compute; reflexivity.
Defined.

(** C7 on a function-call message that carries the content "Hello!", and on
    a call that succeeds with a plain message. *)
Lemma function_call_with_content_refused_witness :
  @parseChatGenerateFCOutput Reference.platform true
    (Examples.function_call_message (VString "Hello!") "f" Examples.arguments_a1)
  = inl (TRPCError INTERNAL_SERVER_ERROR msg_got_message)
  /\ exists w choices choice message finish_reason content,
       @provider_answers Reference.platform Examples.env
         (Examples.answering true "OK" Examples.body_one_choice)
         (Examples.input None) [] w [Examples.sent None]
       /\ Get w "choices" = inr choices
       /\ GetIndex choices 0 = inr choice
       /\ Get choice "message" = inr message
       /\ Get choice "finish_reason" = inr finish_reason
       /\ Get message "content" = inr content
       /\ ((finish_reason = VString "function_call" /\ content = VNull
            /\ exists fname fargs,
                 @Message Reference.Decimal
                   (VString "assistant") (VString "Hello!") (VString "stop")
                 = FunctionCall fname fargs)
           \/ (finish_reason <> VString "function_call" /\ content <> VNull
               /\ exists r,
                    @Message Reference.Decimal
                      (VString "assistant") (VString "Hello!") (VString "stop")
                    = Message r content finish_reason)).
Proof.
  destruct (@function_call_with_content_refused Reference.platform) as [Hparse Hcall].
  split.
  - apply (Hparse true _ (VString "Hello!")); [reflexivity | discriminate].
  - apply (Hcall Examples.env (Examples.answering true "OK" Examples.body_one_choice)
             (Examples.input None) []). vm_compute. reflexivity.
Defined.

(** C10 on a payload with the empty name. *)
Lemma empty_name_or_arguments_is_missing_witness :
  @parseChatGenerateFCOutput Reference.platform true
    (Examples.function_call_message VNull "" Examples.arguments_a1)
  = inl (TRPCError INTERNAL_SERVER_ERROR msg_missing).
Proof.
  apply (proj1 (@empty_name_or_arguments_is_missing Reference.platform
                  (Examples.function_call_message VNull "" Examples.arguments_a1)
                  (VObject [("name", VString "");
                            ("arguments", VString Examples.arguments_a1)])
                  eq_refl (or_introl eq_refl))).
  reflexivity.
Defined.

(** ** Runs of the payload builder, the access resolver and the transport *)

(** C4, the claim as stated fails: given the empty array, the payload
    builder includes [functions: []] and [function_call: 'auto']. *)
Lemma empty_functions_are_sent :
  wire_functions
    (openAIChatCompletionPayload Examples.gpt4 Examples.hello (Some []) Examples.one false)
  = Some []
  /\ wire_function_call
       (openAIChatCompletionPayload Examples.gpt4 Examples.hello (Some []) Examples.one false)
     = Some "auto".
Proof. split; reflexivity. Qed.

(** C5, the claim as stated fails: the host "httpbin.org" has no scheme,
    and the url resolved for it does not begin with "https://". *)
Lemma host_without_scheme_not_prefixed :
  has_scheme "httpbin.org" = false
  /\ exists a,
       openAIAccess Examples.env (Examples.access_with_host "httpbin.org") "/v1/models"
       = inr a
       /\ url a = "httpbin.org/v1/models"
       /\ Str.startsWith (url a) "https://" = false.
Proof.
  split; [reflexivity|].
  eexists. split; [reflexivity|]. split; reflexivity.
Qed.

(** C5 (amended) on the example of the specification: the host
    "https://x.com/" and the path "/v1/models". *)
Lemma url_normalisation_witness :
  exists a,
    openAIAccess Examples.env (Examples.access_with_host "https://x.com/") "/v1/models"
    = inr a
    /\ url a = "https://x.com/v1/models".
Proof.
  destruct (url_normalisation Examples.env (Examples.access_with_host "https://x.com/")
              "/v1/models" ltac:(discriminate))
    as (a & Ha & _ & _ & _ & _ & _ & Hexample).
  exists a. split; [exact Ha | now apply Hexample].
Defined.



(** ** Runs of the access resolver *)

(** X2 on an access with an organization and a Helicone key: both headers
    are sent. *)
Lemma openAIAccess_headers_witness :
  openAIAccess Examples.env MoreExamples.access_with_org "/v1/models"
    = inr MoreExamples.org_access
  /\ header "Authorization" (headers MoreExamples.org_access) = Some "Bearer sk-test"
  /\ header "OpenAI-Organization" (headers MoreExamples.org_access) = Some "org-1"
  /\ header "Helicone-Auth" (headers MoreExamples.org_access) = Some "Bearer hk".
Proof.
  split; [reflexivity|].
  destruct (@openAIAccess_headers Examples.env MoreExamples.access_with_org "/v1/models"
              MoreExamples.org_access eq_refl)
    as (Hkey & _ & Horg & Hheli & _).
  split; [exact Hkey|]. split; [exact Horg | exact Hheli].
Defined.

(** X10 on the access without host: the url of the models is that of the
    provider. *)
Lemma endpoint_precedence_witness :
  openAIAccess Examples.env (Examples.access_with_host "") "/v1/models"
    = inr (MoreExamples.access_to "/v1/models")
  /\ url (MoreExamples.access_to "/v1/models") = "https://api.openai.com/v1/models".
Proof.
  split; [reflexivity|].
  exact (proj1 (@endpoint_precedence Examples.env (Examples.access_with_host "")
                  "/v1/models" (MoreExamples.access_to "/v1/models") eq_refl)
           eq_refl (or_introl eq_refl)).
Defined.

(** ** Runs of [chatGenerateWithFunctions] *)

(** X8 on the body [null]. *)
Lemma missing_choices_refused_witness :
  @chatGenerateWithFunctions Reference.platform Examples.env
    (Examples.answering true "OK" "null") (Examples.input None) []
  = (inl (TRPCError INTERNAL_SERVER_ERROR
            "[OpenAI Issue] Expected 1 completion, got undefined"),
     [Examples.sent None]).
Proof.
  exact (@missing_choices_refused Reference.platform Examples.env
           (Examples.answering true "OK" "null") (Examples.input None) []
           VNull [Examples.sent None]
           ltac:(vm_compute; reflexivity)
           (or_introl (or_intror eq_refl))).
Defined.

(** X9 on a model with the temperature 0: the request has no
    temperature. *)
Lemma chat_request_parameters_witness :
  openAIAccess Examples.env (Examples.access_with_host "") "/v1/chat/completions"
    = inr (MoreExamples.access_to "/v1/chat/completions")
  /\ wire_temperature (@chat_body Reference.platform MoreExamples.cold_input) = None
  /\ wire_n (@chat_body Reference.platform MoreExamples.cold_input) = Examples.one.
Proof.
  split; [reflexivity|].
  destruct (@chat_request_parameters Reference.platform Examples.env
              (Examples.answering true "OK" Examples.body_one_choice)
              MoreExamples.cold_input []
              (MoreExamples.access_to "/v1/chat/completions") eq_refl)
    as (_ & _ & _ & Hn & _ & _ & _ & Hzero).
  split; [exact (Hzero eq_refl eq_refl) | exact Hn].
Defined.

(** ** Runs of [openaiGET] and of [moderation] *)

(** X11 on an error response: [openaiGET] returns the error body. *)
Lemma openaiGET_ignores_status_witness :
  @openaiGET Reference.platform Examples.env
    (@MoreExamples.answering_to unit false "Unauthorized" Examples.body_error)
    (Examples.access_with_host "") "/v1/models" []
  = (inr MoreExamples.response_error,
     [get_request (MoreExamples.access_to "/v1/models")]).
Proof.
  refine (eq_trans
            (proj1 (@openaiGET_ignores_status Reference.platform Examples.env
                      (@MoreExamples.answering_to unit false "Unauthorized"
                         Examples.body_error)
                      (Examples.access_with_host "") "/v1/models" []
                      (MoreExamples.access_to "/v1/models")
                      {| ok := false; statusText := "Unauthorized";
                         body_text := Examples.body_error |}
                      eq_refl eq_refl)) _).
  vm_compute. reflexivity.
Defined.

(** X12 on a body that is not JSON: the SyntaxError, after one request. *)
Lemma openaiGET_failures_witness :
  @openaiGET Reference.platform Examples.env
    (@MoreExamples.answering_to unit true "OK" "not json")
    (Examples.access_with_host "") "/v1/models" []
  = (inl (SyntaxError "Unexpected token in JSON"),
     [get_request (MoreExamples.access_to "/v1/models")])
  /\ exists a,
       openAIAccess Examples.env (Examples.access_with_host "") "/v1/models" = inr a
       /\ [get_request (MoreExamples.access_to "/v1/models")]
          = ([] ++ [get_request a])%list.
Proof.
  assert (Hcall :
            @openaiGET Reference.platform Examples.env
              (@MoreExamples.answering_to unit true "OK" "not json")
              (Examples.access_with_host "") "/v1/models" []
            = (inl (SyntaxError "Unexpected token in JSON"),
               [get_request (MoreExamples.access_to "/v1/models")]))
    by (vm_compute; reflexivity).
  split; [exact Hcall|].
  destruct (@openaiGET_failures Reference.platform Examples.env
              (@MoreExamples.answering_to unit true "OK" "not json")
              (Examples.access_with_host "") "/v1/models" [] _ _ Hcall)
    as [(_ & Hsent & _) | (a & Ha & Hsent & _)]; [discriminate|].
  exists a. split; [exact Ha | exact Hsent].
Defined.

(** X13 on a request the provider refuses: the BAD_REQUEST of
    [openaiPOST] comes out as a BAD_REQUEST with "Error: " before its
    message. *)
Lemma moderation_failures_witness :
  @Moderation.moderation Reference.platform MoreExamples.engine Examples.env
    (@MoreExamples.answering_to Moderation.Request false "Unauthorized" Examples.body_error)
    MoreExamples.moderation_input []
  = (inl (TRPCError BAD_REQUEST "Error: [OpenAI Issue] Incorrect API key provided"),
     [MoreExamples.moderation_sent])
  /\ exists e0,
       @openaiPOST Reference.platform Moderation.Request Examples.env
         (@MoreExamples.answering_to Moderation.Request false "Unauthorized"
            Examples.body_error)
         (Examples.access_with_host "") (moderation_body MoreExamples.moderation_input)
         "/v1/moderations" []
       = (inl e0, [MoreExamples.moderation_sent]).
Proof.
  assert (Hcall :
            @Moderation.moderation Reference.platform MoreExamples.engine Examples.env
              (@MoreExamples.answering_to Moderation.Request false "Unauthorized"
                 Examples.body_error)
              MoreExamples.moderation_input []
            = (inl (TRPCError BAD_REQUEST
                      "Error: [OpenAI Issue] Incorrect API key provided"),
               [MoreExamples.moderation_sent]))
    by (vm_compute; reflexivity).
  split; [exact Hcall|].
  exact (proj2 (@moderation_failures Reference.platform MoreExamples.engine Examples.env
                  (@MoreExamples.answering_to Moderation.Request false "Unauthorized"
                     Examples.body_error)
                  MoreExamples.moderation_input [] _ _ Hcall)).
Defined.

(** X14 on a network that resets the connection. *)
Lemma moderation_rewraps_witness :
  @Moderation.moderation Reference.platform MoreExamples.engine Examples.env
    (@MoreExamples.rejecting Moderation.Request "ECONNRESET")
    MoreExamples.moderation_input []
  = (inl (TRPCError CLIENT_CLOSED_REQUEST "Connection reset by the client."),
     [MoreExamples.moderation_sent]).
Proof.
  exact (proj2 (proj2
           (@moderation_rewraps Reference.platform MoreExamples.engine Examples.env
              (@MoreExamples.rejecting Moderation.Request "ECONNRESET")
              MoreExamples.moderation_input []
              (FetchRejected "ECONNRESET") [MoreExamples.moderation_sent]
              ltac:(vm_compute; reflexivity)))
           (or_intror (ex_intro _ "ECONNRESET" eq_refl)) eq_refl).
Defined.

(** X16 on an access without key, in an environment without key:
    [moderation] fails before it sends anything. *)
Lemma no_request_without_key_witness :
  @Moderation.moderation Reference.platform MoreExamples.engine Examples.env
    (@MoreExamples.answering_to Moderation.Request true "OK" "{}")
    {| Moderation.access := MoreExamples.access_without_key;
       Moderation.text := "some text" |} []
  = (inl (TRPCError BAD_REQUEST
            "Error: Missing OpenAI API Key. Add it on the UI (Models Setup) or server side (your deployment)."),
     [])
  /\ @openaiGET Reference.platform Examples.env
       (@MoreExamples.answering_to unit true "OK" "{}")
       MoreExamples.access_without_key "/v1/models" []
     = (inl (Rethrown (Error msg_missing_key)), []).
Proof.
  destruct (@no_request_without_key Reference.platform MoreExamples.engine Examples.env
              MoreExamples.access_without_key "/v1/models" eq_refl (or_introl eq_refl))
    as (_ & Hget & _ & _).
  destruct (@no_request_without_key Reference.platform MoreExamples.engine Examples.env
              MoreExamples.access_without_key "/v1/moderations" eq_refl (or_introl eq_refl))
    as (_ & _ & _ & Hmoderation).
  split; [|apply Hget].
  exact (Hmoderation (@MoreExamples.answering_to Moderation.Request true "OK" "{}")
           {| Moderation.access := MoreExamples.access_without_key;
              Moderation.text := "some text" |} [] eq_refl).
Defined.

(** ** Runs of the model list on a catalog with a repeated id *)



(** ** Runs on two accesses, and on a choice without message *)

(** X20 on two accesses that differ in their keys only: one url. *)
Lemma url_and_headers_independent_witness :
  url MoreExamples.org_access = url (MoreExamples.access_to "/v1/models").
Proof.
  exact (proj1 (@url_and_headers_independent Examples.env MoreExamples.access_with_org
                  (Examples.access_with_host "") "/v1/models" "/v1/models"
                  MoreExamples.org_access (MoreExamples.access_to "/v1/models")
                  eq_refl eq_refl)
           eq_refl eq_refl).
Defined.

(** X21 on the response [{"choices":[{"finish_reason":"stop"}]}]. *)
Lemma choice_without_message_witness :
  @chatGenerateWithFunctions Reference.platform Examples.env
    (Examples.answering true "OK" MoreExamples.body_no_message)
    (Examples.input None) []
  = (inl TypeError, [Examples.sent None]).
Proof.
  exact (@choice_without_message Reference.platform Examples.env
           (Examples.answering true "OK" MoreExamples.body_no_message)
           (Examples.input None) [] MoreExamples.response_no_message
           [Examples.sent None] VUndefined (VString "stop")
           eq_refl
           ltac:(vm_compute; reflexivity)
           ltac:(exists (VObject [("finish_reason", VString "stop")]);
                 repeat split; vm_compute; reflexivity)
           (or_introl eq_refl)).
Defined.

(** ** The platform with a collation is a platform *)

Lemma code_units_le_trans (a b c : string) :
  (Reference.compare_code_units a b <= 0)%Z ->
  (Reference.compare_code_units b c <= 0)%Z ->
  (Reference.compare_code_units a c <= 0)%Z.
Proof.
  intros Hab Hbc.
  destruct (Z.eq_dec (Reference.compare_code_units a b) 0) as [E | N].
  { apply code_units_eq in E. now subst. }
  destruct (Z.eq_dec (Reference.compare_code_units b c) 0) as [E | N'].
  { apply code_units_eq in E. now subst. }
  apply Z.lt_le_incl, code_units_trans with b; lia.
Qed.

Lemma collating_refl (a : string) : Collating.compare a a = 0%Z.
Proof. unfold Collating.compare. now apply code_units_eq. Qed.

Lemma collating_antisym (a b : string) :
  (Collating.compare a b < 0)%Z <-> (0 < Collating.compare b a)%Z.
Proof. unfold Collating.compare. apply code_units_antisym. Qed.

Lemma collating_le_trans (a b c : string) :
  (Collating.compare a b <= 0)%Z -> (Collating.compare b c <= 0)%Z ->
  (Collating.compare a c <= 0)%Z.
Proof. unfold Collating.compare. apply code_units_le_trans. Qed.

(** ** Runs of the model list under the collation *)



(** ** Runs of the procedure [chatGenerateWithFunctions] *)

(** X4 on a request the provider refuses with an error body: a
    BAD_REQUEST, after one request. *)
Lemma chatGenerateWithFunctions_failures_witness :
  @Procedure.chatGenerateWithFunctions Reference.platform Examples.env
    (Examples.answering false "Unauthorized" Examples.body_error)
    (Examples.input None) []
  = (inl (Failed BAD_REQUEST "[OpenAI Issue] Incorrect API key provided"),
     [Examples.sent None])
  /\ exists a,
       openAIAccess Examples.env (Examples.access_with_host "") "/v1/chat/completions"
         = inr a
       /\ [Examples.sent None]
          = ([] ++ [post_request a (@chat_body Reference.platform (Examples.input None))])%list.
Proof.
  assert (Hcall :
            @Procedure.chatGenerateWithFunctions Reference.platform Examples.env
              (Examples.answering false "Unauthorized" Examples.body_error)
              (Examples.input None) []
            = (inl (Failed BAD_REQUEST "[OpenAI Issue] Incorrect API key provided"),
               [Examples.sent None]))
    by (vm_compute; reflexivity).
  split; [exact Hcall|].
  destruct (@chatGenerateWithFunctions_failures Reference.platform Examples.env
              (Examples.answering false "Unauthorized" Examples.body_error)
              (Examples.input None) [] _ _ Hcall)
    as [(_ & Hsent & _) | (a & Ha & Hsent & _)]; [discriminate|].
  exists a. split; [exact Ha | exact Hsent].
Defined.

(** X6 on the answer "Hello!", to a caller that offered a function: with
    the finish_reason "stop" the Message variant comes back; with the
    finish_reason "content_filter" the handler returns it and the output
    validation fails. *)
Lemma plain_message_returned_witness :
  @Procedure.chatGenerateWithFunctions Reference.platform Examples.env
    (Examples.answering true "OK" Examples.body_one_choice)
    (Examples.input (Some [Examples.f])) []
  = (inr (@Message Reference.Decimal (VString "assistant") (VString "Hello!")
            (VString "stop")),
     [Examples.sent (Some [Examples.f])])
  /\ @chatGenerateWithFunctions Reference.platform Examples.env
       (Examples.answering true "OK" MoreExamples.body_content_filter)
       (Examples.input (Some [Examples.f])) []
     = (inr (@Message Reference.Decimal (VString "assistant") (VString "Hello!")
               (VString "content_filter")),
        [Examples.sent (Some [Examples.f])])
  /\ @Procedure.chatGenerateWithFunctions Reference.platform Examples.env
       (Examples.answering true "OK" MoreExamples.body_content_filter)
       (Examples.input (Some [Examples.f])) []
     = (inl (Failed INTERNAL_SERVER_ERROR "Output validation failed"),
        [Examples.sent (Some [Examples.f])]).
Proof.
  destruct (proj1 (@plain_message_returned Reference.platform Examples.env
                     (Examples.answering true "OK" Examples.body_one_choice)
                     (Examples.input (Some [Examples.f])) []
                     MoreExamples.response_one_choice
                     [Examples.sent (Some [Examples.f])]
                     (VObject [("role", VString "assistant");
                               ("content", VString "Hello!")])
                     (VString "stop")
                     eq_refl
                     ltac:(vm_compute; reflexivity)
                     ltac:(exists Examples.stop_choice; repeat split; vm_compute; reflexivity)
                     ltac:(discriminate))
              (VString "assistant") (VString "Hello!") eq_refl eq_refl ltac:(discriminate))
    as (_ & Hstop & _).
  destruct (proj1 (@plain_message_returned Reference.platform Examples.env
                     (Examples.answering true "OK" MoreExamples.body_content_filter)
                     (Examples.input (Some [Examples.f])) []
                     MoreExamples.response_content_filter
                     [Examples.sent (Some [Examples.f])]
                     (VObject [("role", VString "assistant");
                               ("content", VString "Hello!")])
                     (VString "content_filter")
                     eq_refl
                     ltac:(vm_compute; reflexivity)
                     ltac:(exists (VObject [("message",
                                             VObject [("role", VString "assistant");
                                                      ("content", VString "Hello!")]);
                                            ("finish_reason", VString "content_filter")]);
                           repeat split; vm_compute; reflexivity)
                     ltac:(discriminate))
              (VString "assistant") (VString "Hello!") eq_refl eq_refl ltac:(discriminate))
    as (Hhandler & _ & Hfiltered).
  split; [|split; [exact Hhandler|]].
  - apply Hstop. split; [simpl; auto|]. split; [eauto | simpl; auto].
  - apply Hfiltered. intros (_ & _ & Hin). simpl in Hin.
    destruct Hin as [E | [E | [E | []]]]; discriminate.
Defined.
